(** * AgentAuth: identities, delegations and AAT tokens

    A shallow embedding of the AgentAuth core (identity.ts, delegation.ts,
    token.ts) and of the React package: its enforcement layer
    (middleware.ts), its approval dialog (DelegationRequestModal.tsx) and its
    hook (useAgentAuth.ts); with the properties its specification states about
    them, and further properties that the code shows.

    Conventions of the embedding.
    - A JavaScript string is a [string] holding its UTF-8 encoding; a
      [Buffer] or [Uint8Array] is a [list byte].
    - A thrown exception is the [Err] case of [result]; the constructors of
      [error] name the error kinds of the specification, and the message the
      code throws is recalled next to each.
    - What the code reads from its surroundings is passed in: the clock
      ([Date.now()], in milliseconds), the random values (key seed, nonce,
      UUID), and the platform services the repository does not contain
      ([JSON], the Ed25519 library, [Date.parse], the coercions of
      JavaScript's relational operators on strings and objects), which are
      the variables of the sections below.
    - A JavaScript number is a [Z]: the code computes with integer seconds and
      milliseconds only, and on the integers below 2^53 in magnitude the
      arithmetic of doubles is the arithmetic of integers. The one number that
      can leave them, the length of a duration, is a [JSNumber]. *)

From Stdlib Require Import List String Ascii ZArith NArith Lia Bool.
From Stdlib.Strings Require Import Byte.
Import ListNotations.

Local Open Scope string_scope.
Local Open Scope list_scope.

(** ** Errors and the error monad *)

Inductive error : Type :=
| MalformedToken          (* 'Invalid AAT token format (expected 4 parts)' *)
| SyntaxError             (* thrown by JSON.parse *)
| TypeError               (* property access on null or undefined, call of a missing method *)
| InvalidDIDFormat        (* 'Invalid AgentAuth DID format' *)
| InvalidKeyFormat        (* thrown by the Ed25519 library on key material of the wrong size *)
| CryptoError             (* any other exception of the Ed25519 library *)
| InvalidSignature        (* 'Invalid token signature' *)
| TokenExpired            (* 'Token expired' *)
| AudienceMismatch        (* 'Invalid audience: expected ..., got ...' *)
| InsufficientScope       (* 'Missing required scopes' *)
| InvalidDurationFormat   (* 'Invalid expiry format (use: 1h, 24h, 7d, etc.)' *)
| NoDelegation            (* 'No delegation in token' *)
| DelegationExpired       (* 'Delegation expired' *)
| DelegationNotYetValid   (* 'Delegation not yet valid' *)
| MFARequired             (* 'MFA required but not provided' *)
| SubdelegationNotAllowed (* 'Subdelegation not allowed' *)
| OutsideTimeWindow.      (* 'Action outside allowed time window' *)

Inductive result (A : Type) : Type :=
| Ok (a : A)
| Err (e : error).

Arguments Ok {A} a.
Arguments Err {A} e.

Definition bind {A B : Type} (r : result A) (k : A -> result B) : result B :=
  match r with
  | Ok a => k a
  | Err e => Err e
  end.

Notation "x <- r ;; k" := (bind r (fun x => k))
  (at level 61, r at next level, right associativity).

(** ** Buffers and their encodings

    Node's [Buffer] conversions, which the code uses for every encoding step:
    [Buffer.from(s, enc)] and [buf.toString(enc)] for [enc] one of ['hex'],
    ['base64url'] and ['utf8']. *)

Definition Buffer : Type := list byte.

Definition byte_of_N (n : N) : byte :=
  match Byte.of_N n with
  | Some b => b
  | None => x00
  end.

Definition ascii_in (lo hi : ascii) (c : ascii) : bool :=
  ((N_of_ascii lo <=? N_of_ascii c) && (N_of_ascii c <=? N_of_ascii hi))%N.

(** *** Hexadecimal *)

Definition hex_digit (n : N) : ascii :=
  if (n <? 10)%N then ascii_of_N (N_of_ascii "0" + n)
  else ascii_of_N (N_of_ascii "a" + (n - 10)).

Definition unhex (c : ascii) : option N :=
  if ascii_in "0" "9" c then Some (N_of_ascii c - N_of_ascii "0")%N
  else if ascii_in "a" "f" c then Some (N_of_ascii c - N_of_ascii "a" + 10)%N
  else if ascii_in "A" "F" c then Some (N_of_ascii c - N_of_ascii "A" + 10)%N
  else None.

(** [buf.toString('hex')]: two lower-case digits per byte. *)
Fixpoint toString_hex (b : Buffer) : string :=
  match b with
  | [] => EmptyString
  | x :: rest =>
      String (hex_digit (Byte.to_N x / 16)) (String (hex_digit (Byte.to_N x mod 16)) (toString_hex rest))
  end.

(** [Buffer.from(s, 'hex')]: Node decodes pairs of digits and stops, without
    an exception, at the first pair that is not hexadecimal; a trailing single
    character is dropped. *)
Fixpoint Buffer_from_hex (s : string) : Buffer :=
  match s with
  | String c1 (String c2 rest) =>
      match unhex c1, unhex c2 with
      | Some hi, Some lo => byte_of_N (hi * 16 + lo) :: Buffer_from_hex rest
      | _, _ => []
      end
  | _ => []
  end.

(** *** Base64url *)

Definition base64url_char (n : N) : ascii :=
  if (n <? 26)%N then ascii_of_N (N_of_ascii "A" + n)
  else if (n <? 52)%N then ascii_of_N (N_of_ascii "a" + (n - 26))
  else if (n <? 62)%N then ascii_of_N (N_of_ascii "0" + (n - 52))
  else if (n =? 62)%N then "-"%char
  else "_"%char.

(** The decoder reads the standard and the URL-safe alphabet alike. *)
Definition unbase64 (c : ascii) : option N :=
  if ascii_in "A" "Z" c then Some (N_of_ascii c - N_of_ascii "A")%N
  else if ascii_in "a" "z" c then Some (N_of_ascii c - N_of_ascii "a" + 26)%N
  else if ascii_in "0" "9" c then Some (N_of_ascii c - N_of_ascii "0" + 52)%N
  else if (Ascii.eqb c "-" || Ascii.eqb c "+")%bool then Some 62%N
  else if (Ascii.eqb c "_" || Ascii.eqb c "/")%bool then Some 63%N
  else None.

(** Three bytes make four six-bit groups; one or two trailing bytes make two
    or three groups (base64url carries no padding). *)
Fixpoint base64_groups (b : Buffer) : list N :=
  match b with
  | [] => []
  | [x] =>
      let a := Byte.to_N x in
      [a / 4; (a mod 4) * 16]%N
  | [x; y] =>
      let a := Byte.to_N x in
      let b := Byte.to_N y in
      [a / 4; (a mod 4) * 16 + b / 16; (b mod 16) * 4]%N
  | x :: y :: z :: rest =>
      let a := Byte.to_N x in
      let b := Byte.to_N y in
      let c := Byte.to_N z in
      (a / 4 :: (a mod 4) * 16 + b / 16 :: (b mod 16) * 4 + c / 64 :: c mod 64
         :: base64_groups rest)%N
  end.

Fixpoint string_of_chars (l : list ascii) : string :=
  match l with
  | [] => EmptyString
  | c :: rest => String c (string_of_chars rest)
  end.

(** [buf.toString('base64url')] *)
Definition toString_base64url (b : Buffer) : string :=
  string_of_chars (map base64url_char (base64_groups b)).

(** The decoder skips every character outside the alphabets and stops at the
    first ['=']. *)
Fixpoint base64_scan (s : string) : list N :=
  match s with
  | EmptyString => []
  | String c rest =>
      if Ascii.eqb c "=" then []
      else match unbase64 c with
           | Some n => n :: base64_scan rest
           | None => base64_scan rest
           end
  end.

Fixpoint base64_bytes (g : list N) : Buffer :=
  match g with
  | a :: b :: c :: d :: rest =>
      byte_of_N (a * 4 + b / 16) :: byte_of_N ((b mod 16) * 16 + c / 4)
        :: byte_of_N ((c mod 4) * 64 + d) :: base64_bytes rest
  | [a; b; c] => [byte_of_N (a * 4 + b / 16); byte_of_N ((b mod 16) * 16 + c / 4)]
  | [a; b] => [byte_of_N (a * 4 + b / 16)]
  | _ => []
  end%N.

(** [Buffer.from(s, 'base64url')] *)
Definition Buffer_from_base64url (s : string) : Buffer :=
  base64_bytes (base64_scan s).

(** *** UTF-8

    [buf.toString('utf8')] decodes with replacement: every maximal ill-formed
    part of the input becomes one U+FFFD, every well-formed sequence its code
    point. On the UTF-8 representation of strings the well-formed sequences
    are therefore copied and the ill-formed parts replaced by [EF BF BD]. The
    decoder is the WHATWG one: after a lead byte it expects [needed]
    continuation bytes, the first of them within [lower..upper]. *)

Inductive utf8_state : Type :=
| Boundary
| Within (seen : Buffer) (needed : nat) (lower upper : N).

Definition replacement : Buffer := [xef; xbf; xbd].

Definition N_in (lo hi n : N) : bool := ((lo <=? n) && (n <=? hi))%N.

Definition utf8_lead (b : byte) : Buffer * utf8_state :=
  let n := Byte.to_N b in
  if N_in 0x00 0x7f n then ([b], Boundary)
  else if N_in 0xc2 0xdf n then ([], Within [b] 1 0x80 0xbf)
  else if N_in 0xe0 0xef n then
    ([], Within [b] 2 (if n =? 0xe0 then 0xa0 else 0x80) (if n =? 0xed then 0x9f else 0xbf))%N
  else if N_in 0xf0 0xf4 n then
    ([], Within [b] 3 (if n =? 0xf0 then 0x90 else 0x80) (if n =? 0xf4 then 0x8f else 0xbf))%N
  else (replacement, Boundary).

Fixpoint utf8_decode (st : utf8_state) (bs : Buffer) : Buffer :=
  match bs with
  | [] =>
      match st with
      | Boundary => []
      | Within _ _ _ _ => replacement
      end
  | b :: rest =>
      match st with
      | Boundary =>
          fst (utf8_lead b) ++ utf8_decode (snd (utf8_lead b)) rest
      | Within seen needed lower upper =>
          if N_in lower upper (Byte.to_N b) then
            match needed with
            | S (S n) => utf8_decode (Within (seen ++ [b]) (S n) 0x80 0xbf) rest
            | _ => (seen ++ [b]) ++ utf8_decode Boundary rest
            end
          else
            replacement ++ fst (utf8_lead b) ++ utf8_decode (snd (utf8_lead b)) rest
      end
  end.

(** [buf.toString('utf8')] and [Buffer.from(s, 'utf8')] *)
Definition toString_utf8 (b : Buffer) : string :=
  string_of_list_byte (utf8_decode Boundary b).

Definition Buffer_from_utf8 (s : string) : Buffer :=
  list_byte_of_string s.

(** ** Strings *)

(** [s.split(sep)] for a one-character separator. *)
Fixpoint String_split (sep : ascii) (s : string) : list string :=
  match s with
  | EmptyString => [EmptyString]
  | String c rest =>
      if Ascii.eqb c sep then EmptyString :: String_split sep rest
      else match String_split sep rest with
           | part :: parts => String c part :: parts
           | [] => [String c EmptyString]
           end
  end.

(** [s.includes(t)] *)
Definition String_includes (s t : string) : bool :=
  match String.index 0 t s with
  | Some _ => true
  | None => false
  end.

(** Number of UTF-16 code units of a string, read off its UTF-8 encoding: one
    per code point and one more for each code point outside the Basic
    Multilingual Plane (a four-byte sequence). *)
Fixpoint utf16_length (s : string) : Z :=
  match s with
  | EmptyString => 0
  | String c rest =>
      let n := N_of_ascii c in
      ((if N_in 0x80 0xbf n then 0 else if (0xf0 <=? n)%N then 2 else 1) + utf16_length rest)%Z
  end.

(** The continuation bytes that a string begins with. *)
Fixpoint continuation_bytes (s : string) : string :=
  match s with
  | EmptyString => EmptyString
  | String c rest =>
      if N_in 0x80 0xbf (N_of_ascii c) then String c (continuation_bytes rest) else EmptyString
  end.

(** ** JavaScript values

    Whatever [JSON.parse] returns is untyped at run time, and so are the
    objects handed to the enforcement layer; the code's property accesses,
    truth tests and comparisons on them follow the language's rules for every
    value, not only for the ones the TypeScript interfaces describe. *)

#[warnings="-register-all"]
Inductive JSValue : Type :=
| JUndefined
| JNull
| JBool (b : bool)
| JNum (n : Z)
| JStr (s : string)
| JArr (items : list JSValue)
| JObj (fields : list (string * JSValue)).

(** An object lists each of its properties once, in the order of insertion. *)
Fixpoint lookup (key : string) (fields : list (string * JSValue)) : JSValue :=
  match fields with
  | [] => JUndefined
  | (k, v) :: rest => if String.eqb key k then v else lookup key rest
  end.

(** [v.key] for the property names of the code, none of which is an index or
    a method: a [TypeError] on [null] and [undefined], [undefined] for a
    property the value does not have. *)
Definition get (v : JSValue) (key : string) : result JSValue :=
  match v with
  | JUndefined | JNull => Err TypeError
  | JObj fields => Ok (lookup key fields)
  | JArr items =>
      Ok (if String.eqb key "length" then JNum (Z.of_nat (List.length items)) else JUndefined)
  | JStr s => Ok (if String.eqb key "length" then JNum (utf16_length s) else JUndefined)
  | JBool _ | JNum _ => Ok JUndefined
  end.

(** [v[0]]. On a string JavaScript yields the first UTF-16 code unit, which is
    the first character for every character of the Basic Multilingual Plane. *)
Definition get0 (v : JSValue) : result JSValue :=
  match v with
  | JUndefined | JNull => Err TypeError
  | JArr items => Ok (nth 0 items JUndefined)
  | JObj fields => Ok (lookup "0" fields)
  | JStr (String c rest) => Ok (JStr (String c (continuation_bytes rest)))
  | JStr EmptyString | JBool _ | JNum _ => Ok JUndefined
  end.

Definition truthy (v : JSValue) : bool :=
  match v with
  | JUndefined | JNull => false
  | JBool b => b
  | JNum n => negb (n =? 0)%Z
  | JStr s => negb (String.eqb s EmptyString)
  | JArr _ | JObj _ => true
  end.

(** [v === w] where one side is a primitive, as everywhere in the code: an
    array or object is never identical to a primitive. *)
Definition strict_eq (v w : JSValue) : bool :=
  match v, w with
  | JUndefined, JUndefined => true
  | JNull, JNull => true
  | JBool a, JBool b => Bool.eqb a b
  | JNum a, JNum b => (a =? b)%Z
  | JStr a, JStr b => String.eqb a b
  | _, _ => false
  end.

(** Calling a string method on a value: every value but a string lacks it. *)
Definition string_receiver (v : JSValue) : result string :=
  match v with
  | JStr s => Ok s
  | _ => Err TypeError
  end.

(** [v.includes(s)] for a string [s]: membership in an array, containment in a
    string; no other value has the method. *)
Definition includes (v : JSValue) (s : string) : result bool :=
  match v with
  | JArr items => Ok (existsb (fun x => strict_eq x (JStr s)) items)
  | JStr t => Ok (String_includes t s)
  | _ => Err TypeError
  end.

(** [l.every(f)] and [v.some(f)], stopping at the first element that decides,
    so that an exception of [f] on a later element does not occur. *)
Fixpoint every {A : Type} (f : A -> result bool) (l : list A) : result bool :=
  match l with
  | [] => Ok true
  | x :: rest => b <- f x ;; if b then every f rest else Ok false
  end.

Fixpoint some_of {A : Type} (f : A -> result bool) (l : list A) : result bool :=
  match l with
  | [] => Ok false
  | x :: rest => b <- f x ;; if b then Ok true else some_of f rest
  end.

Definition array_some (f : JSValue -> result bool) (v : JSValue) : result bool :=
  match v with
  | JUndefined | JNull => Err TypeError
  | JArr items => some_of f items
  | _ => Err TypeError
  end.

(** *** Relational operators

    [IsLessThan] of the language: two strings compare as strings, anything
    else as numbers, and a comparison with NaN is undefined ([None]). The
    number a string denotes and the string an array or object converts to are
    left to the platform. Strings are ordered by code point, which is
    JavaScript's order by UTF-16 code unit except between a character beyond
    the Basic Multilingual Plane and one from U+E000 on. *)
Section Relational.

Variable StringToNumber : string -> option Z.
Variable ObjectToString : JSValue -> string.

Definition ToPrimitive (v : JSValue) : JSValue :=
  match v with
  | JArr _ | JObj _ => JStr (ObjectToString v)
  | _ => v
  end.

Definition ToNumber (v : JSValue) : option Z :=
  match v with
  | JUndefined => None
  | JNull => Some 0%Z
  | JBool b => Some (if b then 1 else 0)%Z
  | JNum n => Some n
  | JStr s => StringToNumber s
  | JArr _ | JObj _ => None
  end.

Definition IsLessThan (x y : JSValue) : option bool :=
  match ToPrimitive x, ToPrimitive y with
  | JStr a, JStr b => Some (String.ltb a b)
  | px, py =>
      match ToNumber px, ToNumber py with
      | Some a, Some b => Some (a <? b)%Z
      | _, _ => None
      end
  end.

(** [x < y], [x > y], [x <= y], [x >= y] *)
Definition js_lt (x y : JSValue) : bool :=
  match IsLessThan x y with Some b => b | None => false end.

Definition js_gt (x y : JSValue) : bool :=
  match IsLessThan y x with Some b => b | None => false end.

Definition js_le (x y : JSValue) : bool :=
  match IsLessThan y x with Some b => negb b | None => false end.

Definition js_ge (x y : JSValue) : bool :=
  match IsLessThan x y with Some b => negb b | None => false end.

End Relational.

(** *** Numbers beyond 2^53

    A JavaScript number is a double: 53 bits of significand, and an exponent
    that stops short of 2^1024. An integer below 2^53 in magnitude is a double,
    and a double of magnitude 2^53 or more is an integer, so that a double
    which is not a fraction is an integer [Finite n] or one of the two
    infinities. *)
Inductive JSNumber : Type :=
| Finite (n : Z)
| Infinity
| MinusInfinity.

(** The double nearest to an integer, were the exponent unbounded: the
    integer itself below 2^53 in magnitude, and beyond that the nearest
    multiple of the power of two that leaves 53 bits, a tie going to the even
    one. *)
Definition nearest_double (n : Z) : Z :=
  let a := Z.abs n in
  if (a <? 2 ^ 53)%Z then n
  else
    let ulp := (2 ^ (Z.log2 a - 52))%Z in
    let q := (a / ulp)%Z in
    let r := (a mod ulp)%Z in
    let up := ((ulp <? 2 * r) || ((2 * r =? ulp) && Z.odd q))%Z in
    (Z.sgn n * ((if up then q + 1 else q) * ulp))%Z.

(** The number value of an integer: the nearest double, and an infinity when
    that reaches 2^1024. *)
Definition to_Number (n : Z) : JSNumber :=
  let d := nearest_double n in
  if (2 ^ 1024 <=? d)%Z then Infinity
  else if (d <=? - 2 ^ 1024)%Z then MinusInfinity
  else Finite d.

(** [x * m] for a positive integer [m], and [a + x] for an integer [a] that is
    a double: the exact product and the exact sum, rounded. *)
Definition Number_times (x : JSNumber) (m : Z) : JSNumber :=
  match x with
  | Finite v => to_Number (v * m)
  | Infinity => Infinity
  | MinusInfinity => MinusInfinity
  end.

Definition Number_plus (a : Z) (x : JSNumber) : JSNumber :=
  match x with
  | Finite v => to_Number (a + v)
  | Infinity => Infinity
  | MinusInfinity => MinusInfinity
  end.

(** A number as a property of an object that is printed by [JSON.stringify],
    which writes [null] for an infinity. *)
Definition Number_value (x : JSNumber) : JSValue :=
  match x with
  | Finite n => JNum n
  | Infinity | MinusInfinity => JNull
  end.

(** ** Identity (identity.ts) *)

Record AgentIdentity : Type := {
  privateKey : Buffer;
  publicKey : Buffer;
  did : string;
  metadata : JSValue   (* [JUndefined] when none was given *)
}.

Record IdentityJSON : Type := {
  json_did : string;
  json_privateKey : string;
  json_publicKey : string;
  json_metadata : JSValue;
  json_created : string
}.

(** [AgentIdentity.publicKeyToDID] *)
Definition publicKeyToDID (publicKey : Buffer) : string :=
  "did:agentauth:ed25519:" ++ toString_base64url publicKey.

(** [AgentIdentity.didToPublicKey] *)
Definition didToPublicKey (did : string) : result Buffer :=
  match String_split ":" did with
  | [p0; p1; p2; p3] =>
      if negb (String.eqb p0 "did") || negb (String.eqb p1 "agentauth")
         || negb (String.eqb p2 "ed25519")
      then Err InvalidDIDFormat
      else Ok (Buffer_from_base64url p3)
  | _ => Err InvalidDIDFormat
  end.

(** [exportPrivateKey] *)
Definition exportPrivateKey (x : AgentIdentity) : string :=
  toString_hex (privateKey x).

(** [toJSON]; [created] is [new Date().toISOString()] at the time of the
    call. *)
Definition toJSON (x : AgentIdentity) (created : string) : IdentityJSON :=
  {| json_did := did x;
     json_privateKey := exportPrivateKey x;
     json_publicKey := toString_hex (publicKey x);
     json_metadata := metadata x;
     json_created := created |}.

(** The Ed25519 library (@noble/ed25519) is not part of the repository: its
    three functions are variables, [None] standing for an exception. *)
Section Identity.

Variable ed_getPublicKey : Buffer -> option Buffer.
Variable ed_sign : Buffer -> Buffer -> option Buffer.            (* message, private key *)
Variable ed_verify : Buffer -> Buffer -> Buffer -> option bool.  (* signature, message, public key *)

(** [AgentIdentity.create]; [seed] is the fresh random private key. *)
Definition AgentIdentity_create (seed : Buffer) (metadata : JSValue) : result AgentIdentity :=
  match ed_getPublicKey seed with
  | None => Err InvalidKeyFormat
  | Some publicKey =>
      Ok {| privateKey := seed;
            publicKey := publicKey;
            did := publicKeyToDID publicKey;
            metadata := metadata |}
  end.

(** [AgentIdentity.fromPrivateKey] *)
Definition fromPrivateKey (privateKeyHex : string) (metadata : JSValue) : result AgentIdentity :=
  let privateKey := Buffer_from_hex privateKeyHex in
  match ed_getPublicKey privateKey with
  | None => Err InvalidKeyFormat
  | Some publicKey =>
      Ok {| privateKey := privateKey;
            publicKey := publicKey;
            did := publicKeyToDID publicKey;
            metadata := metadata |}
  end.

(** [sign] *)
Definition sign (x : AgentIdentity) (data : Buffer) : result Buffer :=
  match ed_sign data (privateKey x) with
  | Some signature => Ok signature
  | None => Err CryptoError
  end.

(** [AgentIdentity.verify] *)
Definition AgentIdentity_verify (signature message : Buffer) (did : string) : result bool :=
  publicKey <- didToPublicKey did ;;
  match ed_verify signature message publicKey with
  | Some b => Ok b
  | None => Err CryptoError
  end.

(** [AgentIdentity.fromJSON] *)
Definition fromJSON (json : IdentityJSON) : result AgentIdentity :=
  fromPrivateKey (json_privateKey json) (json_metadata json).

(** What the constructors establish, the class constructor being private:
    the public key and the DID are the ones derived from the private key. *)
Definition derived (x : AgentIdentity) : Prop :=
  ed_getPublicKey (privateKey x) = Some (publicKey x)
  /\ did x = publicKeyToDID (publicKey x).

End Identity.

(** ** Token (token.ts) *)

Record CreateTokenOptions : Type := {
  identity : AgentIdentity;
  delegator : string;
  audience : string;
  scopes : list string;
  delegationChain : option (list JSValue);
  expiresIn : option string
}.

Record VerifyOptions : Type := {
  verify_audience : option string;
  requiredScopes : option (list string)
}.

Record AATToken : Type := {
  token_header : JSValue;
  token_payload : JSValue;
  token_delegationChain : JSValue;
  token_signature : Buffer
}.

Definition base64urlEncode (str : string) : string :=
  toString_base64url (Buffer_from_utf8 str).

Definition base64urlDecode (str : string) : string :=
  toString_utf8 (Buffer_from_base64url str).

(** [generateNonce]; [random] is the sixteen bytes of
    [crypto.getRandomValues]. *)
Definition generateNonce (random : Buffer) : string :=
  toString_hex random.

Definition is_digit (c : ascii) : bool := ascii_in "0" "9" c.

(** The longest prefix of decimal digits, and what follows it. *)
Fixpoint span_digits (s : string) : string * string :=
  match s with
  | EmptyString => (EmptyString, EmptyString)
  | String c rest =>
      if is_digit c then (String c (fst (span_digits rest)), snd (span_digits rest))
      else (EmptyString, s)
  end.

Definition is_unit (c : ascii) : bool :=
  Ascii.eqb c "s" || Ascii.eqb c "m" || Ascii.eqb c "h" || Ascii.eqb c "d".

(** [expiry.match(/^(\d+)([smhd])$/)]: the two groups of a match. *)
Definition expiry_match (expiry : string) : option (string * ascii) :=
  match span_digits expiry with
  | (String d digits, String unit EmptyString) =>
      if is_unit unit then Some (String d digits, unit) else None
  | _ => None
  end.

(** The integer that a string of decimal digits denotes, read from the left
    ([mathInt] in the language's definition of [parseInt]). *)
Fixpoint mathInt_from (acc : Z) (digits : string) : Z :=
  match digits with
  | EmptyString => acc
  | String c rest => mathInt_from (acc * 10 + Z.of_N (N_of_ascii c - N_of_ascii "0")) rest
  end.

Definition mathInt (digits : string) : Z := mathInt_from 0 digits.

(** [parseInt] of a string of decimal digits: the number value of the integer
    they denote, hence that integer below 2^53, the nearest double from there
    on, and [Infinity] where that double would reach 2^1024. The language lets
    an implementation ignore the digits after the twentieth; Node's engine
    reads them all. *)
Definition parseInt (digits : string) : JSNumber := to_Number (mathInt digits).

(** The table [multipliers]; only its four keys are ever looked up. *)
Definition multipliers (unit : ascii) : Z :=
  if Ascii.eqb unit "s" then 1
  else if Ascii.eqb unit "m" then 60
  else if Ascii.eqb unit "h" then 3600
  else if Ascii.eqb unit "d" then 86400
  else 0.

Definition parseExpiry (expiry : string) : result JSNumber :=
  match expiry_match expiry with
  | None => Err InvalidDurationFormat
  | Some (digits, unit) =>
      let value := parseInt digits in
      Ok (Number_times value (multipliers unit))
  end.

Definition option_default {A : Type} (d : A) (o : option A) : A :=
  match o with Some a => a | None => d end.

(** [JSON] is the platform's: [JSON.stringify], applied to objects and arrays
    only, and [JSON.parse], where [None] stands for its [SyntaxError]. *)
Section Token.

Variable JSON_stringify : JSValue -> string.
Variable JSON_parse : string -> option JSValue.

Definition parse_json (text : string) : result JSValue :=
  match JSON_parse text with
  | Some v => Ok v
  | None => Err SyntaxError
  end.

Variable ed_sign : Buffer -> Buffer -> option Buffer.
Variable ed_verify : Buffer -> Buffer -> Buffer -> option bool.

(** [AATToken.create]; [now_ms] is [Date.now()] and [random] the nonce's
    random bytes. The payload is printed by [JSON.stringify] and used for
    nothing else: its [exp] is held as it is printed. *)
Definition AATToken_create (options : CreateTokenOptions) (now_ms : Z) (random : Buffer)
  : result string :=
  let delegationChain := option_default [] (delegationChain options) in
  let expiresIn := option_default "1h" (expiresIn options) in
  let now := (now_ms / 1000)%Z in
  seconds <- parseExpiry expiresIn ;;
  let exp := Number_plus now seconds in
  let header :=
    JObj [("alg", JStr "EdDSA");
          ("typ", JStr "AAT");
          ("kid", JStr (did (identity options) ++ "#keys-1"))] in
  let payload :=
    JObj [("iss", JStr (did (identity options)));
          ("sub", JStr (delegator options));
          ("aud", JStr (audience options));
          ("iat", JNum now);
          ("exp", Number_value exp);
          ("nonce", JStr (generateNonce random));
          ("scope", JArr (map JStr (scopes options)));
          ("act", JObj [("sub", JStr (did (identity options)))])] in
  let headerB64 := base64urlEncode (JSON_stringify header) in
  let payloadB64 := base64urlEncode (JSON_stringify payload) in
  let delegationB64 := base64urlEncode (JSON_stringify (JArr delegationChain)) in
  let signingInput := (headerB64 ++ "." ++ payloadB64 ++ "." ++ delegationB64)%string in
  signature <- sign ed_sign (identity options) (Buffer_from_utf8 signingInput) ;;
  let signatureB64 := toString_base64url signature in
  Ok (headerB64 ++ "." ++ payloadB64 ++ "." ++ delegationB64 ++ "." ++ signatureB64)%string.

Variable StringToNumber : string -> option Z.
Variable ObjectToString : JSValue -> string.

(** [AATToken.verify]; [now_ms] is [Date.now()]. *)
Definition AATToken_verify (token : string) (options : VerifyOptions) (now_ms : Z)
  : result AATToken :=
  match String_split "." token with
  | [headerB64; payloadB64; delegationB64; signatureB64] =>
      header <- parse_json (base64urlDecode headerB64) ;;
      payload <- parse_json (base64urlDecode payloadB64) ;;
      delegationChain <- parse_json (base64urlDecode delegationB64) ;;
      let signature := Buffer_from_utf8 (base64urlDecode signatureB64) in
      let signingInput := (headerB64 ++ "." ++ payloadB64 ++ "." ++ delegationB64)%string in
      iss <- get payload "iss" ;;
      did <- string_receiver iss ;;
      isValid <- AgentIdentity_verify ed_verify signature (Buffer_from_utf8 signingInput) did ;;
      if negb isValid then Err InvalidSignature else
      let now := (now_ms / 1000)%Z in
      exp <- get payload "exp" ;;
      if js_lt StringToNumber ObjectToString exp (JNum now) then Err TokenExpired else
      audience_ok <-
        match verify_audience options with
        | Some audience =>
            if truthy (JStr audience) then
              aud <- get payload "aud" ;;
              Ok (strict_eq aud (JStr audience))
            else Ok true
        | None => Ok true
        end ;;
      if negb audience_ok then Err AudienceMismatch else
      hasAll <-
        match requiredScopes options with
        | Some required =>
            every (fun s => scope <- get payload "scope" ;; includes scope s) required
        | None => Ok true
        end ;;
      if negb hasAll then Err InsufficientScope else
      Ok {| token_header := header;
            token_payload := payload;
            token_delegationChain := delegationChain;
            token_signature := signature |}
  | _ => Err MalformedToken
  end.

(** [getDelegator], [getAgent], [getScopes], [hasScope] *)
Definition getDelegator (t : AATToken) : result JSValue := get (token_payload t) "sub".
Definition getAgent (t : AATToken) : result JSValue := get (token_payload t) "iss".
Definition getScopes (t : AATToken) : result JSValue := get (token_payload t) "scope".
Definition hasScope (t : AATToken) (scope : string) : result bool :=
  scopes <- get (token_payload t) "scope" ;; includes scopes scope.

End Token.

(** ** Delegation (delegation.ts) *)

Record CreateDelegationOptions : Type := {
  delegatorDID : string;
  delegateDID : string;
  delegation_scopes : list string;
  audiences : option (list string);
  platform : option string;
  agentName : option string;
  constraints : JSValue;   (* a [DelegationConstraints] object, or [JUndefined] *)
  revocation : JSValue
}.

Definition optional_string (o : option string) : JSValue :=
  match o with Some s => JStr s | None => JUndefined end.

Definition optional_strings (o : option (list string)) : JSValue :=
  match o with Some l => JArr (map JStr l) | None => JUndefined end.

(** [createDelegation]; [uuid] is [crypto.randomUUID()] and [created] is
    [new Date().toISOString()]. It reads the properties of its options that
    [CreateDelegationOptions] lists and no other. *)
Definition createDelegation (options : CreateDelegationOptions) (uuid created : string)
  : JSValue :=
  JObj [("type", JStr "DelegationToken");
        ("id", JStr ("urn:uuid:" ++ uuid));
        ("delegator", JObj [("id", JStr (delegatorDID options))]);
        ("delegate", JObj [("id", JStr (delegateDID options));
                           ("platform", optional_string (platform options));
                           ("name", optional_string (agentName options))]);
        ("scope", JObj [("include", JArr (map JStr (delegation_scopes options)));
                        ("audiences", optional_strings (audiences options))]);
        ("constraints",
          if truthy (constraints options) then constraints options else JObj []);
        ("revocation", revocation options);
        ("proof", JObj [("type", JStr "Ed25519Signature2020");
                        ("created", JStr created);
                        ("verificationMethod", JStr (delegatorDID options ++ "#keys-1"));
                        ("proofPurpose", JStr "assertionMethod");
                        ("proofValue", JStr "TODO_IMPLEMENT_SIGNING")])].

(** A [TimeWindow] of the core, as the object its interface describes: the
    optional properties [days], [hours] and [tz]. *)
Record TimeWindow : Type := {
  days : option (list string);    (* ['mon', 'tue', ...] *)
  hours : option string;          (* '09:00-17:00' *)
  tz : option string              (* 'America/New_York' *)
}.

Definition TimeWindow_object (w : TimeWindow) : JSValue :=
  JObj [("days", optional_strings (days w));
        ("hours", optional_string (hours w));
        ("tz", optional_string (tz w))].

(** ** Enforcement (middleware.ts of the React package) *)

Record VerifyAgentOptions : Type := {
  agent_audience : string;
  agent_requiredScopes : list string;
  agent_enforceConstraints : option bool
}.

Record VerifiedAgent : Type := {
  verified_agentDID : JSValue;
  verified_delegatorDID : JSValue;
  verified_scopes : JSValue;
  verified_delegation : JSValue;
  verified_token : AATToken
}.

Section Enforcement.

Variable JSON_parse : string -> option JSValue.
Variable ed_verify : Buffer -> Buffer -> Buffer -> option bool.
Variable StringToNumber : string -> option Z.
Variable ObjectToString : JSValue -> string.

Let less := js_lt StringToNumber ObjectToString.
Let greater := js_gt StringToNumber ObjectToString.
Let less_eq := js_le StringToNumber ObjectToString.
Let greater_eq := js_ge StringToNumber ObjectToString.

(** [enforceConstraints]; [now] is [Date.now()] and [timeString] is
    [new Date().toTimeString()], the server's local time. The constraints
    the code reads without enforcing anything ([maxUses], [maxUsesPerHour],
    [ipAllowlist]) have no effect and are left out. *)
Definition enforceConstraints (delegation : JSValue) (token : AATToken)
    (now : Z) (timeString : string) : result unit :=
  c <- get delegation "constraints" ;;
  let constraints := if truthy c then c else JObj [] in
  expiresAt <- get delegation "expiresAt" ;;
  if truthy expiresAt && less expiresAt (JNum now) then Err DelegationExpired else
  notBefore <- get delegation "notBefore" ;;
  if truthy notBefore && greater notBefore (JNum now) then Err DelegationNotYetValid else
  requireMFA <- get constraints "requireMFA" ;;
  if truthy requireMFA then Err MFARequired else
  allowSubdelegation <- get constraints "allowSubdelegation" ;;
  subdelegated <-
    (if strict_eq allowSubdelegation (JBool false) then
       len <- get (token_delegationChain token) "length" ;;
       Ok (greater len (JNum 1))
     else Ok false) ;;
  if subdelegated then Err SubdelegationNotAllowed else
  timeWindows <- get constraints "timeWindows" ;;
  windowed <-
    (if truthy timeWindows then
       len <- get timeWindows "length" ;;
       Ok (greater len (JNum 0))
     else Ok false) ;;
  if windowed then
    let currentTime := substring 0 5 timeString in
    isInWindow <-
      array_some
        (fun window =>
           start <- get window "start" ;;
           if greater_eq (JStr currentTime) start then
             end_ <- get window "end" ;;
             Ok (less_eq (JStr currentTime) end_)
           else Ok false)
        timeWindows ;;
    if negb isInWindow then Err OutsideTimeWindow else Ok tt
  else Ok tt.

(** [verifyAgent]; [now_ms] is the clock when the token is verified, [now]
    and [timeString] the clock when the constraints are enforced. *)
Definition verifyAgent (token : string) (options : VerifyAgentOptions)
    (now_ms now : Z) (timeString : string) : result VerifiedAgent :=
  verified <-
    AATToken_verify JSON_parse ed_verify StringToNumber ObjectToString token
      {| verify_audience := Some (agent_audience options);
         requiredScopes := Some (agent_requiredScopes options) |} now_ms ;;
  delegation <- get0 (token_delegationChain verified) ;;
  if negb (truthy delegation) then Err NoDelegation else
  _ <-
    match agent_enforceConstraints options with
    | Some false => Ok tt
    | _ => enforceConstraints delegation verified now timeString
    end ;;
  agentDID <- getAgent verified ;;
  delegatorDID <- getDelegator verified ;;
  scopes <- getScopes verified ;;
  Ok {| verified_agentDID := agentDID;
        verified_delegatorDID := delegatorDID;
        verified_scopes := scopes;
        verified_delegation := delegation;
        verified_token := verified |}.

End Enforcement.

(** ** Delegation, continued: [verifyDelegation] (delegation.ts)

    [Date.parse] is the platform's: the time value of a date string in
    milliseconds, [None] standing for NaN, the value of a string that is not
    a date. *)
Section Delegation.

Variable Date_parse : string -> option Z.
Variable ObjectToString : JSValue -> string.

(** [TimeClip]: a time value is within 100 000 000 days of the epoch. *)
Definition TimeClip (t : Z) : option Z :=
  if (Z.abs t <=? 8640000000000000)%Z then Some t else None.

(** The time value of [new Date(v)]: a string is parsed, any other value is
    converted to a number; [None] is the time value of an invalid date. *)
Definition Date_of (v : JSValue) : option Z :=
  match ToPrimitive ObjectToString v with
  | JStr s => Date_parse s
  | JUndefined => None
  | JNull => TimeClip 0
  | JBool b => TimeClip (if b then 1 else 0)
  | JNum n => TimeClip n
  | JArr _ | JObj _ => None
  end.

(** [a < b] for two dates: the comparison of their time values, false when
    one of them is invalid. *)
Definition date_lt (a b : option Z) : bool :=
  match a, b with
  | Some x, Some y => (x <? y)%Z
  | _, _ => false
  end.

(** [verifyDelegation]; [now_expiry] and [now_start] are the clock
    ([new Date()]) where the expiry and where the start is tested. *)
Definition verifyDelegation (delegation : JSValue) (now_expiry now_start : Z) : result bool :=
  constraints <- get delegation "constraints" ;;
  notAfter <- get constraints "notAfter" ;;
  if truthy notAfter && date_lt (Date_of notAfter) (Some now_expiry) then Ok false else
  constraints <- get delegation "constraints" ;;
  notBefore <- get constraints "notBefore" ;;
  if truthy notBefore && date_lt (Some now_start) (Date_of notBefore) then Ok false else
  Ok true.

End Delegation.

(** ** Enforcement, continued: [checkConstraint] and the middleware
    (middleware.ts) *)

(** The constraints that [checkConstraint] takes. *)
Inductive ConstraintName : Type :=
| maxUses
| maxUsesPerHour
| maxValuePerUse.

Definition constraint_key (constraint : ConstraintName) : string :=
  match constraint with
  | maxUses => "maxUses"
  | maxUsesPerHour => "maxUsesPerHour"
  | maxValuePerUse => "maxValuePerUse"
  end.

(** What a middleware does with a request: it answers 401 with the error
    ['Missing or invalid authorization header'], it answers 403 with the
    message of the exception caught, or it passes the request on with the
    verified agent ([req.agent = verified; next()] in [requireAgent],
    [handler(req, res, agent)] in [withAgent]). *)
Inductive Response : Type :=
| Unauthorized
| Forbidden (e : error)
| Granted (agent : VerifiedAgent).

Section Middleware.

Variable JSON_parse : string -> option JSValue.
Variable ed_verify : Buffer -> Buffer -> Buffer -> option bool.
Variable StringToNumber : string -> option Z.
Variable ObjectToString : JSValue -> string.

(** [checkConstraint]; [currentValue] is [JUndefined] when it is left out. *)
Definition checkConstraint (delegation : JSValue) (constraint : ConstraintName)
    (currentValue : JSValue) : result bool :=
  c <- get delegation "constraints" ;;
  let constraints := if truthy c then c else JObj [] in
  limit <- get constraints (constraint_key constraint) ;;
  if strict_eq limit JUndefined then Ok true
  else if strict_eq currentValue JUndefined then Ok true
  else Ok (js_le StringToNumber ObjectToString currentValue limit).

(** [requireAgent(options)], the middleware it returns, on a request [req];
    the clocks are those of [verifyAgent]. [authHeader.slice(7)] is the
    header without its first seven characters, which [startsWith] has found
    to be ['Bearer ']. *)
Definition requireAgent (options : VerifyAgentOptions) (req : JSValue)
    (now_ms now : Z) (timeString : string) : Response :=
  let attempt : result (option VerifiedAgent) :=
    headers <- get req "headers" ;;
    authHeader <- get headers "authorization" ;;
    if negb (truthy authHeader) then Ok None else
    header <- string_receiver authHeader ;;
    if negb (String.prefix "Bearer " header) then Ok None else
    let token := substring 7 (String.length header - 7) header in
    verified <-
      verifyAgent JSON_parse ed_verify StringToNumber ObjectToString token options
        now_ms now timeString ;;
    Ok (Some verified) in
  match attempt with
  | Ok None => Unauthorized
  | Ok (Some verified) => Granted verified
  | Err e => Forbidden e
  end.

(** [withAgent(handler, options)], the route it returns, on a request. *)
Definition withAgent (options : VerifyAgentOptions) (req : JSValue)
    (now_ms now : Z) (timeString : string) : Response :=
  let attempt : result (option VerifiedAgent) :=
    headers <- get req "headers" ;;
    authHeader <- get headers "authorization" ;;
    if negb (truthy authHeader) then Ok None else
    header <- string_receiver authHeader ;;
    if negb (String.prefix "Bearer " header) then Ok None else
    let token := substring 7 (String.length header - 7) header in
    agent <-
      verifyAgent JSON_parse ed_verify StringToNumber ObjectToString token options
        now_ms now timeString ;;
    Ok (Some agent) in
  match attempt with
  | Ok None => Unauthorized
  | Ok (Some agent) => Granted agent
  | Err e => Forbidden e
  end.

End Middleware.

(** ** The approval dialog (DelegationRequestModal.tsx) *)

Inductive DelegationPreset : Type :=
| per_action          (* 'per-action' *)
| one_hour            (* '1-hour' *)
| twenty_four_hours   (* '24-hours' *)
| seven_days          (* '7-days' *)
| thirty_days         (* '30-days' *)
| permanent           (* 'permanent' *)
| custom.             (* 'custom' *)

Record PresetConfig : Type := {
  preset_duration : option Z;                           (* milliseconds *)
  preset_constraints : list (string * JSValue);
  label : string
}.

Definition PRESET_CONFIG (preset : DelegationPreset) : PresetConfig :=
  match preset with
  | per_action =>
      {| preset_duration := Some (5 * 60 * 1000)%Z;
         preset_constraints := [("maxUses", JNum 1)];
         label := "Single Action (approve each time)" |}
  | one_hour =>
      {| preset_duration := Some (60 * 60 * 1000)%Z;
         preset_constraints := [("maxUsesPerHour", JNum 100)];
         label := "1 Hour" |}
  | twenty_four_hours =>
      {| preset_duration := Some (24 * 60 * 60 * 1000)%Z;
         preset_constraints := [("maxUsesPerHour", JNum 50)];
         label := "24 Hours" |}
  | seven_days =>
      {| preset_duration := Some (7 * 24 * 60 * 60 * 1000)%Z;
         preset_constraints := [("maxUses", JNum 500); ("maxUsesPerHour", JNum 20)];
         label := "7 Days" |}
  | thirty_days =>
      {| preset_duration := Some (30 * 24 * 60 * 60 * 1000)%Z;
         preset_constraints := [("maxUses", JNum 2000); ("maxUsesPerHour", JNum 20)];
         label := "30 Days" |}
  | permanent =>
      {| preset_duration := None;
         preset_constraints := [("maxUsesPerHour", JNum 10)];
         label := "Permanent (with rate limit)" |}
  | custom =>
      {| preset_duration := None;
         preset_constraints := [];
         label := "Custom" |}
  end.

(** Writing a property of an object: in place when the object has it, after
    the others when it has not. *)
Fixpoint set_property (key : string) (v : JSValue) (fields : list (string * JSValue))
  : list (string * JSValue) :=
  match fields with
  | [] => [(key, v)]
  | (k, w) :: rest =>
      if String.eqb key k then (k, v) :: rest else (k, w) :: set_property key v rest
  end.

(** [{ ...a, ...b }] *)
Definition spread (a b : list (string * JSValue)) : list (string * JSValue) :=
  fold_left (fun object property => set_property (fst property) (snd property) object) b a.

Record DelegationRequestProps : Type := {
  props_agentDID : string;
  props_scopes : list string;
  props_preset : option DelegationPreset;
  props_customConstraints : option (list (string * JSValue));
  props_delegatorDID : string;
  props_signerCallback : option (JSValue -> result JSValue)
}.

(** The state of the dialog: the preset selected and the constraints
    shown. *)
Record DialogState : Type := {
  selectedPreset : DelegationPreset;
  dialog_constraints : list (string * JSValue)
}.

Definition initial_dialog (props : DelegationRequestProps) : DialogState :=
  let preset := option_default twenty_four_hours (props_preset props) in
  {| selectedPreset := preset;
     dialog_constraints :=
       match props_customConstraints props with
       | Some customConstraints => customConstraints
       | None => preset_constraints (PRESET_CONFIG preset)
       end |}.

(** The [onChange] of the duration selector. *)
Definition select_preset (newPreset : DelegationPreset) (state : DialogState) : DialogState :=
  {| selectedPreset := newPreset;
     dialog_constraints := preset_constraints (PRESET_CONFIG newPreset) |}.

(** [handleApprove]: the delegation that [onApprove] receives, [None] when
    the signer has thrown and [onApprove] is not called. [now] is
    [Date.now()]. The [expiresAt] computed from the preset's duration is
    passed to [createDelegation] among its options, which does not read
    it. *)
Definition handleApprove (props : DelegationRequestProps) (state : DialogState)
    (now : Z) (uuid created : string) : option JSValue :=
  let config := PRESET_CONFIG (selectedPreset state) in
  let expiresAt :=
    match preset_duration config with
    | Some d => JNum (now + d)
    | None => JUndefined
    end in
  let delegation :=
    createDelegation
      {| delegatorDID := props_delegatorDID props;
         delegateDID := props_agentDID props;
         delegation_scopes := props_scopes props;
         audiences := None;
         platform := None;
         agentName := None;
         constraints := JObj (spread (preset_constraints config) (dialog_constraints state));
         revocation := JUndefined |}
      uuid created in
  match props_signerCallback props with
  | Some signerCallback =>
      match signerCallback delegation with
      | Ok signed => Some signed
      | Err _ => None
      end
  | None => Some delegation
  end.

(** ** The hook [useAgentAuth] (useAgentAuth.ts) *)

Record AgentAuthRequest : Type := {
  request_agentDID : string;
  request_scopes : list string;
  request_preset : option DelegationPreset;
  request_customConstraints : option (list (string * JSValue))
}.

(** The three pieces of state of the hook. Its callbacks are modelled by
    their effect on the state; [onDelegationCreated], which
    [approveDelegation] calls when it is given, is the caller's. *)
Record AgentAuthState : Type := {
  isRequestPending : bool;
  currentRequest : option AgentAuthRequest;      (* [None] is [null] *)
  activeDelegations : list JSValue
}.

Definition initial_auth : AgentAuthState :=
  {| isRequestPending := false; currentRequest := None; activeDelegations := [] |}.

Definition requestDelegation (request : AgentAuthRequest) (state : AgentAuthState)
  : AgentAuthState :=
  {| isRequestPending := true;
     currentRequest := Some request;
     activeDelegations := activeDelegations state |}.

Definition approveDelegation (delegation : JSValue) (state : AgentAuthState)
  : AgentAuthState :=
  {| isRequestPending := false;
     currentRequest := None;
     activeDelegations := activeDelegations state ++ [delegation] |}.

Definition denyDelegation (state : AgentAuthState) : AgentAuthState :=
  {| isRequestPending := false;
     currentRequest := None;
     activeDelegations := activeDelegations state |}.

(** [prev.filter(d => d.id !== delegationId)] *)
Fixpoint filter_other_ids (delegationId : string) (prev : list JSValue)
  : result (list JSValue) :=
  match prev with
  | [] => Ok []
  | d :: rest =>
      id <- get d "id" ;;
      kept <- filter_other_ids delegationId rest ;;
      Ok (if negb (strict_eq id (JStr delegationId)) then d :: kept else kept)
  end.

Definition revokeDelegation (delegationId : string) (state : AgentAuthState)
  : result AgentAuthState :=
  kept <- filter_other_ids delegationId (activeDelegations state) ;;
  Ok {| isRequestPending := isRequestPending state;
        currentRequest := currentRequest state;
        activeDelegations := kept |}.

(** ** A sample platform

    One instance of the platform services, on which the assumptions made of
    them below are seen to hold together and the operations can be run: a
    stand-in for the signature scheme with Ed25519's interface and sizes
    (32-byte keys, 64-byte signatures; it authenticates nothing), and a
    printer and reader for the JSON texts the tokens carry (no white space,
    integers only, the escapes of the ASCII range). *)
Module Sample.

Definition getPublicKey (sk : Buffer) : option Buffer :=
  if (List.length sk =? 32)%nat then Some (rev sk) else None.

Definition checksum (message : Buffer) : N :=
  (fold_left (fun acc b => acc + Byte.to_N b) message 0 mod 128)%N.

Definition tag (message pk : Buffer) : Buffer :=
  pk ++ repeat (byte_of_N (checksum message)) 32.

Definition sign (message sk : Buffer) : option Buffer :=
  match getPublicKey sk with
  | Some pk => Some (tag message pk)
  | None => None
  end.

Fixpoint Buffer_eqb (a b : Buffer) : bool :=
  match a, b with
  | [], [] => true
  | x :: a', y :: b' => Byte.eqb x y && Buffer_eqb a' b'
  | _, _ => false
  end.

Definition verify (signature message pk : Buffer) : option bool :=
  if (List.length signature =? 64)%nat && (List.length pk =? 32)%nat
  then Some (Buffer_eqb signature (tag message pk))
  else None.

(** The printer *)

Fixpoint digits_of (fuel : nat) (n : N) (acc : string) : string :=
  match fuel with
  | O => acc
  | S fuel =>
      let acc := String (ascii_of_N (N_of_ascii "0" + n mod 10)) acc in
      if (n <? 10)%N then acc else digits_of fuel (n / 10) acc
  end.

Definition decimal (z : Z) : string :=
  let n := Z.to_N (Z.abs z) in
  let d := digits_of (S (N.to_nat (N.log2 n))) n EmptyString in
  if (z <? 0)%Z then String "-" d else d.

Definition double_quote : ascii := ascii_of_N 34.

Definition escape (c : ascii) (rest : string) : string :=
  let n := N_of_ascii c in
  if Ascii.eqb c double_quote then String "\" (String double_quote rest)
  else if Ascii.eqb c "\" then String "\" (String "\" rest)
  else if (n =? 8)%N then String "\" (String "b" rest)
  else if (n =? 9)%N then String "\" (String "t" rest)
  else if (n =? 10)%N then String "\" (String "n" rest)
  else if (n =? 12)%N then String "\" (String "f" rest)
  else if (n =? 13)%N then String "\" (String "r" rest)
  else if (n <? 32)%N then
    String "\" (String "u" (String "0" (String "0"
      (String (hex_digit (n / 16)) (String (hex_digit (n mod 16)) rest)))))
  else String c rest.

Fixpoint quote_chars (s : string) : string :=
  match s with
  | EmptyString => String double_quote EmptyString
  | String c rest => escape c (quote_chars rest)
  end.

Definition quote (s : string) : string := String double_quote (quote_chars s).

Fixpoint stringify (v : JSValue) : string :=
  match v with
  | JUndefined => EmptyString
  | JNull => "null"
  | JBool true => "true"
  | JBool false => "false"
  | JNum n => decimal n
  | JStr s => quote s
  | JArr items =>
      let element x :=
        match x with JUndefined => "null" | _ => stringify x end in
      ("[" ++ (fix elements (l : list JSValue) : string :=
                 match l with
                 | [] => EmptyString
                 | [x] => element x
                 | x :: rest => element x ++ "," ++ elements rest
                 end) items ++ "]")%string
  | JObj fields =>
      ("{" ++ (fix members (first : bool) (l : list (string * JSValue)) : string :=
                 match l with
                 | [] => EmptyString
                 | (_, JUndefined) :: rest => members first rest
                 | (k, x) :: rest =>
                     (if first then EmptyString else ",") ++ quote k ++ ":" ++ stringify x
                       ++ members false rest
                 end) true fields ++ "}")%string
  end.

(** The reader *)

Definition unescape (c : ascii) : option ascii :=
  if Ascii.eqb c double_quote then Some double_quote
  else if Ascii.eqb c "\" then Some "\"%char
  else if Ascii.eqb c "/" then Some "/"%char
  else if Ascii.eqb c "b" then Some (ascii_of_N 8)
  else if Ascii.eqb c "t" then Some (ascii_of_N 9)
  else if Ascii.eqb c "n" then Some (ascii_of_N 10)
  else if Ascii.eqb c "f" then Some (ascii_of_N 12)
  else if Ascii.eqb c "r" then Some (ascii_of_N 13)
  else None.

Definition cons_char (c : ascii) (r : option (string * string)) : option (string * string) :=
  match r with
  | Some (s, rest) => Some (String c s, rest)
  | None => None
  end.

(** The characters of a string literal after its opening quote, and what
    follows its closing quote. *)
Fixpoint read_chars (s : string) : option (string * string) :=
  match s with
  | EmptyString => None
  | String c rest =>
      if Ascii.eqb c double_quote then Some (EmptyString, rest)
      else if Ascii.eqb c "\" then
        match rest with
        | String e rest1 =>
            match unescape e with
            | Some c' => cons_char c' (read_chars rest1)
            | None =>
                match rest1 with
                | String h1 (String h2 (String h3 (String h4 rest2))) =>
                    match Ascii.eqb e "u", unhex h1, unhex h2, unhex h3, unhex h4 with
                    | true, Some 0%N, Some 0%N, Some a, Some b =>
                        if (a <? 8)%N then cons_char (ascii_of_N (a * 16 + b)) (read_chars rest2)
                        else None
                    | _, _, _, _, _ => None
                    end
                | _ => None
                end
            end
        | EmptyString => None
        end
      else if (N_of_ascii c <? 32)%N then None
      else cons_char c (read_chars rest)
  end.

Definition read_number (s : string) : option (JSValue * string) :=
  match span_digits s with
  | (EmptyString, _) => None
  | (String "0" (String _ _), _) => None
  | (digits, rest) => Some (JNum (mathInt digits), rest)
  end.

Fixpoint read_value (fuel : nat) (s : string) : option (JSValue * string) :=
  match fuel with
  | O => None
  | S fuel =>
      match s with
      | String "n" (String "u" (String "l" (String "l" rest))) => Some (JNull, rest)
      | String "t" (String "r" (String "u" (String "e" rest))) => Some (JBool true, rest)
      | String "f" (String "a" (String "l" (String "s" (String "e" rest)))) =>
          Some (JBool false, rest)
      | String "[" (String "]" rest) => Some (JArr [], rest)
      | String "[" rest =>
          match read_elements fuel rest with
          | Some (items, rest1) => Some (JArr items, rest1)
          | None => None
          end
      | String "{" (String "}" rest) => Some (JObj [], rest)
      | String "{" rest =>
          match read_members fuel rest with
          | Some (fields, rest1) => Some (JObj fields, rest1)
          | None => None
          end
      | String "-" rest =>
          match read_number rest with
          | Some (JNum n, rest1) => Some (JNum (- n), rest1)
          | _ => None
          end
      | String c rest =>
          if Ascii.eqb c double_quote then
            match read_chars rest with
            | Some (str, rest1) => Some (JStr str, rest1)
            | None => None
            end
          else read_number s
      | EmptyString => None
      end
  end
with read_elements (fuel : nat) (s : string) : option (list JSValue * string) :=
  match fuel with
  | O => None
  | S fuel =>
      match read_value fuel s with
      | Some (x, String "]" rest) => Some ([x], rest)
      | Some (x, String "," rest) =>
          match read_elements fuel rest with
          | Some (items, rest1) => Some (x :: items, rest1)
          | None => None
          end
      | _ => None
      end
  end
with read_members (fuel : nat) (s : string) : option (list (string * JSValue) * string) :=
  match fuel with
  | O => None
  | S fuel =>
      match s with
      | String c rest =>
          if Ascii.eqb c double_quote then
            match read_chars rest with
            | Some (k, String ":" rest1) =>
                match read_value fuel rest1 with
                | Some (x, String "}" rest2) => Some ([(k, x)], rest2)
                | Some (x, String "," rest2) =>
                    match read_members fuel rest2 with
                    | Some (fields, rest3) => Some ((k, x) :: fields, rest3)
                    | None => None
                    end
                | _ => None
                end
            | _ => None
            end
          else None
      | EmptyString => None
      end
  end.

Definition parse (text : string) : option JSValue :=
  match read_value (S (String.length text)) text with
  | Some (v, EmptyString) => Some v
  | _ => None
  end.

(** The coercions: of the numeric strings the sample knows the strings of
    decimal digits; an array converts to its elements joined by commas, an
    object to ['[object Object]']. *)
Definition StringToNumber (s : string) : option Z :=
  match span_digits s with
  | (String d digits, EmptyString) => Some (mathInt (String d digits))
  | _ => None
  end.

Fixpoint ObjectToString (v : JSValue) : string :=
  match v with
  | JUndefined | JNull => EmptyString
  | JBool true => "true"
  | JBool false => "false"
  | JNum n => decimal n
  | JStr s => s
  | JArr items =>
      (fix join (l : list JSValue) : string :=
         match l with
         | [] => EmptyString
         | [x] => ObjectToString x
         | x :: rest => (ObjectToString x ++ "," ++ join rest)%string
         end) items
  | JObj _ => "[object Object]"
  end.

End Sample.

(** The sample's [Date.parse]: of the date strings it knows those that
    [toISOString] writes, ['YYYY-MM-DDTHH:mm:ss.sssZ']. *)
Module SampleDate.

Definition number (digits : list ascii) : option Z :=
  if forallb is_digit digits then Some (mathInt (string_of_chars digits)) else None.

Definition leap (y : Z) : bool :=
  ((y mod 4 =? 0) && negb (y mod 100 =? 0) || (y mod 400 =? 0))%Z.

Definition days_in_month (y m : Z) : Z :=
  if (m =? 2)%Z then (if leap y then 29 else 28)
  else if ((m =? 4) || (m =? 6) || (m =? 9) || (m =? 11))%Z then 30
  else 31.

(** Days from 1 January 1970 to a day of the Gregorian calendar. *)
Definition days_from_civil (y m d : Z) : Z :=
  let y' := if (m <=? 2)%Z then (y - 1)%Z else y in
  let era := (y' / 400)%Z in
  let yoe := (y' - era * 400)%Z in
  let doy := ((153 * (if (m <=? 2)%Z then m + 9 else m - 3) + 2) / 5 + d - 1)%Z in
  let doe := (yoe * 365 + yoe / 4 - yoe / 100 + doy)%Z in
  (era * 146097 + doe - 719468)%Z.

Definition parse (s : string) : option Z :=
  match list_ascii_of_string s with
  | [y1; y2; y3; y4; d1; m1; m2; d2; a1; a2; t; h1; h2; c1; n1; n2; c2; s1; s2; p; f1; f2; f3; z] =>
      if Ascii.eqb d1 "-" && Ascii.eqb d2 "-" && Ascii.eqb t "T" && Ascii.eqb c1 ":"
         && Ascii.eqb c2 ":" && Ascii.eqb p "." && Ascii.eqb z "Z"
      then
        match number [y1; y2; y3; y4], number [m1; m2], number [a1; a2],
              number [h1; h2], number [n1; n2], number [s1; s2], number [f1; f2; f3] with
        | Some y, Some m, Some d, Some h, Some n, Some sec, Some ms =>
            if ((1 <=? m) && (m <=? 12) && (1 <=? d) && (d <=? days_in_month y m)
                && (h <=? 23) && (n <=? 59) && (sec <=? 59))%Z
            then Some ((((days_from_civil y m d * 24 + h) * 60 + n) * 60 + sec) * 1000 + ms)%Z
            else None
        | _, _, _, _, _, _, _ => None
        end
      else None
  | _ => None
  end.

End SampleDate.

(** * Vocabulary of the properties

    What the statements below are written with: the shapes the specification
    names, what is assumed of the platform, and sample data. *)

(** ** Characters *)

Fixpoint occurs (c : ascii) (s : string) : bool :=
  match s with
  | EmptyString => false
  | String x rest => Ascii.eqb x c || occurs c rest
  end.

(** A character that the base64 decoder does not read. *)
Definition outside_base64 (c : ascii) : Prop :=
  unbase64 c = None.

(** A byte that occurs in no well-formed UTF-8 text. *)
Definition never_in_utf8 (b : byte) : bool :=
  let n := Byte.to_N b in
  ((n =? 0xc0) || (n =? 0xc1) || (0xf5 <=? n))%N.

(** The bytes a decoder state holds back, and the states the decoder
    reaches. *)
Definition pending (st : utf8_state) : nat :=
  match st with
  | Boundary => 0
  | Within seen _ _ _ => List.length seen
  end.

Definition reachable (st : utf8_state) : Prop :=
  match st with
  | Boundary => True
  | Within seen needed lower upper =>
      (1 <= needed)%nat /\ (List.length seen + needed <= 4)%nat
      /\ (0x80 <= lower)%N /\ (upper <= 0xbf)%N
  end.

(** ** Keys *)

(** A string decodes as hexadecimal when it is made of pairs of hexadecimal
    digits. *)
Definition is_hex_digit (c : ascii) : bool :=
  match unhex c with Some _ => true | None => false end.

Fixpoint well_formed_hex (s : string) : bool :=
  match s with
  | EmptyString => true
  | String c1 (String c2 rest) => is_hex_digit c1 && is_hex_digit c2 && well_formed_hex rest
  | String _ EmptyString => false
  end.

(** The library derives a public key from every 32-byte private key and
    throws on any other length. *)
Definition accepts_32_bytes (ed_getPublicKey : Buffer -> option Buffer) : Prop :=
  forall sk, ed_getPublicKey sk <> None <-> List.length sk = 32%nat.

(** The library accepts no signature that is not 64 bytes long: it throws on
    one, or answers false. *)
Definition only_64_byte_signatures (ed_verify : Buffer -> Buffer -> Buffer -> option bool) : Prop :=
  forall signature message pk,
    List.length signature <> 64%nat -> ed_verify signature message pk <> Some true.

(** ** Durations

    The shape [<integer><unit>] in the specification's words: a non-empty run
    of decimal digits, then one unit letter, worth the number the digits
    denote times the unit's seconds, both taken as JavaScript has them. *)

Fixpoint all_digits (s : string) : bool :=
  match s with
  | EmptyString => true
  | String c rest => is_digit c && all_digits rest
  end.

Definition digit_value (c : ascii) : Z :=
  Z.of_N (N_of_ascii c - N_of_ascii "0").

Fixpoint decimal_value (s : string) : Z :=
  match s with
  | EmptyString => 0
  | String c rest => digit_value c * 10 ^ Z.of_nat (String.length rest) + decimal_value rest
  end%Z.

Inductive unit_seconds : ascii -> Z -> Prop :=
| seconds_s : unit_seconds "s" 1
| seconds_m : unit_seconds "m" 60
| seconds_h : unit_seconds "h" 3600
| seconds_d : unit_seconds "d" 86400.

Definition duration (s : string) (v : JSNumber) : Prop :=
  exists digits unit m,
    s = (digits ++ String unit EmptyString)%string
    /\ digits <> EmptyString
    /\ all_digits digits = true
    /\ unit_seconds unit m
    /\ v = Number_times (to_Number (decimal_value digits)) m.

(** ** Tokens *)

Section TokenVocabulary.

Variable JSON_stringify : JSValue -> string.
Variable JSON_parse : string -> option JSValue.
Variable ed_verify : Buffer -> Buffer -> Buffer -> option bool.
Variable StringToNumber : string -> option Z.
Variable ObjectToString : JSValue -> string.

(** The header, the payload and the delegation chain that [AATToken.create]
    encodes, [seconds] being the parsed [expiresIn]; the payload as
    [JSON.stringify] prints it, with [null] for an infinite [exp]. *)
Definition created_header (options : CreateTokenOptions) : JSValue :=
  JObj [("alg", JStr "EdDSA");
        ("typ", JStr "AAT");
        ("kid", JStr (did (identity options) ++ "#keys-1"))].

Definition created_payload (options : CreateTokenOptions) (now_ms : Z) (seconds : JSNumber)
    (random : Buffer) : JSValue :=
  JObj [("iss", JStr (did (identity options)));
        ("sub", JStr (delegator options));
        ("aud", JStr (audience options));
        ("iat", JNum (now_ms / 1000));
        ("exp", Number_value (Number_plus (now_ms / 1000) seconds));
        ("nonce", JStr (generateNonce random));
        ("scope", JArr (map JStr (scopes options)));
        ("act", JObj [("sub", JStr (did (identity options)))])].

Definition created_chain (options : CreateTokenOptions) : JSValue :=
  JArr (option_default [] (delegationChain options)).

(** The signing input that [AATToken.create] computes: the three encoded
    segments, joined by dots. *)
Definition signingInput_of (options : CreateTokenOptions) (now_ms : Z) (random : Buffer)
  : result string :=
  seconds <- parseExpiry (option_default "1h" (expiresIn options)) ;;
  Ok (base64urlEncode (JSON_stringify (created_header options)) ++ "."
      ++ base64urlEncode (JSON_stringify (created_payload options now_ms seconds random)) ++ "."
      ++ base64urlEncode (JSON_stringify (created_chain options)))%string.

(** The JSON text of a value survives the encoding of a segment and is read
    back as the value. *)
Definition reads_back (v : JSValue) : Prop :=
  JSON_parse (base64urlDecode (base64urlEncode (JSON_stringify v))) = Some v.

(** The token splits into four segments, its three JSON segments parse, the
    second as [payload] with a string for [iss], and the signature check
    made with the fourth has the outcome [check]. *)
Definition decodes (token : string) (payload : JSValue) (check : result bool) : Prop :=
  exists h p d s header chain did,
    String_split "." token = [h; p; d; s]
    /\ JSON_parse (base64urlDecode h) = Some header
    /\ JSON_parse (base64urlDecode p) = Some payload
    /\ JSON_parse (base64urlDecode d) = Some chain
    /\ get payload "iss" = Ok (JStr did)
    /\ AgentIdentity_verify ed_verify
         (Buffer_from_utf8 (base64urlDecode s))
         (Buffer_from_utf8 (h ++ "." ++ p ++ "." ++ d)) did = check.

(** The checks that follow the signature check, on the decoded payload. *)
Definition claim_checks (payload : JSValue) (options : VerifyOptions) (now_ms : Z)
  : result unit :=
  exp <- get payload "exp" ;;
  if js_lt StringToNumber ObjectToString exp (JNum (now_ms / 1000)) then Err TokenExpired else
  audience_ok <-
    match verify_audience options with
    | Some audience =>
        if truthy (JStr audience) then
          aud <- get payload "aud" ;;
          Ok (strict_eq aud (JStr audience))
        else Ok true
    | None => Ok true
    end ;;
  if negb audience_ok then Err AudienceMismatch else
  hasAll <-
    match requiredScopes options with
    | Some required =>
        every (fun s => scope <- get payload "scope" ;; includes scope s) required
    | None => Ok true
    end ;;
  if negb hasAll then Err InsufficientScope else Ok tt.

End TokenVocabulary.

(** ** Time windows *)

(** A delegation of [createDelegation] whose only constraint is a list of
    time windows. *)
Definition windowed_delegation (options : CreateDelegationOptions) (windows : list JSValue)
    (uuid created : string) : JSValue :=
  createDelegation
    {| delegatorDID := delegatorDID options;
       delegateDID := delegateDID options;
       delegation_scopes := delegation_scopes options;
       audiences := audiences options;
       platform := platform options;
       agentName := agentName options;
       constraints := JObj [("timeWindows", JArr windows)];
       revocation := revocation options |}
    uuid created.

(** A window as the enforcement layer reads it, and as the React package
    declares it: the properties [start] and [end], times of day ['HH:MM']. *)
Definition range_object (range : string * string) : JSValue :=
  JObj [("start", JStr (fst range)); ("end", JStr (snd range))].

Definition in_range (time : string) (range : string * string) : bool :=
  String.leb (fst range) time && String.leb time (snd range).

(** A window of any properties, of which [start] and [end] are the two
    strings of [range]. *)
Definition window_range (window : JSValue) (range : string * string) : Prop :=
  exists fields,
    window = JObj fields
    /\ lookup "start" fields = JStr (fst range)
    /\ lookup "end" fields = JStr (snd range).

(** A window that declares the days, the hours and the time zone of the
    core's interface beside a [start] and an [end]. *)
Definition declared_window (w : TimeWindow) (range : string * string) : JSValue :=
  JObj [("days", optional_strings (days w));
        ("hours", optional_string (hours w));
        ("tz", optional_string (tz w));
        ("start", JStr (fst range));
        ("end", JStr (snd range))].

(** The specification's reading of a window of the core: the moment, taken
    in the window's time zone, falls on one of its days and within its
    hours. *)
Record LocalMoment : Type := {
  weekday : string;   (* 'mon', 'tue', ... *)
  time_of_day : string      (* 'HH:MM' *)
}.

Definition hours_contain (range time : string) : bool :=
  match String_split "-" range with
  | [from; to] => String.leb from time && String.leb time to
  | _ => false
  end.

Definition within_window (w : TimeWindow) (m : LocalMoment) : bool :=
  match days w with
  | Some ds => existsb (String.eqb (weekday m)) ds
  | None => true
  end
  && match hours w with
     | Some range => hours_contain range (time_of_day m)
     | None => true
     end.

(** ** Text *)

(** The parts of a split, put together again with the separator between
    them. *)
Fixpoint join (sep : ascii) (parts : list string) : string :=
  match parts with
  | [] => EmptyString
  | [part] => part
  | part :: rest => part ++ String sep (join sep rest)
  end.

(** How often a character occurs in a string. *)
Fixpoint count_char (c : ascii) (s : string) : nat :=
  match s with
  | EmptyString => 0
  | String x rest => (if Ascii.eqb x c then 1 else 0) + count_char c rest
  end.

(** Well-formed UTF-8, as the Unicode Standard tabulates it (table 3-7): the
    byte sequences that encode the code points U+0000..U+10FFFF without the
    surrogates, each in its shortest form. These are the encodings of the
    JavaScript strings that hold no lone surrogate. *)
Fixpoint well_formed_utf8 (bs : Buffer) : bool :=
  match bs with
  | [] => true
  | b1 :: rest1 =>
      let n1 := Byte.to_N b1 in
      if N_in 0x00 0x7f n1 then well_formed_utf8 rest1
      else
        match rest1 with
        | [] => false
        | b2 :: rest2 =>
            let n2 := Byte.to_N b2 in
            if N_in 0xc2 0xdf n1 then N_in 0x80 0xbf n2 && well_formed_utf8 rest2
            else
              match rest2 with
              | [] => false
              | b3 :: rest3 =>
                  let n3 := Byte.to_N b3 in
                  if N_in 0xe0 0xef n1 then
                    N_in (if n1 =? 0xe0 then 0xa0 else 0x80) (if n1 =? 0xed then 0x9f else 0xbf) n2
                    && N_in 0x80 0xbf n3 && well_formed_utf8 rest3
                  else
                    match rest3 with
                    | [] => false
                    | b4 :: rest4 =>
                        let n4 := Byte.to_N b4 in
                        N_in 0xf0 0xf4 n1
                        && N_in (if n1 =? 0xf0 then 0x90 else 0x80)
                             (if n1 =? 0xf4 then 0x8f else 0xbf) n2
                        && N_in 0x80 0xbf n3 && N_in 0x80 0xbf n4 && well_formed_utf8 rest4
                    end
              end
        end
  end%N.

(** A character of the URL-safe base64 alphabet. *)
Definition is_base64url_char (c : ascii) : bool :=
  ascii_in "A" "Z" c || ascii_in "a" "z" c || ascii_in "0" "9" c
  || Ascii.eqb c "-" || Ascii.eqb c "_".

Fixpoint all_chars (p : ascii -> bool) (s : string) : bool :=
  match s with
  | EmptyString => true
  | String c rest => p c && all_chars p rest
  end.

(** A lower-case hexadecimal digit. *)
Definition is_lower_hex (c : ascii) : bool :=
  ascii_in "0" "9" c || ascii_in "a" "f" c.

(** An identity that one of the two constructors has returned. *)
Definition constructed (ed_getPublicKey : Buffer -> option Buffer) (x : AgentIdentity) : Prop :=
  (exists seed metadata, AgentIdentity_create ed_getPublicKey seed metadata = Ok x)
  \/ (exists privateKeyHex metadata, fromPrivateKey ed_getPublicKey privateKeyHex metadata = Ok x).

(** The library verifies, under the public key of a private key, the
    signatures it makes with that private key. *)
Definition signatures_verify (ed_getPublicKey : Buffer -> option Buffer)
    (ed_sign : Buffer -> Buffer -> option Buffer)
    (ed_verify : Buffer -> Buffer -> Buffer -> option bool) : Prop :=
  forall sk pk message signature,
    ed_getPublicKey sk = Some pk ->
    ed_sign message sk = Some signature ->
    ed_verify signature message pk = Some true.

(** ** Dates *)

(** The time that a bound of a delegation denotes: none when the bound is
    left out or empty, none when it is not a date. *)
Definition bound_time (Date_parse : string -> option Z) (bound : option string) : option Z :=
  match bound with
  | Some s => if String.eqb s EmptyString then None else Date_parse s
  | None => None
  end.

(** ** Requests *)

(** A request with the given [Authorization] header, [JUndefined] for
    none. *)
Definition request_with (authorization : JSValue) : JSValue :=
  JObj [("headers", JObj [("authorization", authorization)])].

(** ** Objects *)

Definition has_key (key : string) (fields : list (string * JSValue)) : bool :=
  existsb (fun property => String.eqb key (fst property)) fields.

(** ** The hook's callbacks, as the user interface calls them *)

Inductive AuthAction : Type :=
| Request (request : AgentAuthRequest)
| Approve (delegation : JSValue)
| Deny
| Revoke (delegationId : string).

Definition auth_step (action : AuthAction) (state : AgentAuthState) : result AgentAuthState :=
  match action with
  | Request request => Ok (requestDelegation request state)
  | Approve delegation => Ok (approveDelegation delegation state)
  | Deny => Ok (denyDelegation state)
  | Revoke delegationId => revokeDelegation delegationId state
  end.

Fixpoint auth_run (actions : list AuthAction) (state : AgentAuthState) : result AgentAuthState :=
  match actions with
  | [] => Ok state
  | action :: rest => next <- auth_step action state ;; auth_run rest next
  end.

(** ** Sample data *)

Definition sample_verify : string -> VerifyOptions -> Z -> result AATToken :=
  AATToken_verify Sample.parse Sample.verify Sample.StringToNumber Sample.ObjectToString.

Definition sample_decodes : string -> JSValue -> result bool -> Prop :=
  decodes Sample.parse Sample.verify.

Definition sample_enforce : JSValue -> AATToken -> Z -> string -> result unit :=
  enforceConstraints Sample.StringToNumber Sample.ObjectToString.

(** A sample private key, in hexadecimal, and its identity. *)
Definition sample_key_hex : string :=
  "0102030405060708090a0b0c0d0e0f101112131415161718191a1b1c1d1e1f20".

Definition sample_identity : AgentIdentity :=
  let sk := Buffer_from_hex sample_key_hex in
  {| privateKey := sk;
     publicKey := rev sk;
     did := publicKeyToDID (rev sk);
     metadata := JObj [("name", JStr "TestAgent")] |}.

(** An identity whose key bytes lie outside ASCII, and with them its stand-in
    signatures. *)
Definition high_identity : AgentIdentity :=
  {| privateKey := repeat xff 32;
     publicKey := repeat xff 32;
     did := publicKeyToDID (repeat xff 32);
     metadata := JUndefined |}.

Definition no_options : VerifyOptions :=
  {| verify_audience := None; requiredScopes := None |}.

Definition sample_options (x : AgentIdentity) : CreateTokenOptions :=
  {| identity := x;
     delegator := "did:web:alice.example.com";
     audience := "https://api.example.com";
     scopes := ["mail.read"];
     delegationChain := None;
     expiresIn := Some "1h" |}.

(** The clock at creation (Tuesday 14 November 2023, 22:13:20 UTC), one
    minute later, and a day later. *)
Definition created_at : Z := 1700000000123.
Definition minute_later : Z := 1700000060123.
Definition day_later : Z := 1700086400123.
Definition server_time : string := "22:13:20 GMT+0000 (Coordinated Universal Time)".

Definition sample_random : Buffer := repeat x2a 16.

Definition text_of (r : result string) : string :=
  match r with Ok s => s | Err _ => EmptyString end.

Definition sample_signingInput : string :=
  text_of (signingInput_of Sample.stringify (sample_options sample_identity) created_at sample_random).

(** The token of the sample identity, whose stand-in signature is ASCII
    throughout and so survives the decoding in [verify]. *)
Definition sample_token : string :=
  text_of (AATToken_create Sample.stringify Sample.sign (sample_options sample_identity)
             created_at sample_random).

(** The same token with 64 zero bytes for a signature. *)
Definition forged_token : string :=
  (sample_signingInput ++ "." ++ toString_base64url (repeat x00 64))%string.

Definition sample_payload : JSValue :=
  JObj [("iss", JStr (did sample_identity));
        ("sub", JStr "did:web:alice.example.com");
        ("aud", JStr "https://api.example.com");
        ("iat", JNum 1700000000);
        ("exp", JNum 1700003600);
        ("nonce", JStr "2a2a2a2a2a2a2a2a2a2a2a2a2a2a2a2a");
        ("scope", JArr [JStr "mail.read"]);
        ("act", JObj [("sub", JStr (did sample_identity))])].

Definition segment (i : nat) (token : string) : string :=
  nth i (String_split "." token) EmptyString.

Definition parsed (text : string) : JSValue :=
  match Sample.parse text with Some v => v | None => JUndefined end.

Definition high_signingInput : string :=
  text_of (signingInput_of Sample.stringify (sample_options high_identity) created_at sample_random).

Definition high_signature : Buffer :=
  match Sample.sign (Buffer_from_utf8 high_signingInput) (privateKey high_identity) with
  | Some signature => signature
  | None => []
  end.

Definition high_token : string :=
  (high_signingInput ++ "." ++ toString_base64url high_signature)%string.

(** The same token with 64 bytes 0xff for a signature, as the test of the
    repository tampers with it. *)
Definition tampered_token : string :=
  (sample_signingInput ++ "." ++ toString_base64url (repeat xff 64))%string.

(** The same token with a signature of ten bytes. *)
Definition short_token : string :=
  (sample_signingInput ++ "." ++ toString_base64url (repeat x00 10))%string.

(** A token that names an issuer which is not an AgentAuth DID, with the
    stand-in signature of the sample key. *)
Definition foreign_identity : AgentIdentity :=
  {| privateKey := privateKey sample_identity;
     publicKey := publicKey sample_identity;
     did := "did:web:agent.example.com";
     metadata := JUndefined |}.

Definition foreign_token : string :=
  text_of (AATToken_create Sample.stringify Sample.sign (sample_options foreign_identity)
             created_at sample_random).

Definition foreign_payload : JSValue :=
  JObj [("iss", JStr "did:web:agent.example.com");
        ("sub", JStr "did:web:alice.example.com");
        ("aud", JStr "https://api.example.com");
        ("iat", JNum 1700000000);
        ("exp", JNum 1700003600);
        ("nonce", JStr "2a2a2a2a2a2a2a2a2a2a2a2a2a2a2a2a");
        ("scope", JArr [JStr "mail.read"]);
        ("act", JObj [("sub", JStr "did:web:agent.example.com")])].

(** The signature of RFC 8032, section 7.1, test 1. *)
Definition rfc8032_signature : Buffer :=
  Buffer_from_hex
    ("e5564300c360ac729086e2cc806e828a84877f1eb8e5d974d873e06522490155"
     ++ "5fb8821590a33bacc61e39701cf9b46bd25bf5f0595bbe24655141438e7a100b").

Definition sample_delegation_options : CreateDelegationOptions :=
  {| delegatorDID := "did:web:alice.example.com";
     delegateDID := did sample_identity;
     delegation_scopes := ["mail.read"];
     audiences := None;
     platform := None;
     agentName := None;
     constraints := JUndefined;
     revocation := JUndefined |}.

Definition sample_uuid : string := "3f2b8c1e-0d4a-4b7e-9c55-2a6d1e8f9b10".
Definition sample_created : string := "2023-11-14T22:13:20.123Z".

(** A delegation of the core with the given time bounds for constraints. *)
Definition bounded_delegation (bounds : list (string * JSValue)) : JSValue :=
  createDelegation
    {| delegatorDID := "did:web:alice.example.com";
       delegateDID := did sample_identity;
       delegation_scopes := ["mail.read"];
       audiences := None;
       platform := None;
       agentName := None;
       constraints := JObj bounds;
       revocation := JUndefined |}
    sample_uuid sample_created.

(** The window of the whole week, in the format of the core's interface. *)
Definition whole_week : TimeWindow :=
  {| days := Some ["mon"; "tue"; "wed"; "thu"; "fri"; "sat"; "sun"];
     hours := Some "00:00-23:59";
     tz := Some "UTC" |}.

(** Monday mornings, in the same format. *)
Definition monday_morning : TimeWindow :=
  {| days := Some ["mon"];
     hours := Some "09:00-10:00";
     tz := Some "UTC" |}.

Definition no_token : AATToken :=
  {| token_header := JObj [];
     token_payload := JObj [];
     token_delegationChain := JArr [];
     token_signature := [] |}.

(** *** Further sample data *)

(** A text beyond ASCII: the word cafe with an acute accent, the euro sign and
    an emoji, of two, three and four bytes. *)
Definition sample_text : string :=
  string_of_list_byte (Buffer_from_hex "636166c3a9e282acf09fa496").

Definition sample_seed : Buffer := Buffer_from_hex sample_key_hex.

(** A token whose payload holds no [exp], signed by the sample identity. *)
Definition eternal_payload : JSValue :=
  JObj [("iss", JStr (did sample_identity));
        ("sub", JStr "did:web:alice.example.com");
        ("aud", JStr "https://api.example.com");
        ("iat", JNum 1700000000);
        ("scope", JArr [JStr "mail.read"])].

Definition signed_by_sample (signingInput : string) : string :=
  match Sample.sign (Buffer_from_utf8 signingInput) (privateKey sample_identity) with
  | Some signature => (signingInput ++ "." ++ toString_base64url signature)%string
  | None => EmptyString
  end.

Definition eternal_token : string :=
  signed_by_sample
    (base64urlEncode (Sample.stringify (created_header (sample_options sample_identity)))
     ++ "." ++ base64urlEncode (Sample.stringify eternal_payload)
     ++ "." ++ base64urlEncode (Sample.stringify (JArr []))).

(** The signature of the sample token. *)
Definition sample_signature : Buffer :=
  Buffer_from_base64url (segment 3 sample_token).

(** What [verify] returns for the sample token. *)
Definition sample_verify_options : VerifyOptions :=
  {| verify_audience := Some "https://api.example.com";
     requiredScopes := Some ["mail.read"] |}.

Definition sample_verified : AATToken :=
  match sample_verify sample_token sample_verify_options minute_later with
  | Ok t => t
  | Err _ => no_token
  end.

(** Options of a delegation with the given constraints. *)
Definition constrained_options (fields : list (string * JSValue)) : CreateDelegationOptions :=
  {| delegatorDID := "did:web:alice.example.com";
     delegateDID := did sample_identity;
     delegation_scopes := ["mail.read"];
     audiences := None;
     platform := None;
     agentName := None;
     constraints := JObj fields;
     revocation := JUndefined |}.

(** A token with a chain of [n] copies of the sample delegation. *)
Definition chained_token (n : nat) : AATToken :=
  {| token_header := JObj [];
     token_payload := JObj [];
     token_delegationChain :=
       JArr (repeat (createDelegation sample_delegation_options sample_uuid sample_created) n);
     token_signature := [] |}.

(** The sample token with the sample delegation for a chain, and what
    [verifyAgent] makes of it. *)
Definition delegated_token : string :=
  text_of
    (AATToken_create Sample.stringify Sample.sign
       {| identity := sample_identity;
          delegator := "did:web:alice.example.com";
          audience := "https://api.example.com";
          scopes := ["mail.read"];
          delegationChain :=
            Some [createDelegation sample_delegation_options sample_uuid sample_created];
          expiresIn := None |}
       created_at sample_random).

Definition sample_agent_options : VerifyAgentOptions :=
  {| agent_audience := "https://api.example.com";
     agent_requiredScopes := ["mail.read"];
     agent_enforceConstraints := None |}.

Definition sample_verifyAgent (token : string) : result VerifiedAgent :=
  verifyAgent Sample.parse Sample.verify Sample.StringToNumber Sample.ObjectToString
    token sample_agent_options minute_later minute_later server_time.

Definition sample_agent : VerifiedAgent :=
  match sample_verifyAgent delegated_token with
  | Ok agent => agent
  | Err _ =>
      {| verified_agentDID := JUndefined;
         verified_delegatorDID := JUndefined;
         verified_scopes := JUndefined;
         verified_delegation := JUndefined;
         verified_token := no_token |}
  end.

(** A dialog opened for the sample agent with a custom limit. *)
Definition sample_props : DelegationRequestProps :=
  {| props_agentDID := did sample_identity;
     props_scopes := ["mail.read"];
     props_preset := Some per_action;
     props_customConstraints := Some [("maxUsesPerHour", JNum 5)];
     props_delegatorDID := "did:web:alice.example.com";
     props_signerCallback := None |}.

Definition sample_request : AgentAuthRequest :=
  {| request_agentDID := did sample_identity;
     request_scopes := ["mail.read"];
     request_preset := None;
     request_customConstraints := None |}.

Definition sample_delegation : JSValue :=
  createDelegation sample_delegation_options sample_uuid sample_created.

(** * Properties *)

(** ** The encodings *)

Ltac euclid := zify; Z.to_euclidean_division_equations; lia.

(** Case analysis on a number below a small bound. *)
Ltac small_cases n :=
  destruct n as [|n]; [reflexivity|];
  repeat (destruct n as [n|n|]; try reflexivity; try lia).

Lemma list_ind3 {A : Type} (P : list A -> Prop) :
  P [] -> (forall x, P [x]) -> (forall x y, P [x; y]) ->
  (forall x y z l, P l -> P (x :: y :: z :: l)) ->
  forall l, P l.
Proof.
  intros H0 H1 H2 H3. fix IH 1.
  intros [|x [|y [|z l]]]; [apply H0 | apply H1 | apply H2 | apply H3, IH].
Qed.

Lemma string_ind2 (P : string -> Prop) :
  P EmptyString -> (forall c, P (String c EmptyString)) ->
  (forall c1 c2 s, P s -> P (String c1 (String c2 s))) ->
  forall s, P s.
Proof.
  intros H0 H1 H2. fix IH 1.
  intros [|c1 [|c2 s]]; [apply H0 | apply H1 | apply H2, IH].
Qed.

Lemma byte_of_N_to_N (x : byte) : byte_of_N (Byte.to_N x) = x.
Proof. unfold byte_of_N. now rewrite Byte.of_to_N. Qed.

Lemma byte_of_N_eq (n : N) (x : byte) : n = Byte.to_N x -> byte_of_N n = x.
Proof. intros ->. apply byte_of_N_to_N. Qed.

Lemma to_N_lt (x : byte) : (Byte.to_N x < 256)%N.
Proof. pose proof (Byte.to_N_bounded x). lia. Qed.

Lemma unhex_hex_digit (n : N) : (n < 16)%N -> unhex (hex_digit n) = Some n.
Proof. intros H. small_cases n. Qed.

(** Decoding the hexadecimal text of a buffer gives the buffer back. *)
Lemma Buffer_from_hex_toString_hex (b : Buffer) : Buffer_from_hex (toString_hex b) = b.
Proof.
  induction b as [|x b IH]; [reflexivity|].
  pose proof (to_N_lt x) as Hx.
  cbn [toString_hex Buffer_from_hex].
  rewrite !unhex_hex_digit by euclid.
  rewrite IH. f_equal.
  apply byte_of_N_eq. euclid.
Qed.

Lemma Buffer_from_hex_length (s : string) :
  well_formed_hex s = true ->
  (2 * List.length (Buffer_from_hex s) = String.length s)%nat.
Proof.
  induction s as [| c | c1 c2 s IH] using string_ind2;
    cbn [well_formed_hex Buffer_from_hex String.length]; intros H.
  - reflexivity.
  - discriminate.
  - apply andb_prop in H as [H Hs]. apply andb_prop in H as [H1 H2].
    unfold is_hex_digit in H1, H2.
    destruct (unhex c1); [|discriminate]. destruct (unhex c2); [|discriminate].
    cbn [List.length]. specialize (IH Hs). lia.
Qed.

Lemma unbase64_base64url_char (n : N) : (n < 64)%N -> unbase64 (base64url_char n) = Some n.
Proof. intros H. small_cases n. Qed.

Lemma base64_groups_lt (b : Buffer) : Forall (fun g => (g < 64)%N) (base64_groups b).
Proof.
  induction b as [| x | x y | x y z l IH] using list_ind3;
    cbn [base64_groups].
  - constructor.
  - pose proof (to_N_lt x). repeat (constructor; [euclid|]). constructor.
  - pose proof (to_N_lt x). pose proof (to_N_lt y). repeat (constructor; [euclid|]). constructor.
  - pose proof (to_N_lt x). pose proof (to_N_lt y). pose proof (to_N_lt z).
    repeat (constructor; [euclid|]). exact IH.
Qed.

Lemma base64_bytes_groups (b : Buffer) : base64_bytes (base64_groups b) = b.
Proof.
  induction b as [| x | x y | x y z l IH] using list_ind3;
    cbn [base64_groups base64_bytes].
  - reflexivity.
  - pose proof (to_N_lt x).
    f_equal. apply byte_of_N_eq. euclid.
  - pose proof (to_N_lt x). pose proof (to_N_lt y).
    f_equal; [|f_equal]; apply byte_of_N_eq; euclid.
  - pose proof (to_N_lt x). pose proof (to_N_lt y). pose proof (to_N_lt z).
    rewrite IH. f_equal; [|f_equal; [|f_equal]]; apply byte_of_N_eq; euclid.
Qed.

Lemma base64url_char_neq (c : ascii) (n : N) :
  outside_base64 c -> (n < 64)%N -> Ascii.eqb (base64url_char n) c = false.
Proof.
  intros Hc Hn. destruct (Ascii.eqb_spec (base64url_char n) c) as [E|]; [|reflexivity].
  rewrite <- E in Hc. unfold outside_base64 in Hc.
  rewrite unbase64_base64url_char in Hc by assumption. discriminate.
Qed.

Lemma base64_scan_chars (g : list N) :
  Forall (fun n => (n < 64)%N) g ->
  base64_scan (string_of_chars (map base64url_char g)) = g.
Proof.
  induction 1 as [|n g Hn _ IH]; [reflexivity|].
  cbn [map string_of_chars base64_scan].
  rewrite (base64url_char_neq "=" n) by (reflexivity || assumption).
  rewrite unbase64_base64url_char by assumption.
  now rewrite IH.
Qed.

(** Decoding the base64url text of a buffer gives the buffer back. *)
Lemma Buffer_from_base64url_toString (b : Buffer) :
  Buffer_from_base64url (toString_base64url b) = b.
Proof.
  unfold Buffer_from_base64url, toString_base64url.
  rewrite base64_scan_chars by apply base64_groups_lt.
  apply base64_bytes_groups.
Qed.

Lemma split_free (c : ascii) (s : string) :
  occurs c s = false -> String_split c s = [s].
Proof.
  induction s as [|x s IH]; [reflexivity|].
  cbn [occurs String_split]. intros H.
  apply orb_false_iff in H as [Hx Hs].
  rewrite Hx, (IH Hs). reflexivity.
Qed.

Lemma split_app (c : ascii) (s t : string) :
  occurs c s = false ->
  String_split c (s ++ String c t) = s :: String_split c t.
Proof.
  induction s as [|x s IH]; cbn [occurs String.append String_split]; intros H.
  - now rewrite Ascii.eqb_refl.
  - apply orb_false_iff in H as [Hx Hs].
    rewrite Hx, (IH Hs). reflexivity.
Qed.

Lemma occurs_toString_base64url (c : ascii) (b : Buffer) :
  outside_base64 c -> occurs c (toString_base64url b) = false.
Proof.
  intros Hc. unfold toString_base64url.
  pose proof (base64_groups_lt b) as H.
  induction H as [|n g Hn _ IH]; [reflexivity|].
  cbn [map string_of_chars occurs].
  now rewrite (base64url_char_neq c n Hc Hn), IH.
Qed.

Lemma occurs_base64urlEncode (c : ascii) (str : string) :
  outside_base64 c -> occurs c (base64urlEncode str) = false.
Proof. intros H. now apply occurs_toString_base64url. Qed.

Lemma append_assoc (a b c : string) : ((a ++ b) ++ c = a ++ (b ++ c))%string.
Proof. induction a as [|x a IH]; cbn; [reflexivity | now rewrite IH]. Qed.

Lemma Buffer_from_utf8_toString (b : Buffer) :
  Buffer_from_utf8 (toString_utf8 b) = utf8_decode Boundary b.
Proof. apply list_byte_of_string_of_list_byte. Qed.

(** *** What decoding as UTF-8 does to arbitrary bytes

    The decoded text is never shorter than the bytes, and it is longer as soon
    as a byte occurs that no UTF-8 text contains. *)

Lemma utf8_lead_spec (b : byte) :
  reachable (snd (utf8_lead b))
  /\ (1 <= List.length (fst (utf8_lead b)) + pending (snd (utf8_lead b)))%nat
  /\ (never_in_utf8 b = true ->
      3 <= List.length (fst (utf8_lead b)) + pending (snd (utf8_lead b)))%nat.
Proof.
  destruct b; cbn; repeat split; try lia; discriminate.
Qed.

Lemma never_in_utf8_not_continuation (b : byte) (lower upper : N) :
  (0x80 <= lower)%N -> (upper <= 0xbf)%N -> never_in_utf8 b = true ->
  N_in lower upper (Byte.to_N b) = false.
Proof.
  unfold never_in_utf8, N_in. intros Hl Hu H.
  apply andb_false_iff.
  destruct (N.leb_spec lower (Byte.to_N b)); [right | now left].
  apply N.leb_gt.
  repeat (apply orb_prop in H as [H|H]);
    [apply N.eqb_eq in H | apply N.eqb_eq in H | apply N.leb_le in H]; lia.
Qed.

Lemma utf8_decode_length (bs : Buffer) :
  forall st, reachable st ->
    (pending st + List.length bs <= List.length (utf8_decode st bs))%nat
    /\ (existsb never_in_utf8 bs = true ->
        pending st + List.length bs < List.length (utf8_decode st bs))%nat.
Proof.
  induction bs as [|b bs IH]; intros st Hst.
  - destruct st as [|seen needed lower upper]; cbn; [split; [lia | discriminate]|].
    destruct Hst as (? & ? & _). split; [lia | discriminate].
  - destruct (utf8_lead_spec b) as (Hlead & Hone & Hthree).
    destruct (IH _ Hlead) as [IHle IHlt].
    cbn [existsb].
    destruct st as [|seen needed lower upper]; cbn [utf8_decode pending List.length].
    + rewrite length_app. split; [lia|].
      intros H. apply orb_prop in H as [H|H]; [specialize (Hthree H) | specialize (IHlt H)]; lia.
    + destruct Hst as (Hn & Hs & Hl & Hu).
      destruct (N_in lower upper (Byte.to_N b)) eqn:Hin.
      * assert (Hb : never_in_utf8 b = false).
        { destruct (never_in_utf8 b) eqn:E; [|reflexivity].
          rewrite (never_in_utf8_not_continuation b lower upper Hl Hu E) in Hin. discriminate. }
        rewrite Hb. cbn [orb].
        destruct needed as [|[|n]]; [lia | |].
        -- destruct (IH Boundary I) as [Hle Hlt].
           rewrite !length_app. cbn [List.length pending] in *. split; [lia|].
           intros H. specialize (Hlt H). lia.
        -- assert (Hst' : reachable (Within (seen ++ [b]) (S n) 0x80 0xbf)).
           { cbn. rewrite length_app. cbn. repeat split; lia. }
           destruct (IH _ Hst') as [Hle Hlt].
           cbn [pending] in Hle, Hlt. rewrite length_app in Hle, Hlt. cbn [List.length] in *.
           split; [lia|]. intros H. specialize (Hlt H). lia.
      * rewrite !length_app. cbn [replacement List.length]. split; [lia|].
        intros H. apply orb_prop in H as [H|H]; [specialize (Hthree H) | specialize (IHlt H)]; lia.
Qed.

(** A signature of 64 bytes with such a byte in it does not come out of the
    decoding as 64 bytes. *)
Lemma utf8_decode_garbles (signature : Buffer) :
  List.length signature = 64%nat ->
  existsb never_in_utf8 signature = true ->
  List.length (utf8_decode Boundary signature) <> 64%nat.
Proof.
  intros Hlen Hbad.
  destruct (utf8_decode_length signature Boundary I) as [_ H].
  specialize (H Hbad). cbn [pending] in H. lia.
Qed.

(** Well-formed text is copied (A, e acute, the euro sign, an emoji); an
    overlong form, an encoded surrogate, a sequence cut short and a byte that
    is never valid are replaced. *)
Example utf8_decode_examples :
  toString_hex (utf8_decode Boundary (Buffer_from_hex "41c3a9e282acf09fa496"))
    = "41c3a9e282acf09fa496"
  /\ toString_hex (utf8_decode Boundary (Buffer_from_hex "c080")) = "efbfbdefbfbd"
  /\ toString_hex (utf8_decode Boundary (Buffer_from_hex "eda080")) = "efbfbdefbfbdefbfbd"
  /\ toString_hex (utf8_decode Boundary (Buffer_from_hex "e28241")) = "efbfbd41"
  /\ toString_hex (utf8_decode Boundary (Buffer_from_hex "ff")) = "efbfbd".
Proof. repeat split. Qed.

(** The signature of RFC 8032's first test, 64 bytes of which a good part are
    outside ASCII, decodes to 120 bytes. *)
Example rfc8032_signature_garbled :
  List.length rfc8032_signature = 64%nat
  /\ List.length (utf8_decode Boundary rfc8032_signature) = 120%nat.
Proof. split; vm_compute; reflexivity. Qed.

(** ** Identity *)

Lemma split_publicKeyToDID (pk : Buffer) :
  String_split ":" (publicKeyToDID pk) = ["did"; "agentauth"; "ed25519"; toString_base64url pk].
Proof.
  unfold publicKeyToDID.
  set (e := toString_base64url pk).
  change ("did:agentauth:ed25519:" ++ e)%string
    with ("did" ++ String ":" ("agentauth" ++ String ":" ("ed25519" ++ String ":" e)))%string.
  rewrite !split_app by reflexivity.
  now rewrite split_free by (apply occurs_toString_base64url; reflexivity).
Qed.

(** C5. Decoding the DID of a public key returns the key, byte for byte: for
    every buffer [pk], in particular every 32-byte Ed25519 public key,
    [didToPublicKey (publicKeyToDID pk)] succeeds with [pk]. *)
Theorem didToPublicKey_publicKeyToDID (pk : Buffer) :
  didToPublicKey (publicKeyToDID pk) = Ok pk.
Proof.
  unfold didToPublicKey.
  rewrite split_publicKeyToDID.
  cbn [String.eqb Ascii.eqb Bool.eqb negb orb].
  now rewrite Buffer_from_base64url_toString.
Qed.

Section IdentityProperties.

Variable ed_getPublicKey : Buffer -> option Buffer.

(** C6, amended. [fromPrivateKey] fails with [InvalidKeyFormat] whenever the
    bytes that the hexadecimal decoding of its input yields are not 32; when
    they are 32, as for every well-formed hexadecimal string of 64 digits, it
    succeeds and returns the identity of these bytes, with the derived public
    key and DID. *)
Theorem fromPrivateKey_decoded_size (privateKeyHex : string) (metadata : JSValue) :
  accepts_32_bytes ed_getPublicKey ->
  (List.length (Buffer_from_hex privateKeyHex) <> 32%nat ->
   fromPrivateKey ed_getPublicKey privateKeyHex metadata = Err InvalidKeyFormat)
  /\ (List.length (Buffer_from_hex privateKeyHex) = 32%nat ->
      exists pk,
        ed_getPublicKey (Buffer_from_hex privateKeyHex) = Some pk
        /\ fromPrivateKey ed_getPublicKey privateKeyHex metadata =
           Ok {| privateKey := Buffer_from_hex privateKeyHex;
                 publicKey := pk;
                 did := publicKeyToDID pk;
                 metadata := metadata |})
  /\ (well_formed_hex privateKeyHex = true -> String.length privateKeyHex = 64%nat ->
      List.length (Buffer_from_hex privateKeyHex) = 32%nat).
Proof.
  intros Hlib. unfold fromPrivateKey. split; [|split].
  - intros Hlen. destruct (ed_getPublicKey (Buffer_from_hex privateKeyHex)) eqn:E; [|reflexivity].
    exfalso. apply Hlen, Hlib. congruence.
  - intros Hlen. apply Hlib in Hlen.
    destruct (ed_getPublicKey (Buffer_from_hex privateKeyHex)) as [pk|]; [|congruence].
    now exists pk.
  - intros Hwf H64. apply Buffer_from_hex_length in Hwf. lia.
Qed.

(** C9, amended. [toJSON] followed by [fromJSON] gives back an identity built
    by [create] or [fromPrivateKey]: its private key, public key, DID and
    metadata are reproduced, whatever the time of the export, and the
    reconstructed identity signs every message as the original does. *)
Theorem fromJSON_toJSON (x : AgentIdentity) (created : string) :
  derived ed_getPublicKey x ->
  fromJSON ed_getPublicKey (toJSON x created) = Ok x
  /\ forall y, fromJSON ed_getPublicKey (toJSON x created) = Ok y ->
       did y = did x
       /\ forall ed_sign data, sign ed_sign y data = sign ed_sign x data.
Proof.
  intros [Hpk Hdid].
  assert (E : fromJSON ed_getPublicKey (toJSON x created) = Ok x).
  { unfold fromJSON, toJSON, fromPrivateKey, exportPrivateKey.
    cbn [json_privateKey json_metadata].
    rewrite Buffer_from_hex_toString_hex, Hpk, <- Hdid. now destruct x. }
  split; [exact E|].
  intros y Hy. rewrite E in Hy. injection Hy as <-. now split.
Qed.

(** Both constructors establish [derived]. *)
Lemma create_derived (seed : Buffer) (metadata : JSValue) (x : AgentIdentity) :
  AgentIdentity_create ed_getPublicKey seed metadata = Ok x -> derived ed_getPublicKey x.
Proof.
  unfold AgentIdentity_create. destruct (ed_getPublicKey seed) eqn:E; [|discriminate].
  intros [= <-]. now split.
Qed.

Lemma fromPrivateKey_derived (hex : string) (metadata : JSValue) (x : AgentIdentity) :
  fromPrivateKey ed_getPublicKey hex metadata = Ok x -> derived ed_getPublicKey x.
Proof.
  unfold fromPrivateKey. destruct (ed_getPublicKey (Buffer_from_hex hex)) eqn:E; [|discriminate].
  intros [= <-]. now split.
Qed.

End IdentityProperties.

Lemma Sample_accepts_32_bytes : accepts_32_bytes Sample.getPublicKey.
Proof.
  intros sk. unfold Sample.getPublicKey.
  destruct (Nat.eqb_spec (List.length sk) 32); split; congruence.
Qed.

Lemma sample_identity_derived : derived Sample.getPublicKey sample_identity.
Proof. split; reflexivity. Qed.

Lemma fromPrivateKey_decoded_size_witness :
  accepts_32_bytes Sample.getPublicKey
  /\ fromPrivateKey Sample.getPublicKey "abcd" JUndefined = Err InvalidKeyFormat
  /\ fromPrivateKey Sample.getPublicKey sample_key_hex (metadata sample_identity)
     = Ok sample_identity.
Proof.
  split; [exact Sample_accepts_32_bytes|].
  split.
  - apply (fromPrivateKey_decoded_size Sample.getPublicKey "abcd" JUndefined
             Sample_accepts_32_bytes).
    vm_compute. discriminate.
  - destruct (fromPrivateKey_decoded_size Sample.getPublicKey sample_key_hex
                (metadata sample_identity) Sample_accepts_32_bytes) as (_ & H & _).
    destruct (H eq_refl) as (pk & Hpk & ->).
    vm_compute in Hpk. injection Hpk as <-. reflexivity.
Defined.

(** C6 as stated fails: a string that is not hexadecimal, yet whose first 64
    characters are, is accepted. *)
Lemma fromPrivateKey_accepts_malformed_hex :
  well_formed_hex (sample_key_hex ++ "zz") = false
  /\ fromPrivateKey Sample.getPublicKey (sample_key_hex ++ "zz") JUndefined =
     Ok {| privateKey := privateKey sample_identity;
           publicKey := publicKey sample_identity;
           did := did sample_identity;
           metadata := JUndefined |}.
Proof. split; vm_compute; reflexivity. Qed.

Lemma fromJSON_toJSON_witness :
  derived Sample.getPublicKey sample_identity
  /\ fromJSON Sample.getPublicKey (toJSON sample_identity "2024-05-01T12:00:00.000Z")
     = Ok sample_identity.
Proof.
  split; [exact sample_identity_derived|].
  apply (fromJSON_toJSON Sample.getPublicKey sample_identity "2024-05-01T12:00:00.000Z"
           sample_identity_derived).
Defined.

(** C9 as stated fails for the creation timestamp: two exports of one identity
    that differ in [created] are read back as the same identity, so that
    nothing of [created] is reproduced. *)
Lemma fromJSON_forgets_created :
  json_created (toJSON sample_identity "2024-05-01T12:00:00.000Z")
    <> json_created (toJSON sample_identity "2025-01-01T00:00:00.000Z")
  /\ fromJSON Sample.getPublicKey (toJSON sample_identity "2024-05-01T12:00:00.000Z")
     = fromJSON Sample.getPublicKey (toJSON sample_identity "2025-01-01T00:00:00.000Z").
Proof. split; [discriminate | reflexivity]. Qed.

(** ** Durations *)

Lemma mathInt_from_value (s : string) (acc : Z) :
  mathInt_from acc s = (acc * 10 ^ Z.of_nat (String.length s) + decimal_value s)%Z.
Proof.
  revert acc. induction s as [|c s IH]; intros acc; cbn [mathInt_from decimal_value String.length].
  - cbn. lia.
  - rewrite IH. fold (digit_value c).
    rewrite Nat2Z.inj_succ, Z.pow_succ_r by lia. ring.
Qed.

Lemma mathInt_value (s : string) : mathInt s = decimal_value s.
Proof. unfold mathInt. rewrite mathInt_from_value. lia. Qed.

Lemma parseInt_value (s : string) : parseInt s = to_Number (decimal_value s).
Proof. unfold parseInt. now rewrite mathInt_value. Qed.

Lemma decimal_value_nonneg (s : string) : (0 <= decimal_value s)%Z.
Proof.
  induction s as [|c s IH]; cbn [decimal_value]; [lia|].
  unfold digit_value. nia.
Qed.

(** Below 2^53 in magnitude an integer is its own number value. *)
Lemma to_Number_exact (n : Z) : (Z.abs n < 2 ^ 53)%Z -> to_Number n = Finite n.
Proof.
  intros H. unfold to_Number, nearest_double.
  replace (Z.abs n <? 2 ^ 53)%Z with true by (symmetry; now apply Z.ltb_lt).
  assert (Hpow : (2 ^ 53 < 2 ^ 1024)%Z) by (apply Z.pow_lt_mono_r; lia).
  replace (2 ^ 1024 <=? n)%Z with false by (symmetry; apply Z.leb_gt; lia).
  replace (n <=? - 2 ^ 1024)%Z with false by (symmetry; apply Z.leb_gt; lia).
  reflexivity.
Qed.

Lemma span_digits_eq (s : string) :
  s = (fst (span_digits s) ++ snd (span_digits s))%string
  /\ all_digits (fst (span_digits s)) = true.
Proof.
  induction s as [|c s [IH1 IH2]]; [now split|].
  cbn [span_digits]. destruct (is_digit c) eqn:E; cbn [fst snd String.append all_digits].
  - rewrite E, IH2. split; [now rewrite <- IH1 | reflexivity].
  - now split.
Qed.

Lemma span_digits_app (digits rest : string) :
  all_digits digits = true ->
  match rest with EmptyString => True | String c _ => is_digit c = false end ->
  span_digits (digits ++ rest) = (digits, rest).
Proof.
  intros Hd Hr. induction digits as [|c digits IH]; cbn [String.append].
  - destruct rest as [|c rest]; [reflexivity|]. cbn [span_digits]. now rewrite Hr.
  - cbn [all_digits] in Hd. apply andb_prop in Hd as [Hc Hd].
    cbn [span_digits]. rewrite Hc, (IH Hd). reflexivity.
Qed.

Lemma is_unit_seconds (unit : ascii) :
  is_unit unit = true <-> exists m, unit_seconds unit m.
Proof.
  split.
  - unfold is_unit. intros H.
    repeat (apply orb_prop in H as [H|H]);
      apply Ascii.eqb_eq in H; subst; eexists; constructor.
  - intros [m H]. now destruct H.
Qed.

Lemma multipliers_seconds (unit : ascii) (m : Z) :
  unit_seconds unit m -> multipliers unit = m.
Proof. now destruct 1. Qed.

Lemma expiry_match_iff (s digits : string) (unit : ascii) :
  expiry_match s = Some (digits, unit)
  <-> s = (digits ++ String unit EmptyString)%string
      /\ digits <> EmptyString /\ all_digits digits = true /\ is_unit unit = true.
Proof.
  unfold expiry_match. split.
  - destruct (span_digits_eq s) as [Hs Hd].
    destruct (span_digits s) as [a b]. cbn [fst snd] in Hs, Hd.
    destruct a as [|d a]; [discriminate|].
    destruct b as [|u [|? ?]]; try discriminate.
    destruct (is_unit u) eqn:Hu; [|discriminate].
    intros [= <- <-]. repeat split; auto. discriminate.
  - intros (-> & Hne & Hd & Hu).
    rewrite span_digits_app; auto.
    + destruct digits; [congruence|]. now rewrite Hu.
    + apply is_unit_seconds in Hu as [m Hm]. now destruct Hm.
Qed.

(** C4, amended. [parseExpiry] accepts exactly the strings made of one or
    more decimal digits followed by one unit among s, m, h, d, and returns the
    number the digits denote times 1, 60, 3600 or 86400, as JavaScript's
    numbers have it: the exact product where it is below 2^53, and in every
    case the count rounded to the nearest double, times the multiplier,
    rounded again, an infinity when out of range. A count of zero is accepted
    and gives 0. Every other string fails with [InvalidDurationFormat]. *)
Theorem parseExpiry_accepts_exactly (s : string) :
  (forall v, parseExpiry s = Ok v <-> duration s v)
  /\ ((forall v, ~ duration s v) <-> parseExpiry s = Err InvalidDurationFormat)
  /\ (forall digits unit m,
        s = (digits ++ String unit EmptyString)%string ->
        digits <> EmptyString ->
        all_digits digits = true ->
        unit_seconds unit m ->
        (decimal_value digits * m < 2 ^ 53)%Z ->
        parseExpiry s = Ok (Finite (decimal_value digits * m))).
Proof.
  assert (Hok : forall v, parseExpiry s = Ok v <-> duration s v).
  { intros v. unfold parseExpiry, duration. split.
    - destruct (expiry_match s) as [[digits unit]|] eqn:E; [|discriminate].
      intros [= <-]. apply expiry_match_iff in E as (-> & Hne & Hd & Hu).
      apply is_unit_seconds in Hu as [m Hm].
      exists digits, unit, m. rewrite parseInt_value, (multipliers_seconds _ _ Hm). auto.
    - intros (digits & unit & m & Hs & Hne & Hd & Hm & ->).
      assert (E : expiry_match s = Some (digits, unit)).
      { apply expiry_match_iff. repeat split; auto. apply is_unit_seconds. eauto. }
      rewrite E, parseInt_value, (multipliers_seconds _ _ Hm). reflexivity. }
  split; [exact Hok|]. split; [split|].
  - intros Hno. destruct (parseExpiry s) as [v|e] eqn:E.
    + exfalso. apply (Hno v), Hok. reflexivity.
    + unfold parseExpiry in E. destruct (expiry_match s) as [[? ?]|]; congruence.
  - intros E v Hv. apply Hok in Hv. congruence.
  - intros digits unit m Hs Hne Hd Hm Hbound.
    apply Hok. exists digits, unit, m. repeat split; auto.
    pose proof (decimal_value_nonneg digits) as Hpos.
    assert (Hm1 : (1 <= m)%Z) by (destruct Hm; lia).
    rewrite to_Number_exact by (rewrite Z.abs_eq by lia; nia).
    cbn [Number_times]. rewrite to_Number_exact by (rewrite Z.abs_eq by nia; lia).
    reflexivity.
Qed.

(** C4 as stated fails on a count of zero, which is accepted. *)
Lemma parseExpiry_accepts_zero : parseExpiry "0s" = Ok (Finite 0).
Proof. vm_compute. reflexivity. Qed.

Lemma parseExpiry_accepts_exactly_witness :
  duration "24h" (Finite 86400) /\ parseExpiry "24h" = Ok (Finite 86400).
Proof.
  assert (H : parseExpiry "24h" = Ok (Finite 86400)).
  { refine (proj2 (proj2 (parseExpiry_accepts_exactly "24h")) "24" "h"%char 3600%Z _ _ _ _ _).
    - reflexivity.
    - discriminate.
    - reflexivity.
    - constructor.
    - vm_compute. reflexivity. }
  split; [|exact H].
  exact (proj1 (proj1 (parseExpiry_accepts_exactly "24h") (Finite 86400)) H).
Defined.

(** The durations of the specification's examples, and the shapes it lists as
    rejected. *)
Example parseExpiry_examples :
  parseExpiry "1s" = Ok (Finite 1)
  /\ parseExpiry "1h" = Ok (Finite 3600)
  /\ parseExpiry "24h" = Ok (Finite 86400)
  /\ parseExpiry "7d" = Ok (Finite 604800)
  /\ parseExpiry "365d" = Ok (Finite 31536000)
  /\ parseExpiry "10" = Err InvalidDurationFormat
  /\ parseExpiry "-5h" = Err InvalidDurationFormat
  /\ parseExpiry "5w" = Err InvalidDurationFormat
  /\ parseExpiry "invalid" = Err InvalidDurationFormat.
Proof. repeat split; vm_compute; reflexivity. Qed.

(** Counts beyond 2^53: the count is rounded to the nearest double, a tie to
    the even one, and so is the product; a count of 400 digits is infinite. *)
Example parseExpiry_rounds :
  parseExpiry "9007199254740993s" = Ok (Finite 9007199254740992)
  /\ parseExpiry "9007199254740995s" = Ok (Finite 9007199254740996)
  /\ parseExpiry "9007199254740993m" = Ok (Finite 540431955284459520)
  /\ parseExpiry "18014398509481987s" = Ok (Finite 18014398509481988)
  /\ parseExpiry (string_of_list_ascii (repeat "9"%char 400) ++ "d") = Ok Infinity.
Proof. repeat split; vm_compute; reflexivity. Qed.

(** ** Tokens *)

Lemma get_error (v : JSValue) (key : string) (e : error) :
  get v key = Err e -> e = TypeError.
Proof. destruct v; cbn; congruence. Qed.

Lemma some_of_error {A : Type} (f : A -> result bool) (l : list A) (e : error) :
  (forall x e', f x = Err e' -> e' = TypeError) ->
  some_of f l = Err e -> e = TypeError.
Proof.
  intros Hf. induction l as [|x l IH]; cbn [some_of]; [discriminate|].
  destruct (f x) as [[|]|e'] eqn:E; cbn [bind]; try discriminate; auto.
  intros [= <-]. eauto.
Qed.

Lemma array_some_error (f : JSValue -> result bool) (v : JSValue) (e : error) :
  (forall x e', f x = Err e' -> e' = TypeError) ->
  array_some f v = Err e -> e = TypeError.
Proof.
  intros Hf. destruct v; cbn [array_some]; try congruence.
  now apply some_of_error.
Qed.

Lemma every_error {A : Type} (f : A -> result bool) (l : list A) (e : error) :
  (forall x e', f x = Err e' -> e' = TypeError) ->
  every f l = Err e -> e = TypeError.
Proof.
  intros Hf. induction l as [|x l IH]; cbn [every]; [discriminate|].
  destruct (f x) as [[|]|e'] eqn:E; cbn [bind]; try discriminate; auto.
  intros [= <-]. eauto.
Qed.

Lemma strict_eq_JStr (v : JSValue) (s : string) :
  strict_eq v (JStr s) = true <-> v = JStr s.
Proof.
  destruct v; cbn; split; try discriminate; intros H.
  - apply String.eqb_eq in H. now subst.
  - injection H as ->. apply String.eqb_refl.
Qed.

Lemma existsb_strict_eq (items : list JSValue) (s : string) :
  existsb (fun x => strict_eq x (JStr s)) items = true <-> In (JStr s) items.
Proof.
  rewrite existsb_exists. split.
  - intros (x & Hx & E). apply strict_eq_JStr in E. now subst.
  - intros H. exists (JStr s). split; [assumption | now apply strict_eq_JStr].
Qed.

(** [every] of a test that does not throw is the conjunction of its
    answers. *)
Lemma every_total {A : Type} (f : A -> result bool) (g : A -> bool) (l : list A) :
  (forall x, In x l -> f x = Ok (g x)) -> every f l = Ok (forallb g l).
Proof.
  induction l as [|x l IH]; intros H; [reflexivity|].
  cbn [every forallb]. rewrite (H x) by now left. cbn [bind].
  destruct (g x); [|reflexivity]. apply IH. intros y Hy. apply H. now right.
Qed.

Section TokenProperties.

Variable JSON_stringify : JSValue -> string.
Variable JSON_parse : string -> option JSValue.
Variable ed_sign : Buffer -> Buffer -> option Buffer.
Variable ed_verify : Buffer -> Buffer -> Buffer -> option bool.
Variable StringToNumber : string -> option Z.
Variable ObjectToString : JSValue -> string.

Local Abbreviation create := (AATToken_create JSON_stringify ed_sign).
Local Abbreviation verify := (AATToken_verify JSON_parse ed_verify StringToNumber ObjectToString).
Local Abbreviation signing_input := (signingInput_of JSON_stringify).
Local Abbreviation token_decodes := (decodes JSON_parse ed_verify).
Local Abbreviation checks := (claim_checks StringToNumber ObjectToString).
Local Abbreviation less := (js_lt StringToNumber ObjectToString).

Lemma create_signingInput (options : CreateTokenOptions) (now_ms : Z) (random : Buffer) :
  create options now_ms random =
    (signingInput <- signing_input options now_ms random ;;
     signature <- sign ed_sign (identity options) (Buffer_from_utf8 signingInput) ;;
     Ok (signingInput ++ "." ++ toString_base64url signature)%string).
Proof.
  unfold AATToken_create, signingInput_of.
  destruct (parseExpiry _) as [seconds|]; [|reflexivity]. cbn [bind].
  destruct (sign _ _ _) as [signature|]; [|reflexivity]. cbn [bind].
  now rewrite !append_assoc.
Qed.

Lemma split_signingInput (options : CreateTokenOptions) (now_ms : Z) (random : Buffer)
    (signingInput : string) (signature : Buffer) :
  signing_input options now_ms random = Ok signingInput ->
  exists h p d,
    signingInput = (h ++ "." ++ p ++ "." ++ d)%string
    /\ String_split "." (signingInput ++ "." ++ toString_base64url signature)
       = [h; p; d; toString_base64url signature].
Proof.
  unfold signingInput_of.
  destruct (parseExpiry _) as [seconds|]; [|discriminate]. cbn [bind].
  intros [= <-]. do 3 eexists. split; [reflexivity|].
  repeat (rewrite append_assoc; cbn [String.append]).
  rewrite !split_app by (apply occurs_base64urlEncode; reflexivity).
  now rewrite split_free by (apply occurs_toString_base64url; reflexivity).
Qed.

(** C1 fails. Where [verify] decodes the signature segment it passes the
    bytes through a UTF-8 string, so what reaches the library is the signature
    with its ill-formed parts replaced. Whenever that is not 64 bytes long,
    the token that [create] has just returned is rejected, under any verify
    options and at any time. *)
Theorem create_then_verify_rejects (options : CreateTokenOptions) (now_ms : Z) (random : Buffer)
    (signingInput : string) (signature : Buffer) :
  only_64_byte_signatures ed_verify ->
  signing_input options now_ms random = Ok signingInput ->
  ed_sign (Buffer_from_utf8 signingInput) (privateKey (identity options)) = Some signature ->
  List.length (utf8_decode Boundary signature) <> 64%nat ->
  create options now_ms random = Ok (signingInput ++ "." ++ toString_base64url signature)%string
  /\ forall verify_options now_ms',
       exists e,
         verify (signingInput ++ "." ++ toString_base64url signature)%string
           verify_options now_ms' = Err e.
Proof.
  intros Hlib Hsi Hsig Hlen. split.
  - rewrite create_signingInput, Hsi. unfold sign. cbn [bind]. now rewrite Hsig.
  - intros verify_options now_ms'.
    destruct (split_signingInput _ _ _ _ signature Hsi) as (h & p & d & _ & Hsplit).
    unfold AATToken_verify. rewrite Hsplit.
    destruct (parse_json _ _) as [header|e]; [cbn [bind] | now exists e].
    destruct (parse_json _ _) as [payload|e]; [cbn [bind] | now exists e].
    destruct (parse_json _ _) as [chain|e]; [cbn [bind] | now exists e].
    destruct (get payload "iss") as [iss|e]; [cbn [bind] | now exists e].
    destruct (string_receiver iss) as [did|e]; [cbn [bind] | now exists e].
    unfold AgentIdentity_verify, base64urlDecode.
    rewrite Buffer_from_utf8_toString, Buffer_from_base64url_toString.
    destruct (didToPublicKey did) as [pk|e]; [cbn [bind] | now exists e].
    specialize (Hlib (utf8_decode Boundary signature)
                  (Buffer_from_utf8 (h ++ "." ++ p ++ "." ++ d)) pk Hlen).
    destruct (ed_verify _ _ _) as [[|]|]; [congruence | |]; cbn; eauto.
Qed.

Lemma verify_decoded (token : string) (payload : JSValue) (check : result bool)
    (options : VerifyOptions) (now_ms : Z) :
  token_decodes token payload check ->
  match check with
  | Ok true =>
      match checks payload options now_ms with
      | Ok _ => exists t, verify token options now_ms = Ok t /\ token_payload t = payload
      | Err e => verify token options now_ms = Err e
      end
  | Ok false => verify token options now_ms = Err InvalidSignature
  | Err e => verify token options now_ms = Err e
  end.
Proof.
  intros (h & p & d & s & header & chain & did & Hsplit & Hh & Hp & Hd & Hiss & Hcheck).
  unfold AATToken_verify, parse_json.
  rewrite Hsplit, Hh, Hp, Hd. cbn [bind]. rewrite Hiss. cbn [bind string_receiver].
  rewrite Hcheck. destruct check as [[|]|e]; cbn [bind negb]; try reflexivity.
  unfold claim_checks.
  destruct (get payload "exp") as [exp|e]; cbn [bind]; [|reflexivity].
  destruct (js_lt _ _ exp _); [reflexivity|].
  destruct (match verify_audience options with Some _ => _ | None => _ end) as [[|]|e];
    cbn [bind negb]; try reflexivity.
  destruct (match requiredScopes options with Some _ => _ | None => _ end) as [[|]|e];
    cbn [bind negb]; try reflexivity.
  eexists. split; reflexivity.
Qed.

Lemma verify_undecoded (token : string) (options : VerifyOptions) (now_ms : Z) :
  (forall payload check, ~ token_decodes token payload check) ->
  verify token options now_ms = Err MalformedToken
  \/ verify token options now_ms = Err SyntaxError
  \/ verify token options now_ms = Err TypeError.
Proof.
  intros Hno. unfold AATToken_verify, parse_json.
  destruct (String_split "." token) as [|h [|p [|d [|s [|? ?]]]]] eqn:Hsplit; auto.
  destruct (JSON_parse (base64urlDecode h)) as [header|] eqn:Hh; cbn [bind]; auto.
  destruct (JSON_parse (base64urlDecode p)) as [payload|] eqn:Hp; cbn [bind]; auto.
  destruct (JSON_parse (base64urlDecode d)) as [chain|] eqn:Hd; cbn [bind]; auto.
  destruct (get payload "iss") as [iss|e] eqn:Hiss; cbn [bind].
  - destruct iss; cbn [string_receiver bind]; auto.
    exfalso. eapply Hno. do 7 eexists. repeat split; eassumption.
  - destruct payload; cbn in Hiss; try discriminate; injection Hiss as <-; auto.
Qed.

Lemma decodes_or_not (token : string) :
  (exists payload check, token_decodes token payload check)
  \/ (forall payload check, ~ token_decodes token payload check).
Proof.
  unfold decodes.
  destruct (String_split "." token) as [|h [|p [|d [|s [|? ?]]]]] eqn:Hsplit;
    try (right; intros ? ? (? & ? & ? & ? & ? & ? & ? & H & _); discriminate).
  destruct (JSON_parse (base64urlDecode h)) as [header|] eqn:Hh;
    [|right; intros ? ? (? & ? & ? & ? & ? & ? & ? & [= <- <- <- <-] & ? & _); congruence].
  destruct (JSON_parse (base64urlDecode p)) as [payload|] eqn:Hp;
    [|right; intros ? ? (? & ? & ? & ? & ? & ? & ? & [= <- <- <- <-] & ? & ? & _); congruence].
  destruct (JSON_parse (base64urlDecode d)) as [chain|] eqn:Hd;
    [|right; intros ? ? (? & ? & ? & ? & ? & ? & ? & [= <- <- <- <-] & ? & ? & ? & _);
      congruence].
  destruct (get payload "iss") as [[| | | |did| |]|e] eqn:Hiss;
    try (right; intros ? ? (? & ? & ? & ? & ? & ? & ? & [= <- <- <- <-] & ? & ? & ? & ? & _);
         congruence).
  left. do 9 eexists. repeat split; eassumption.
Qed.

Lemma AgentIdentity_verify_errors (signature message : Buffer) (did : string) (e : error) :
  AgentIdentity_verify ed_verify signature message did = Err e ->
  e = InvalidDIDFormat \/ e = CryptoError.
Proof.
  unfold AgentIdentity_verify, didToPublicKey.
  destruct (String_split ":" did) as [|? [|? [|? [|? [|? ?]]]]]; cbn [bind];
    try (intros [= <-]; now left).
  destruct (_ || _); cbn [bind]; [intros [= <-]; now left|].
  destruct (ed_verify _ _ _); [discriminate | intros [= <-]; now right].
Qed.

(** C3, amended. The signature is checked before any claim: [verify] fails
    with [TokenExpired], [AudienceMismatch] or [InsufficientScope] only on a
    token whose signature check has answered true. A token whose check does
    not answer true fails, whatever its claims and the verify options, with
    [InvalidSignature] when the check answers false, and with the exception of
    the check when it throws: [InvalidDIDFormat], for a [payload.iss] that is
    not an AgentAuth DID, or the exception of the Ed25519 library. *)
Theorem signature_checked_first (token : string) (options : VerifyOptions) (now_ms : Z) :
  (forall payload check,
      token_decodes token payload check ->
      check <> Ok true ->
      match check with
      | Ok _ => verify token options now_ms = Err InvalidSignature
      | Err e =>
          verify token options now_ms = Err e /\ (e = InvalidDIDFormat \/ e = CryptoError)
      end)
  /\ (forall e,
        verify token options now_ms = Err e ->
        e = TokenExpired \/ e = AudienceMismatch \/ e = InsufficientScope ->
        exists payload, token_decodes token payload (Ok true)).
Proof.
  split.
  - intros payload check D Hcheck.
    pose proof (verify_decoded _ _ _ options now_ms D) as H.
    destruct check as [[|]|e]; [congruence | exact H | split; [exact H|]].
    destruct D as (? & ? & ? & ? & ? & ? & ? & _ & _ & _ & _ & _ & D).
    now apply AgentIdentity_verify_errors in D.
  - intros e He Hkind.
    destruct (decodes_or_not token) as [(payload & check & D)|Hno].
    + pose proof (verify_decoded _ _ _ options now_ms D) as H.
      destruct check as [[|]|e'].
      * now exists payload.
      * rewrite H in He. injection He as <-. decompose [or] Hkind; discriminate.
      * rewrite H in He. injection He as <-.
        destruct D as (? & ? & ? & ? & ? & ? & ? & _ & _ & _ & _ & _ & D).
        apply AgentIdentity_verify_errors in D.
        destruct D; subst; decompose [or] Hkind; discriminate.
    + destruct (verify_undecoded token options now_ms Hno) as [H|[H|H]];
        rewrite H in He; injection He as <-; decompose [or] Hkind; discriminate.
Qed.

Lemma claim_checks_errors (payload : JSValue) (options : VerifyOptions) (now_ms : Z)
    (e : error) :
  checks payload options now_ms = Err e ->
  e = TypeError \/ e = TokenExpired \/ e = AudienceMismatch \/ e = InsufficientScope.
Proof.
  unfold claim_checks.
  destruct (get payload "exp") as [exp|e'] eqn:Eexp; cbn [bind];
    [|intros [= <-]; left; eapply get_error, Eexp].
  destruct (js_lt _ _ exp _); [intros [= <-]; auto|].
  match goal with
  | |- context [bind ?r _] =>
      assert (Ha : forall e, r = Err e -> e = TypeError);
      [|destruct r as [[|]|e']; cbn [bind negb];
        [ | intros [= <-]; auto | intros [= <-]; left; now apply Ha]]
  end.
  { intros e'. destruct (verify_audience options) as [a|]; [|discriminate].
    destruct (truthy (JStr a)); [|discriminate].
    destruct (get payload "aud") eqn:E; cbn [bind]; [discriminate|].
    intros [= <-]. eapply get_error, E. }
  match goal with
  | |- context [bind ?r _] =>
      assert (Hs : forall e, r = Err e -> e = TypeError);
      [|destruct r as [[|]|e']; cbn [bind negb];
        [discriminate | intros [= <-]; auto | intros [= <-]; left; now apply Hs]]
  end.
  intros e'. destruct (requiredScopes options) as [required|]; [|discriminate].
  apply every_error. intros s e''.
  destruct (get payload "scope") as [scope|] eqn:E; cbn [bind].
  - destruct scope; cbn [includes]; congruence.
  - intros [= <-]. eapply get_error, E.
Qed.

(** The errors of [verify]. *)
Lemma verify_error_kinds (token : string) (options : VerifyOptions) (now_ms : Z) (e : error) :
  verify token options now_ms = Err e ->
  In e [MalformedToken; SyntaxError; TypeError; InvalidDIDFormat; CryptoError;
        InvalidSignature; TokenExpired; AudienceMismatch; InsufficientScope].
Proof.
  intros He.
  destruct (decodes_or_not token) as [(payload & check & D)|Hno].
  - pose proof (verify_decoded _ _ _ options now_ms D) as H.
    destruct check as [[|]|e'].
    + destruct (checks payload options now_ms) as [|e'] eqn:Ec.
      * destruct H as (t & Ht & _). congruence.
      * rewrite H in He. injection He as <-.
        apply claim_checks_errors in Ec.
        destruct Ec as [->|[->|[->| ->]]]; cbn; repeat (first [left; reflexivity | right]).
    + rewrite H in He. injection He as <-. cbn; repeat (first [left; reflexivity | right]).
    + rewrite H in He. injection He as <-.
      destruct D as (? & ? & ? & ? & ? & ? & ? & _ & _ & _ & _ & _ & D).
      apply AgentIdentity_verify_errors in D.
      destruct D as [->| ->]; cbn; repeat (first [left; reflexivity | right]).
  - destruct (verify_undecoded token options now_ms Hno) as [H|[H|H]];
      rewrite H in He; injection He as <-; cbn; repeat (first [left; reflexivity | right]).
Qed.

Lemma less_numbers (a b : Z) : less (JNum a) (JNum b) = (a <? b)%Z.
Proof. reflexivity. Qed.

(** C2, amended. A token that decodes and whose [exp] is strictly less than
    the current time, in seconds, fails with [TokenExpired] when its signature
    check answers true, and only then: when the check answers false the token
    fails with [InvalidSignature], and when the check throws, with the
    exception of the check, which is [InvalidDIDFormat] or the exception of
    the Ed25519 library. *)
Theorem expired_token_rejected (token : string) (payload : JSValue) (check : result bool)
    (options : VerifyOptions) (now_ms exp : Z) :
  token_decodes token payload check ->
  get payload "exp" = Ok (JNum exp) ->
  (exp < now_ms / 1000)%Z ->
  match check with
  | Ok true => verify token options now_ms = Err TokenExpired
  | Ok false => verify token options now_ms = Err InvalidSignature
  | Err e => verify token options now_ms = Err e /\ (e = InvalidDIDFormat \/ e = CryptoError)
  end.
Proof.
  intros D Hexp Hlt.
  pose proof (verify_decoded _ _ _ options now_ms D) as H.
  destruct check as [[|]|e]; [|exact H|split; [exact H|]].
  - cbn in H. unfold claim_checks in H. rewrite Hexp in H. cbn [bind] in H.
    rewrite less_numbers in H.
    apply Z.ltb_lt in Hlt. now rewrite Hlt in H.
  - destruct D as (? & ? & ? & ? & ? & ? & ? & _ & _ & _ & _ & _ & D).
    now apply AgentIdentity_verify_errors in D.
Qed.

(** C7, amended. On a token that passes the signature, expiry and audience
    checks, and whose [scope] is a list, verification with required scopes
    [required] fails with [InsufficientScope] if and only if some required
    scope is not, as the very same string, an element of [scope]; when all
    are, it succeeds. *)
Theorem insufficient_scope_iff (token : string) (payload exp : JSValue)
    (options : VerifyOptions) (now_ms : Z) (granted : list JSValue) (required : list string) :
  token_decodes token payload (Ok true) ->
  get payload "exp" = Ok exp ->
  less exp (JNum (now_ms / 1000)) = false ->
  (forall a, verify_audience options = Some a ->
             a = EmptyString \/ get payload "aud" = Ok (JStr a)) ->
  get payload "scope" = Ok (JArr granted) ->
  requiredScopes options = Some required ->
  (verify token options now_ms = Err InsufficientScope
   <-> ~ (forall s, In s required -> In (JStr s) granted))
  /\ ((forall s, In s required -> In (JStr s) granted) ->
      exists t, verify token options now_ms = Ok t /\ token_payload t = payload).
Proof.
  intros D Hexp Hnow Haud Hscope Hreq.
  pose proof (verify_decoded _ _ _ options now_ms D) as H. cbn in H.
  unfold claim_checks in H. rewrite Hexp in H. cbn [bind] in H. rewrite Hnow in H.
  assert (Ea : match verify_audience options with
               | Some audience =>
                   if truthy (JStr audience) then
                     aud <- get payload "aud" ;; Ok (strict_eq aud (JStr audience))
                   else Ok true
               | None => Ok true
               end = Ok true).
  { destruct (verify_audience options) as [a|]; [|reflexivity].
    destruct (Haud a eq_refl) as [->|E]; [reflexivity|].
    rewrite E. cbn [bind]. destruct (truthy (JStr a)); [|reflexivity].
    f_equal. now apply strict_eq_JStr. }
  rewrite Ea in H. cbn [bind negb] in H. rewrite Hreq in H.
  rewrite (every_total _ (fun s => existsb (fun x => strict_eq x (JStr s)) granted)) in H
    by (intros s _; rewrite Hscope; reflexivity).
  cbn [bind] in H.
  destruct (forallb _ required) eqn:E; cbn [negb] in H.
  - assert (Hall : forall s, In s required -> In (JStr s) granted).
    { intros s Hs. rewrite forallb_forall in E. now apply existsb_strict_eq, E. }
    destruct H as (t & Ht & Hp). split.
    + rewrite Ht. split; [discriminate | intros Hn; now destruct Hn].
    + intros _. now exists t.
  - assert (Hnot : ~ (forall s, In s required -> In (JStr s) granted)).
    { intros Hall. assert (forallb (fun s => existsb (fun x => strict_eq x (JStr s)) granted)
                             required = true); [|congruence].
      apply forallb_forall. intros s Hs. now apply existsb_strict_eq, Hall. }
    split; [now split | intros Hall; now destruct Hnot].
Qed.

(** What does hold of [create] followed by [verify]: when the signature is
    well-formed UTF-8, so that it survives the decoding, the library accepts
    the signature it made, the JSON texts are read back, and the token has not
    reached its expiry [exp], verification succeeds and returns the payload that was signed,
    hence the issuer, subject, audience and scopes that were given. *)
Lemma create_then_verify_accepts (options : CreateTokenOptions) (now_ms : Z) (random : Buffer)
    (seconds : JSNumber) (exp : Z) (signingInput : string) (signature : Buffer) (now_ms' : Z) :
  parseExpiry (option_default "1h" (expiresIn options)) = Ok seconds ->
  signing_input options now_ms random = Ok signingInput ->
  ed_sign (Buffer_from_utf8 signingInput) (privateKey (identity options)) = Some signature ->
  utf8_decode Boundary signature = signature ->
  did (identity options) = publicKeyToDID (publicKey (identity options)) ->
  ed_verify signature (Buffer_from_utf8 signingInput) (publicKey (identity options)) = Some true ->
  reads_back JSON_stringify JSON_parse (created_header options) ->
  reads_back JSON_stringify JSON_parse (created_payload options now_ms seconds random) ->
  reads_back JSON_stringify JSON_parse (created_chain options) ->
  Number_plus (now_ms / 1000) seconds = Finite exp ->
  (now_ms' / 1000 <= exp)%Z ->
  exists token t,
    create options now_ms random = Ok token
    /\ verify token no_options now_ms' = Ok t
    /\ token_payload t = created_payload options now_ms seconds random
    /\ getAgent t = Ok (JStr (did (identity options)))
    /\ getDelegator t = Ok (JStr (delegator options))
    /\ get (token_payload t) "aud" = Ok (JStr (audience options))
    /\ getScopes t = Ok (JArr (map JStr (scopes options))).
Proof.
  intros Hsec Hsi Hsig Hutf Hdid Hlib Hh Hp Hd Hfinite Hexp.
  exists (signingInput ++ "." ++ toString_base64url signature)%string.
  assert (Hcreate : create options now_ms random
                    = Ok (signingInput ++ "." ++ toString_base64url signature)%string).
  { rewrite create_signingInput, Hsi. unfold sign. cbn [bind]. now rewrite Hsig. }
  unfold signingInput_of in Hsi. rewrite Hsec in Hsi. cbn [bind] in Hsi.
  injection Hsi as Hsi.
  assert (D : token_decodes (signingInput ++ "." ++ toString_base64url signature)%string
                (created_payload options now_ms seconds random) (Ok true)).
  { do 7 eexists. split; [|split; [exact Hh|split; [exact Hp|split; [exact Hd|split;
                                                                         [reflexivity|]]]]].
    - rewrite <- Hsi.
      repeat (rewrite append_assoc; cbn [String.append]).
      rewrite !split_app by (apply occurs_base64urlEncode; reflexivity).
      now rewrite split_free by (apply occurs_toString_base64url; reflexivity).
    - unfold AgentIdentity_verify, base64urlDecode, didToPublicKey.
      rewrite Buffer_from_utf8_toString, Buffer_from_base64url_toString, Hutf.
      rewrite Hdid, split_publicKeyToDID.
      cbn [String.eqb Ascii.eqb Bool.eqb negb orb bind].
      rewrite Buffer_from_base64url_toString. cbn [String.append].
      rewrite Hsi. now rewrite Hlib. }
  pose proof (verify_decoded _ _ _ no_options now_ms' D) as H. cbn beta iota in H.
  assert (Hc : checks (created_payload options now_ms seconds random) no_options now_ms'
               = Ok tt).
  { unfold claim_checks, no_options, created_payload.
    cbn [verify_audience requiredScopes bind negb get lookup String.eqb Ascii.eqb Bool.eqb].
    rewrite Hfinite. cbn [Number_value].
    rewrite less_numbers.
    replace (exp <? now_ms' / 1000)%Z with false
      by (symmetry; apply Z.ltb_ge; exact Hexp).
    reflexivity. }
  rewrite Hc in H.
  destruct H as (t & Ht & Hpay).
  exists t. split; [exact Hcreate|]. split; [exact Ht|]. split; [exact Hpay|].
  unfold getAgent, getDelegator, getScopes. rewrite Hpay. repeat split.
Qed.

End TokenProperties.

(** *** The sample platform at work *)

Lemma Sample_only_64_byte_signatures : only_64_byte_signatures Sample.verify.
Proof.
  intros signature message pk Hlen. unfold Sample.verify.
  destruct (Nat.eqb_spec (List.length signature) 64); [contradiction | discriminate].
Qed.

Lemma sample_token_decodes : sample_decodes sample_token sample_payload (Ok true).
Proof.
  exists (segment 0 sample_token), (segment 1 sample_token), (segment 2 sample_token),
         (segment 3 sample_token), (parsed (base64urlDecode (segment 0 sample_token))),
         (parsed (base64urlDecode (segment 2 sample_token))), (did sample_identity).
  repeat split; vm_compute; reflexivity.
Qed.

Lemma forged_token_decodes : sample_decodes forged_token sample_payload (Ok false).
Proof.
  exists (segment 0 forged_token), (segment 1 forged_token), (segment 2 forged_token),
         (segment 3 forged_token), (parsed (base64urlDecode (segment 0 forged_token))),
         (parsed (base64urlDecode (segment 2 forged_token))), (did sample_identity).
  repeat split; vm_compute; reflexivity.
Qed.

Lemma create_then_verify_rejects_witness :
  only_64_byte_signatures Sample.verify
  /\ List.length high_signature = 64%nat
  /\ List.length (utf8_decode Boundary high_signature) = 128%nat
  /\ AATToken_create Sample.stringify Sample.sign (sample_options high_identity)
       created_at sample_random = Ok high_token
  /\ exists e, sample_verify high_token no_options minute_later = Err e.
Proof.
  split; [exact Sample_only_64_byte_signatures|].
  split; [vm_compute; reflexivity|]. split; [vm_compute; reflexivity|].
  destruct (create_then_verify_rejects Sample.stringify Sample.parse Sample.sign Sample.verify
              Sample.StringToNumber Sample.ObjectToString
              (sample_options high_identity) created_at sample_random
              high_signingInput high_signature Sample_only_64_byte_signatures)
    as [Hcreate Hverify].
  - vm_compute. reflexivity.
  - vm_compute. reflexivity.
  - vm_compute. discriminate.
  - split; [exact Hcreate | apply Hverify].
Defined.

Lemma signature_checked_first_witness :
  sample_decodes forged_token sample_payload (Ok false)
  /\ sample_verify forged_token no_options minute_later = Err InvalidSignature.
Proof.
  split; [exact forged_token_decodes|].
  refine (proj1 (signature_checked_first Sample.parse Sample.verify Sample.StringToNumber
                   Sample.ObjectToString forged_token no_options minute_later)
            sample_payload (Ok false) forged_token_decodes _).
  discriminate.
Defined.

(** C3 as stated fails: a token whose signature does not verify is rejected
    with another error than [InvalidSignature] when the check throws. The
    token of an issuer that is not an AgentAuth DID fails with
    [InvalidDIDFormat], and the sample token with its signature cut to ten
    bytes with the exception of the library. *)
Lemma unverified_token_not_InvalidSignature :
  sample_decodes foreign_token foreign_payload (Err InvalidDIDFormat)
  /\ sample_verify foreign_token no_options minute_later = Err InvalidDIDFormat
  /\ sample_decodes short_token sample_payload (Err CryptoError)
  /\ sample_verify short_token no_options minute_later = Err CryptoError.
Proof.
  split; [|split; [vm_compute; reflexivity|split; [|vm_compute; reflexivity]]].
  - exists (segment 0 foreign_token), (segment 1 foreign_token), (segment 2 foreign_token),
           (segment 3 foreign_token), (parsed (base64urlDecode (segment 0 foreign_token))),
           (parsed (base64urlDecode (segment 2 foreign_token))), "did:web:agent.example.com".
    repeat split; vm_compute; reflexivity.
  - exists (segment 0 short_token), (segment 1 short_token), (segment 2 short_token),
           (segment 3 short_token), (parsed (base64urlDecode (segment 0 short_token))),
           (parsed (base64urlDecode (segment 2 short_token))), (did sample_identity).
    repeat split; vm_compute; reflexivity.
Qed.

(** C2 as stated fails: a token whose [exp] is in the past and whose signature
    does not verify is rejected for its signature, not as expired. *)
Lemma expired_forged_token_not_TokenExpired :
  sample_decodes forged_token sample_payload (Ok false)
  /\ get sample_payload "exp" = Ok (JNum 1700003600)
  /\ (1700003600 < day_later / 1000)%Z
  /\ sample_verify forged_token no_options day_later = Err InvalidSignature
  /\ sample_verify forged_token no_options day_later <> Err TokenExpired.
Proof.
  split; [exact forged_token_decodes|].
  repeat split; try (vm_compute; reflexivity). vm_compute. discriminate.
Qed.

(** The tampered token of the repository's test: its 64 bytes reach the
    library as 192, each byte 0xff replaced by the three bytes of U+FFFD, and
    what rejects it is the exception of the library. *)
Example tampered_token_rejected :
  List.length (Buffer_from_utf8 (base64urlDecode (segment 3 tampered_token))) = 192%nat
  /\ sample_verify tampered_token no_options minute_later = Err CryptoError.
Proof. split; vm_compute; reflexivity. Qed.

Lemma expired_token_rejected_witness :
  sample_decodes sample_token sample_payload (Ok true)
  /\ get sample_payload "exp" = Ok (JNum 1700003600)
  /\ (1700003600 < day_later / 1000)%Z
  /\ sample_verify sample_token no_options day_later = Err TokenExpired.
Proof.
  split; [exact sample_token_decodes|].
  split; [reflexivity|]. split; [reflexivity|].
  apply (expired_token_rejected Sample.parse Sample.verify Sample.StringToNumber
           Sample.ObjectToString sample_token sample_payload (Ok true) no_options day_later
           1700003600 sample_token_decodes); reflexivity.
Defined.

(** C7 as stated fails: with a required scope that the token does not grant,
    an expired token is rejected as expired, not for its scope. *)
Lemma expired_token_not_InsufficientScope :
  sample_decodes sample_token sample_payload (Ok true)
  /\ get sample_payload "scope" = Ok (JArr [JStr "mail.read"])
  /\ ~ In (JStr "mail.send") [JStr "mail.read"]
  /\ sample_verify sample_token
       {| verify_audience := None; requiredScopes := Some ["mail.send"] |} day_later
     = Err TokenExpired.
Proof.
  split; [exact sample_token_decodes|].
  split; [reflexivity|]. split; [|vm_compute; reflexivity].
  intros [H|[]]. discriminate.
Qed.

Lemma insufficient_scope_iff_witness :
  sample_decodes sample_token sample_payload (Ok true)
  /\ sample_verify sample_token
       {| verify_audience := Some "https://api.example.com";
          requiredScopes := Some ["mail.read"; "mail.*"] |} minute_later
     = Err InsufficientScope.
Proof.
  split; [exact sample_token_decodes|].
  apply (insufficient_scope_iff Sample.parse Sample.verify Sample.StringToNumber
           Sample.ObjectToString sample_token sample_payload (JNum 1700003600)
           {| verify_audience := Some "https://api.example.com";
              requiredScopes := Some ["mail.read"; "mail.*"] |}
           minute_later [JStr "mail.read"] ["mail.read"; "mail.*"]
           sample_token_decodes eq_refl eq_refl).
  - intros a [= <-]. now right.
  - reflexivity.
  - reflexivity.
  - intros H. specialize (H "mail.*" (or_intror (or_introl eq_refl))).
    destruct H as [H|[]]. discriminate.
Defined.

(** The scenario of the specification: the sample token verifies with its
    audience and its scope, and names its agent and its delegator; with
    another audience it is rejected. *)
Example sample_token_verifies :
  match sample_verify sample_token
          {| verify_audience := Some "https://api.example.com";
             requiredScopes := Some ["mail.read"] |} minute_later with
  | Ok t =>
      getAgent t = Ok (JStr (did sample_identity))
      /\ getDelegator t = Ok (JStr "did:web:alice.example.com")
  | Err _ => False
  end
  /\ sample_verify sample_token
       {| verify_audience := Some "https://other.com"; requiredScopes := None |}
       minute_later = Err AudienceMismatch.
Proof. vm_compute. repeat split. Qed.

(** ** Enforcement *)

Lemma negb_ltb (a b : string) : negb (String.ltb a b) = String.leb b a.
Proof.
  unfold String.ltb, String.leb. rewrite (String.compare_antisym a b).
  now destruct (String.compare b a).
Qed.

Lemma strict_eq_false (v : JSValue) : strict_eq v (JBool false) = true <-> v = JBool false.
Proof.
  destruct v as [| |[|]| | | |]; cbn; split; try discriminate; try reflexivity.
Qed.

Section EnforcementProperties.

Variable JSON_parse : string -> option JSValue.
Variable ed_verify : Buffer -> Buffer -> Buffer -> option bool.
Variable StringToNumber : string -> option Z.
Variable ObjectToString : JSValue -> string.

Local Abbreviation enforce := (enforceConstraints StringToNumber ObjectToString).
Local Abbreviation verify_agent :=
  (verifyAgent JSON_parse ed_verify StringToNumber ObjectToString).
Local Abbreviation greater_eq := (js_ge StringToNumber ObjectToString).
Local Abbreviation less_eq := (js_le StringToNumber ObjectToString).

(** The test that [enforceConstraints] makes of one window. *)
Local Abbreviation window_test currentTime :=
  (fun window : JSValue =>
     start <- get window "start" ;;
     if greater_eq (JStr currentTime) start then
       end_ <- get window "end" ;;
       Ok (less_eq (JStr currentTime) end_)
     else Ok false).

(** A comparison with [undefined] is false. *)
Lemma ge_undefined (v : JSValue) : greater_eq v JUndefined = false.
Proof.
  unfold js_ge, IsLessThan. cbn [ToPrimitive ToNumber].
  destruct (ToPrimitive ObjectToString v); cbn [ToNumber];
    try reflexivity; now destruct (StringToNumber _).
Qed.

(** Two strings compare in the order of strings. *)
Lemma ge_strings (a b : string) : greater_eq (JStr a) (JStr b) = String.leb b a.
Proof. unfold js_ge, IsLessThan. cbn [ToPrimitive]. apply negb_ltb. Qed.

Lemma le_strings (a b : string) : less_eq (JStr a) (JStr b) = String.leb a b.
Proof. unfold js_le, IsLessThan. cbn [ToPrimitive]. apply negb_ltb. Qed.

Lemma window_test_error (currentTime : string) (window : JSValue) (e : error) :
  window_test currentTime window = Err e -> e = TypeError.
Proof.
  cbn beta. destruct (get window "start") as [start|e'] eqn:E; cbn [bind].
  - destruct (js_ge _ _ _ _); [|discriminate].
    destruct (get window "end") as [end_|e''] eqn:E'; cbn [bind]; [discriminate|].
    intros [= <-]. eapply get_error, E'.
  - intros [= <-]. eapply get_error, E.
Qed.

(** [enforceConstraints] fails with [DelegationExpired] only on a delegation
    that has a property [expiresAt] of its own, with a value that is not
    falsy and below the clock, and with [DelegationNotYetValid] only on one
    that has such a [notBefore] above the clock. *)
Lemma time_bound_errors (delegation : JSValue) (token : AATToken) (now : Z)
    (timeString : string) :
  (enforce delegation token now timeString = Err DelegationExpired ->
   exists v, get delegation "expiresAt" = Ok v /\ truthy v = true
             /\ js_lt StringToNumber ObjectToString v (JNum now) = true)
  /\ (enforce delegation token now timeString = Err DelegationNotYetValid ->
      exists v, get delegation "notBefore" = Ok v /\ truthy v = true
                /\ js_gt StringToNumber ObjectToString v (JNum now) = true).
Proof.
  unfold enforceConstraints.
  destruct (get delegation "constraints") as [c0|e] eqn:Ec; cbn [bind];
    [|apply get_error in Ec; subst; split; discriminate].
  set (c := if truthy c0 then c0 else JObj []).
  destruct (get delegation "expiresAt") as [expiresAt|e] eqn:Ea; cbn [bind];
    [|apply get_error in Ea; subst; split; discriminate].
  destruct (truthy expiresAt && js_lt _ _ expiresAt (JNum now)) eqn:Eexp.
  { apply andb_prop in Eexp as [? ?]. split; [eauto | discriminate]. }
  destruct (get delegation "notBefore") as [notBefore|e] eqn:Eb; cbn [bind];
    [|apply get_error in Eb; subst; split; discriminate].
  destruct (truthy notBefore && js_gt _ _ notBefore (JNum now)) eqn:Enb.
  { apply andb_prop in Enb as [? ?]. split; [discriminate | eauto]. }
  destruct (get c "requireMFA") as [mfa|e] eqn:Emfa; cbn [bind];
    [|apply get_error in Emfa; subst; split; discriminate].
  destruct (truthy mfa); [split; discriminate|].
  destruct (get c "allowSubdelegation") as [sub|e] eqn:Esub; cbn [bind];
    [|apply get_error in Esub; subst; split; discriminate].
  match goal with
  | |- context [bind ?r _] =>
      assert (Hr : forall e, r = Err e -> e = TypeError);
      [|destruct r as [[|]|e]; cbn [bind];
        [split; discriminate | | rewrite (Hr e eq_refl); split; discriminate]]
  end.
  { intros e. destruct (strict_eq sub (JBool false)); [|discriminate].
    destruct (get (token_delegationChain token) "length") eqn:E; cbn [bind]; [discriminate|].
    intros [= <-]. eapply get_error, E. }
  destruct (get c "timeWindows") as [tw|e] eqn:Etw; cbn [bind];
    [|apply get_error in Etw; subst; split; discriminate].
  match goal with
  | |- context [bind ?r _] =>
      assert (Hw : forall e, r = Err e -> e = TypeError);
      [|destruct r as [[|]|e]; cbn [bind];
        [ | split; discriminate | rewrite (Hw e eq_refl); split; discriminate]]
  end.
  { intros e. destruct (truthy tw); [|discriminate].
    destruct (get tw "length") eqn:E; cbn [bind]; [discriminate|].
    intros [= <-]. eapply get_error, E. }
  destruct (array_some _ tw) as [[|]|e] eqn:E; cbn [bind negb]; try (split; discriminate).
  apply array_some_error in E; [subst; split; discriminate|].
  intros x e'. apply window_test_error.
Qed.

(** X21. The same of [verifyAgent]: it fails with [DelegationExpired] or
    [DelegationNotYetValid] only when the first delegation of the verified
    token has the property [expiresAt], or [notBefore], of its own. *)
Lemma verifyAgent_time_bound_errors (token : string) (options : VerifyAgentOptions)
    (now_ms now : Z) (timeString : string) :
  (verify_agent token options now_ms now timeString = Err DelegationExpired ->
   exists verified delegation v,
     AATToken_verify JSON_parse ed_verify StringToNumber ObjectToString token
       {| verify_audience := Some (agent_audience options);
          requiredScopes := Some (agent_requiredScopes options) |} now_ms = Ok verified
     /\ get0 (token_delegationChain verified) = Ok delegation
     /\ get delegation "expiresAt" = Ok v /\ truthy v = true)
  /\ (verify_agent token options now_ms now timeString = Err DelegationNotYetValid ->
      exists verified delegation v,
        AATToken_verify JSON_parse ed_verify StringToNumber ObjectToString token
          {| verify_audience := Some (agent_audience options);
             requiredScopes := Some (agent_requiredScopes options) |} now_ms = Ok verified
        /\ get0 (token_delegationChain verified) = Ok delegation
        /\ get delegation "notBefore" = Ok v /\ truthy v = true).
Proof.
  unfold verifyAgent.
  destruct (AATToken_verify _ _ _ _ token _ now_ms) as [verified|e] eqn:Ev; cbn [bind].
  2:{ apply verify_error_kinds in Ev. cbn in Ev.
      split; intros [= ->]; decompose [or] Ev; try discriminate; contradiction. }
  destruct (get0 (token_delegationChain verified)) as [delegation|e] eqn:Ed; cbn [bind].
  2:{ assert (e = TypeError) by (destruct (token_delegationChain verified) as [| | | |[|]| |];
                                   cbn in Ed; congruence).
      subst. split; discriminate. }
  destruct (truthy delegation); cbn [negb]; [|split; discriminate].
  assert (Hrest : forall r : result VerifiedAgent,
             r = (agentDID <- getAgent verified ;;
                  delegatorDID <- getDelegator verified ;;
                  scopes <- getScopes verified ;;
                  Ok {| verified_agentDID := agentDID;
                        verified_delegatorDID := delegatorDID;
                        verified_scopes := scopes;
                        verified_delegation := delegation;
                        verified_token := verified |}) ->
             r <> Err DelegationExpired /\ r <> Err DelegationNotYetValid).
  { intros r ->. unfold getAgent, getDelegator, getScopes.
    repeat match goal with
           | |- context [bind (get ?v ?k) _] =>
               let E := fresh "E" in
               destruct (get v k) eqn:E; cbn [bind];
               [|apply get_error in E; subst; split; discriminate]
           end.
    split; discriminate. }
  destruct (time_bound_errors delegation verified now timeString) as [Hexpired Hearly].
  remember (match agent_enforceConstraints options with
            | Some false => Ok tt
            | _ => enforce delegation verified now timeString
            end) as r eqn:Er.
  assert (Hr : forall e, r = Err e -> enforce delegation verified now timeString = Err e).
  { intros e. subst r. destruct (agent_enforceConstraints options) as [[|]|]; auto. discriminate. }
  destruct r as [u|e]; cbn [bind].
  - destruct (Hrest _ eq_refl) as [Hx Hy].
    split; intros H; [now apply Hx in H | now apply Hy in H].
  - specialize (Hr e eq_refl).
    split; intros [= ->];
      [destruct (Hexpired Hr) as (v & ? & ? & _) | destruct (Hearly Hr) as (v & ? & ? & _)];
      exists verified, delegation, v; repeat split; assumption.
Qed.

(** C10. On a delegation that [createDelegation] has built, the two time-bound
    checks of [enforceConstraints] never fire: it reads [expiresAt] and
    [notBefore] on the delegation itself, where [createDelegation] puts
    nothing, the bounds being kept under [constraints]. Whatever the
    constraints, the token and the clock, the outcome is neither
    [DelegationExpired] nor [DelegationNotYetValid]. *)
Theorem created_delegation_time_bounds_not_enforced
    (options : CreateDelegationOptions) (uuid created : string)
    (token : AATToken) (now : Z) (timeString : string) :
  get (createDelegation options uuid created) "expiresAt" = Ok JUndefined
  /\ get (createDelegation options uuid created) "notBefore" = Ok JUndefined
  /\ enforce (createDelegation options uuid created) token now timeString
     <> Err DelegationExpired
  /\ enforce (createDelegation options uuid created) token now timeString
     <> Err DelegationNotYetValid.
Proof.
  assert (Ha : get (createDelegation options uuid created) "expiresAt" = Ok JUndefined)
    by reflexivity.
  assert (Hb : get (createDelegation options uuid created) "notBefore" = Ok JUndefined)
    by reflexivity.
  destruct (time_bound_errors (createDelegation options uuid created) token now timeString)
    as [Hexpired Hearly].
  repeat split; try assumption; intros H.
  - destruct (Hexpired H) as (v & Hv & Ht & _).
    rewrite Ha in Hv. injection Hv as <-. discriminate.
  - destruct (Hearly H) as (v & Hv & Ht & _).
    rewrite Hb in Hv. injection Hv as <-. discriminate.
Qed.

(** On a delegation whose only constraint is a non-empty list of windows,
    enforcement is the test of the windows. *)
Lemma enforce_windows (options : CreateDelegationOptions)
    (window : JSValue) (windows : list JSValue) (uuid created : string)
    (token : AATToken) (now : Z) (timeString : string) :
  enforce (windowed_delegation options (window :: windows) uuid created) token now timeString
  = (isInWindow <- some_of (window_test (substring 0 5 timeString)) (window :: windows) ;;
     if negb isInWindow then Err OutsideTimeWindow else Ok tt).
Proof.
  unfold enforceConstraints, windowed_delegation, createDelegation.
  cbn [constraints truthy].
  cbn [get lookup String.eqb Ascii.eqb Bool.eqb bind truthy andb strict_eq].
  unfold js_gt, IsLessThan. cbn [ToPrimitive ToNumber List.length].
  replace (0 <? Z.of_nat (S (List.length windows)))%Z with true
    by (symmetry; apply Z.ltb_lt; lia).
  reflexivity.
Qed.

Lemma ranges_tested (currentTime : string) (ranges : list (string * string)) :
  some_of (window_test currentTime) (map range_object ranges)
  = Ok (existsb (in_range currentTime) ranges).
Proof.
  induction ranges as [|[from to] ranges IH]; [reflexivity|].
  cbn [map some_of existsb]. unfold range_object at 1, in_range at 1.
  cbn [get lookup String.eqb Ascii.eqb Bool.eqb bind fst snd].
  rewrite ge_strings.
  destruct (String.leb from currentTime); cbn [bind andb]; [|exact IH].
  cbn [range_object get lookup String.eqb Ascii.eqb Bool.eqb bind fst snd].
  rewrite le_strings.
  destruct (String.leb currentTime to); cbn [orb]; [reflexivity | exact IH].
Qed.

(** Windows that hold nothing but a [start] and an [end], for only
    constraint. *)
Lemma range_windows_check (options : CreateDelegationOptions)
    (range : string * string) (ranges : list (string * string)) (uuid created : string)
    (token : AATToken) (now : Z) (timeString : string) :
  enforce (windowed_delegation options (map range_object (range :: ranges)) uuid created)
    token now timeString
  = if existsb (in_range (substring 0 5 timeString)) (range :: ranges)
    then Ok tt
    else Err OutsideTimeWindow.
Proof.
  cbn [map]. rewrite enforce_windows.
  change (range_object range :: map range_object ranges)
    with (map range_object (range :: ranges)).
  rewrite ranges_tested. cbn [bind].
  now destruct (existsb _ _).
Qed.

(** The test of the windows reads their [start] and their [end] and nothing
    else of them. *)
Lemma windows_tested (currentTime : string) (windows : list JSValue)
    (ranges : list (string * string)) :
  Forall2 window_range windows ranges ->
  some_of (window_test currentTime) windows = Ok (existsb (in_range currentTime) ranges).
Proof.
  induction 1 as [|window range windows ranges (fields & -> & Hstart & Hend) _ IH];
    [reflexivity|].
  cbn [some_of existsb get bind]. unfold in_range at 1.
  rewrite Hstart, ge_strings.
  destruct (String.leb (fst range) currentTime); cbn [bind andb]; [|exact IH].
  rewrite Hend, le_strings.
  destruct (String.leb currentTime (snd range)); cbn [orb]; [reflexivity | exact IH].
Qed.

(** C8, amended. When enforcement reaches the check of the time windows, the
    delegation being neither expired nor not yet valid, its constraints
    requiring no MFA and not refusing the subdelegation of the token, and the
    list of windows is not empty, each window holding a string [start] and a
    string [end] among its properties, the check passes if and only if the
    server's local time of day, the string ['HH:MM'], lies between the
    [start] and the [end] of at least one window, both included, in the order
    of strings; otherwise it fails with [OutsideTimeWindow]. Whatever else a
    window declares, days, hours or time zone, and whatever the other
    constraints are, has no part in it. *)
Theorem time_window_check (delegation expiresAt notBefore : JSValue)
    (fields : list (string * JSValue)) (windows : list JSValue)
    (ranges : list (string * string)) (token : AATToken) (now : Z) (timeString : string) :
  get delegation "constraints" = Ok (JObj fields) ->
  get delegation "expiresAt" = Ok expiresAt ->
  truthy expiresAt && js_lt StringToNumber ObjectToString expiresAt (JNum now) = false ->
  get delegation "notBefore" = Ok notBefore ->
  truthy notBefore && js_gt StringToNumber ObjectToString notBefore (JNum now) = false ->
  truthy (lookup "requireMFA" fields) = false ->
  (lookup "allowSubdelegation" fields = JBool false ->
   exists chain, token_delegationChain token = JArr chain /\ (List.length chain <= 1)%nat) ->
  lookup "timeWindows" fields = JArr windows ->
  windows <> [] ->
  Forall2 window_range windows ranges ->
  enforce delegation token now timeString
  = if existsb (in_range (substring 0 5 timeString)) ranges
    then Ok tt
    else Err OutsideTimeWindow.
Proof.
  intros Hc Hexpires Hexpired Hbefore Hearly Hmfa Hsub Hwindows Hne Hranges.
  unfold enforceConstraints. rewrite Hc, Hexpires, Hbefore.
  cbn [get bind truthy]. rewrite Hexpired, Hearly, Hmfa, Hwindows.
  assert (Hgate : (if strict_eq (lookup "allowSubdelegation" fields) (JBool false) then
                     len <- get (token_delegationChain token) "length" ;;
                     Ok (js_gt StringToNumber ObjectToString len (JNum 1))
                   else Ok false) = Ok false).
  { destruct (strict_eq _ _) eqn:E; [|reflexivity].
    apply strict_eq_false in E. destruct (Hsub E) as (chain & -> & Hlen).
    cbn [get String.eqb Ascii.eqb Bool.eqb bind].
    unfold js_gt, IsLessThan. cbn [ToPrimitive ToNumber].
    f_equal. apply Z.ltb_ge. lia. }
  rewrite Hgate.
  cbn [bind truthy get String.eqb Ascii.eqb Bool.eqb array_some].
  unfold js_gt at 1, IsLessThan. cbn [ToPrimitive ToNumber].
  replace (0 <? Z.of_nat (List.length windows))%Z with true
    by (symmetry; apply Z.ltb_lt; destruct windows; [congruence | cbn [List.length]; lia]).
  rewrite (windows_tested _ _ _ Hranges). cbn [bind].
  now destruct (existsb _ _).
Qed.

Lemma no_core_window_matches (currentTime : string) (windows : list TimeWindow) :
  some_of (window_test currentTime) (map TimeWindow_object windows) = Ok false.
Proof.
  induction windows as [|w windows IH]; [reflexivity|].
  cbn [map some_of]. unfold TimeWindow_object at 1.
  cbn [get lookup String.eqb Ascii.eqb Bool.eqb bind].
  rewrite ge_undefined. cbn [bind]. exact IH.
Qed.

(** X17. A window of the core ([days], [hours], [tz]) has no [start] and no [end]:
    a delegation with a non-empty list of such windows is rejected with
    [OutsideTimeWindow] at every time, whatever the windows. *)
Lemma core_time_windows_always_rejected (options : CreateDelegationOptions)
    (window : TimeWindow) (windows : list TimeWindow) (uuid created : string)
    (token : AATToken) (now : Z) (timeString : string) :
  enforce (windowed_delegation options (map TimeWindow_object (window :: windows)) uuid created)
    token now timeString = Err OutsideTimeWindow.
Proof.
  cbn [map]. rewrite enforce_windows.
  change (TimeWindow_object window :: map TimeWindow_object windows)
    with (map TimeWindow_object (window :: windows)).
  now rewrite no_core_window_matches.
Qed.

End EnforcementProperties.

(** C8 as stated fails: on a Tuesday at 22:13, the moment is outside a
    window that declares Monday mornings, in UTC, and the check lets the
    action pass, the window's [start] and [end] spanning the day. *)
Lemma declared_days_and_hours_ignored :
  within_window monday_morning {| weekday := "tue"; time_of_day := "22:13" |} = false
  /\ window_range (declared_window monday_morning ("00:00", "23:59")) ("00:00", "23:59")
  /\ sample_enforce
       (windowed_delegation sample_delegation_options
          [declared_window monday_morning ("00:00", "23:59")] sample_uuid sample_created)
       no_token created_at server_time
     = Ok tt.
Proof.
  split; [vm_compute; reflexivity|]. split; [|vm_compute; reflexivity].
  eexists. repeat split.
Qed.

Lemma time_window_check_witness :
  sample_enforce
    (createDelegation
       (constrained_options
          [("maxUses", JNum 5);
           ("timeWindows",
             JArr [declared_window monday_morning ("09:00", "10:00");
                   range_object ("22:00", "23:00")])])
       sample_uuid sample_created)
    no_token created_at server_time
  = Ok tt.
Proof.
  unfold sample_enforce.
  refine (eq_trans
            (time_window_check Sample.StringToNumber Sample.ObjectToString
               _ JUndefined JUndefined
               [("maxUses", JNum 5);
                ("timeWindows",
                  JArr [declared_window monday_morning ("09:00", "10:00");
                        range_object ("22:00", "23:00")])]
               [declared_window monday_morning ("09:00", "10:00");
                range_object ("22:00", "23:00")]
               [("09:00", "10:00"); ("22:00", "23:00")]
               _ _ _ _ _ _ _ _ _ _ _ _ _) _).
  - reflexivity.
  - reflexivity.
  - reflexivity.
  - reflexivity.
  - reflexivity.
  - reflexivity.
  - discriminate.
  - reflexivity.
  - discriminate.
  - repeat constructor; eexists; repeat split.
  - vm_compute. reflexivity.
Defined.

(** The other way round, with the windows of the core: one that covers every
    day and every hour contains the moment, and the check rejects the action,
    such a window having no [start] and no [end]. *)
Lemma whole_week_window_rejected :
  within_window whole_week {| weekday := "tue"; time_of_day := "22:13" |} = true
  /\ sample_enforce
       (windowed_delegation sample_delegation_options [TimeWindow_object whole_week]
          sample_uuid sample_created)
       no_token created_at server_time
     = Err OutsideTimeWindow.
Proof. split; vm_compute; reflexivity. Qed.

(** Office hours in the enforcement layer's format, before, within and after
    them. *)
Example office_hours :
  let delegation :=
    windowed_delegation sample_delegation_options [range_object ("09:00", "17:00")]
      sample_uuid sample_created in
  sample_enforce delegation no_token created_at "08:59:59 GMT+0000 (Coordinated Universal Time)"
    = Err OutsideTimeWindow
  /\ sample_enforce delegation no_token created_at "09:00:00 GMT+0000 (Coordinated Universal Time)"
     = Ok tt
  /\ sample_enforce delegation no_token created_at "17:00:59 GMT+0000 (Coordinated Universal Time)"
     = Ok tt
  /\ sample_enforce delegation no_token created_at server_time = Err OutsideTimeWindow.
Proof. repeat split; vm_compute; reflexivity. Qed.

(** A delegation of the core whose [notAfter] is long past, and one whose
    [notBefore] is far ahead, pass enforcement. *)
Example stale_delegation_passes :
  sample_enforce (bounded_delegation [("notAfter", JStr "2001-01-01T00:00:00.000Z")])
    no_token created_at server_time = Ok tt
  /\ sample_enforce (bounded_delegation [("notBefore", JStr "2999-01-01T00:00:00.000Z")])
       no_token created_at server_time = Ok tt.
Proof. split; vm_compute; reflexivity. Qed.

(** * Further properties of the code *)

(** ** Text and encodings *)

(** *** Splitting and joining *)

Lemma String_split_nonempty (sep : ascii) (s : string) : String_split sep s <> [].
Proof.
  destruct s as [|c s]; cbn [String_split]; [discriminate|].
  destruct (Ascii.eqb c sep); [discriminate|].
  destruct (String_split sep s); discriminate.
Qed.

Lemma join_split (sep : ascii) (s : string) : join sep (String_split sep s) = s.
Proof.
  induction s as [|c s IH]; [reflexivity|].
  cbn [String_split]. destruct (Ascii.eqb_spec c sep) as [->|Hc].
  - pose proof (String_split_nonempty sep s) as Hne.
    destruct (String_split sep s) as [|p ps]; [contradiction|].
    cbn [join String.append]. cbn [join] in IH. now rewrite IH.
  - pose proof (String_split_nonempty sep s) as Hne.
    destruct (String_split sep s) as [|p ps]; [contradiction|].
    destruct ps as [|q ps]; cbn [join String.append] in *; now rewrite IH.
Qed.

Lemma split_parts_free (sep : ascii) (s : string) :
  Forall (fun part => occurs sep part = false) (String_split sep s).
Proof.
  induction s as [|c s IH]; [repeat constructor|].
  cbn [String_split]. destruct (Ascii.eqb_spec c sep) as [->|Hc].
  - constructor; [reflexivity | exact IH].
  - pose proof (String_split_nonempty sep s) as Hne.
    destruct (String_split sep s) as [|p ps]; [contradiction|].
    inversion IH as [|? ? Hp Hps]; subst.
    constructor; [|exact Hps].
    cbn [occurs]. rewrite Hp. apply orb_false_iff. split; [|reflexivity].
    now apply Ascii.eqb_neq.
Qed.

Lemma split_length (sep : ascii) (s : string) :
  List.length (String_split sep s) = S (count_char sep s).
Proof.
  induction s as [|c s IH]; [reflexivity|].
  cbn [String_split count_char]. destruct (Ascii.eqb c sep).
  - cbn [List.length]. now rewrite IH.
  - pose proof (String_split_nonempty sep s) as Hne.
    destruct (String_split sep s) as [|p ps]; [contradiction|].
    cbn [List.length] in *. now rewrite IH.
Qed.

Lemma occurs_app (c : ascii) (s t : string) :
  occurs c (s ++ t) = occurs c s || occurs c t.
Proof.
  induction s as [|x s IH]; [reflexivity|].
  cbn [String.append occurs]. now rewrite IH, orb_assoc.
Qed.

(** *** The base64url text of a buffer *)

Lemma all_chars_string_of_chars (p : ascii -> bool) (l : list ascii) :
  all_chars p (string_of_chars l) = forallb p l.
Proof. induction l as [|c l IH]; [reflexivity|]. cbn. now rewrite IH. Qed.

Lemma base64url_char_alphabet (n : N) :
  (n < 64)%N -> is_base64url_char (base64url_char n) = true.
Proof. intros H. small_cases n. Qed.

Lemma toString_base64url_alphabet (b : Buffer) :
  all_chars is_base64url_char (toString_base64url b) = true.
Proof.
  unfold toString_base64url. rewrite all_chars_string_of_chars, forallb_forall.
  intros c Hc. apply in_map_iff in Hc as (n & <- & Hn).
  apply base64url_char_alphabet.
  pose proof (base64_groups_lt b) as H. rewrite Forall_forall in H. now apply H.
Qed.

Lemma length_string_of_chars (l : list ascii) :
  String.length (string_of_chars l) = List.length l.
Proof. induction l as [|c l IH]; [reflexivity|]. cbn. now rewrite IH. Qed.

Lemma base64_groups_length (b : Buffer) :
  List.length (base64_groups b) = ((4 * List.length b + 2) / 3)%nat.
Proof.
  induction b as [| x | x y | x y z l IH] using list_ind3;
    cbn [base64_groups List.length]; try reflexivity.
  rewrite IH.
  replace (4 * S (S (S (List.length l))) + 2)%nat with ((4 * List.length l + 2) + 4 * 3)%nat by lia.
  rewrite Nat.div_add by lia. lia.
Qed.

Lemma toString_base64url_length (b : Buffer) :
  String.length (toString_base64url b) = ((4 * List.length b + 2) / 3)%nat.
Proof.
  unfold toString_base64url.
  now rewrite length_string_of_chars, length_map, base64_groups_length.
Qed.

(** *** Well-formed text passes the decoder unchanged *)

Lemma utf8_decode_well_formed_fuel (n : nat) :
  forall bs, (List.length bs <= n)%nat ->
    well_formed_utf8 bs = true -> utf8_decode Boundary bs = bs.
Proof.
  induction n as [|n IH]; intros bs Hlen Hwf.
  { destruct bs; [reflexivity | cbn in Hlen; lia]. }
  destruct bs as [|b1 rest1]; [reflexivity|].
  cbn [List.length] in Hlen.
  cbn [well_formed_utf8] in Hwf. cbn [utf8_decode]. unfold utf8_lead.
  destruct (N_in 0 127 (Byte.to_N b1)) eqn:H1.
  { cbn [fst snd app]. f_equal. apply IH; [lia | exact Hwf]. }
  destruct rest1 as [|b2 rest2]; [discriminate|]. cbn [List.length] in Hlen.
  destruct (N_in 194 223 (Byte.to_N b1)) eqn:H2.
  { apply andb_prop in Hwf as [Hb2 Hwf].
    cbn [fst snd app utf8_decode]. rewrite Hb2. cbn [app].
    do 2 f_equal. apply IH; [lia | exact Hwf]. }
  destruct rest2 as [|b3 rest3]; [discriminate|]. cbn [List.length] in Hlen.
  destruct (N_in 224 239 (Byte.to_N b1)) eqn:H3.
  { apply andb_prop in Hwf as [Hwf Hrest]. apply andb_prop in Hwf as [Hb2 Hb3].
    cbn [fst snd app utf8_decode]. rewrite Hb2. cbn [app utf8_decode]. rewrite Hb3. cbn [app].
    do 3 f_equal. apply IH; [lia | exact Hrest]. }
  destruct rest3 as [|b4 rest4]; [discriminate|]. cbn [List.length] in Hlen.
  apply andb_prop in Hwf as [Hwf Hrest]. apply andb_prop in Hwf as [Hwf Hb4].
  apply andb_prop in Hwf as [Hwf Hb3]. apply andb_prop in Hwf as [H4 Hb2].
  rewrite H4.
  cbn [fst snd app utf8_decode]. rewrite Hb2. cbn [app utf8_decode]. rewrite Hb3.
  cbn [app utf8_decode]. rewrite Hb4. cbn [app].
  do 4 f_equal. apply IH; [lia | exact Hrest].
Qed.

Lemma utf8_decode_well_formed (bs : Buffer) :
  well_formed_utf8 bs = true -> utf8_decode Boundary bs = bs.
Proof. apply (utf8_decode_well_formed_fuel (List.length bs)). lia. Qed.

Lemma segment_roundtrip (str : string) :
  well_formed_utf8 (Buffer_from_utf8 str) = true ->
  base64urlDecode (base64urlEncode str) = str.
Proof.
  intros Hwf. unfold base64urlDecode, base64urlEncode, toString_utf8.
  rewrite Buffer_from_base64url_toString, (utf8_decode_well_formed _ Hwf).
  apply string_of_list_byte_of_string.
Qed.

(** X1. Encoding a text as a token segment and decoding the segment gives
    the text back: [base64urlDecode (base64urlEncode str) = str] for every
    string whose UTF-8 encoding is well formed, that is, every JavaScript
    string without a lone surrogate; and the segment is made of letters,
    digits, [-] and [_] only, four for every three bytes of the text. *)
Theorem base64urlDecode_base64urlEncode (str : string) :
  well_formed_utf8 (Buffer_from_utf8 str) = true ->
  base64urlDecode (base64urlEncode str) = str
  /\ all_chars is_base64url_char (base64urlEncode str) = true
  /\ String.length (base64urlEncode str)
     = ((4 * List.length (Buffer_from_utf8 str) + 2) / 3)%nat.
Proof.
  intros Hwf. split; [now apply segment_roundtrip|]. split.
  - apply toString_base64url_alphabet.
  - apply toString_base64url_length.
Qed.

Lemma reads_back_well_formed (JSON_stringify : JSValue -> string)
    (JSON_parse : string -> option JSValue) (v : JSValue) :
  well_formed_utf8 (Buffer_from_utf8 (JSON_stringify v)) = true ->
  JSON_parse (JSON_stringify v) = Some v ->
  reads_back JSON_stringify JSON_parse v.
Proof.
  intros Hwf Hp. unfold reads_back. now rewrite segment_roundtrip.
Qed.

(** *** Hexadecimal text *)

Lemma hex_digit_lower (n : N) : (n < 16)%N -> is_lower_hex (hex_digit n) = true.
Proof. intros H. small_cases n. Qed.

Lemma toString_hex_lower (b : Buffer) : all_chars is_lower_hex (toString_hex b) = true.
Proof.
  induction b as [|x b IH]; [reflexivity|].
  pose proof (to_N_lt x) as Hx.
  cbn [toString_hex all_chars].
  rewrite !hex_digit_lower by euclid. exact IH.
Qed.

Lemma toString_hex_length (b : Buffer) :
  String.length (toString_hex b) = (2 * List.length b)%nat.
Proof. induction b as [|x b IH]; cbn [toString_hex String.length List.length]; lia. Qed.

(** X2. The nonce is the random bytes in lower-case hexadecimal, two digits
    for each byte (32 characters for the 16 bytes that [generateNonce]
    draws), and it determines the bytes: two nonces are equal only if the
    random bytes were. *)
Theorem generateNonce_hex (random : Buffer) :
  String.length (generateNonce random) = (2 * List.length random)%nat
  /\ all_chars is_lower_hex (generateNonce random) = true
  /\ Buffer_from_hex (generateNonce random) = random
  /\ forall random', generateNonce random = generateNonce random' -> random = random'.
Proof.
  unfold generateNonce. split; [apply toString_hex_length|].
  split; [apply toString_hex_lower|].
  split; [apply Buffer_from_hex_toString_hex|].
  intros random' H. apply (f_equal Buffer_from_hex) in H.
  now rewrite !Buffer_from_hex_toString_hex in H.
Qed.

Lemma base64urlDecode_base64urlEncode_witness :
  well_formed_utf8 (Buffer_from_utf8 sample_text) = true
  /\ base64urlDecode (base64urlEncode sample_text) = sample_text
  /\ base64urlEncode sample_text = "Y2Fmw6nigqzwn6SW".
Proof.
  split; [vm_compute; reflexivity|].
  split; [|vm_compute; reflexivity].
  apply (base64urlDecode_base64urlEncode sample_text). vm_compute. reflexivity.
Defined.

(** ** Identities *)

(** X3. [didToPublicKey] accepts exactly the DIDs made of the prefix
    ['did:agentauth:ed25519:'] and a last part without a colon, and returns
    the base64url decoding of that part, whatever its length and its
    characters; every other string fails with [InvalidDIDFormat]. *)
Theorem didToPublicKey_accepts_exactly (did : string) :
  (forall pk,
      didToPublicKey did = Ok pk
      <-> exists body,
            did = ("did:agentauth:ed25519:" ++ body)%string
            /\ occurs ":" body = false
            /\ pk = Buffer_from_base64url body)
  /\ (forall e, didToPublicKey did = Err e -> e = InvalidDIDFormat).
Proof.
  unfold didToPublicKey. split; [intros pk; split|].
  - pose proof (join_split ":" did) as Hjoin.
    pose proof (split_parts_free ":" did) as Hfree.
    destruct (String_split ":" did) as [|p0 [|p1 [|p2 [|p3 [|? ?]]]]]; try discriminate.
    destruct (String.eqb_spec p0 "did") as [->|]; [|discriminate].
    destruct (String.eqb_spec p1 "agentauth") as [->|]; [|discriminate].
    destruct (String.eqb_spec p2 "ed25519") as [->|]; [|discriminate].
    cbn [negb orb]. intros [= <-]. exists p3.
    split; [now rewrite <- Hjoin|]. split; [|reflexivity].
    inversion Hfree as [|? ? _ H1]; subst.
    inversion H1 as [|? ? _ H2]; subst.
    inversion H2 as [|? ? _ H3]; subst.
    inversion H3 as [|? ? H4 _]; subst. exact H4.
  - intros (body & -> & Hfree & ->).
    change ("did:agentauth:ed25519:" ++ body)%string
      with ("did" ++ String ":" ("agentauth" ++ String ":" ("ed25519" ++ String ":" body)))%string.
    rewrite !split_app by reflexivity. now rewrite (split_free _ _ Hfree).
  - intros e.
    destruct (String_split ":" did) as [|? [|? [|? [|? [|? ?]]]]]; try congruence.
    destruct (_ || _); congruence.
Qed.

Section MoreIdentityProperties.

Variable ed_getPublicKey : Buffer -> option Buffer.
Variable ed_sign : Buffer -> Buffer -> option Buffer.
Variable ed_verify : Buffer -> Buffer -> Buffer -> option bool.

Lemma constructed_derived (x : AgentIdentity) :
  constructed ed_getPublicKey x -> derived ed_getPublicKey x.
Proof.
  intros [(seed & md & H)|(hex & md & H)];
    [eapply create_derived | eapply fromPrivateKey_derived]; exact H.
Qed.

Lemma verify_derived (x : AgentIdentity) (signature message : Buffer) :
  derived ed_getPublicKey x ->
  AgentIdentity_verify ed_verify signature message (did x)
  = match ed_verify signature message (publicKey x) with
    | Some b => Ok b
    | None => Err CryptoError
    end.
Proof.
  intros [_ Hdid]. unfold AgentIdentity_verify, didToPublicKey.
  rewrite Hdid, split_publicKeyToDID.
  cbn [String.eqb Ascii.eqb Bool.eqb negb orb bind].
  now rewrite Buffer_from_base64url_toString.
Qed.

(** X4. Verification by DID is verification by public key: for an identity
    [x] that [create] or [fromPrivateKey] has returned, [didToPublicKey]
    gives back the public key of [x] from [x.did], and
    [AgentIdentity.verify] called with [x.did] returns the answer of the
    library for that key; an exception of the library is the only
    failure. *)
Theorem verify_with_own_DID (x : AgentIdentity) (signature message : Buffer) :
  constructed ed_getPublicKey x ->
  didToPublicKey (did x) = Ok (publicKey x)
  /\ AgentIdentity_verify ed_verify signature message (did x)
     = match ed_verify signature message (publicKey x) with
       | Some b => Ok b
       | None => Err CryptoError
       end.
Proof.
  intros Hx. apply constructed_derived in Hx as D.
  split; [|now apply verify_derived].
  destruct D as [_ ->]. unfold didToPublicKey. rewrite split_publicKeyToDID.
  cbn [String.eqb Ascii.eqb Bool.eqb negb orb].
  now rewrite Buffer_from_base64url_toString.
Qed.

(** X5. What an identity signs verifies under its DID: with a library that
    verifies its own signatures, the signature that [x.sign] returns for a
    message passes [AgentIdentity.verify] for that message and [x.did]. *)
Theorem sign_then_verify (x : AgentIdentity) (message signature : Buffer) :
  signatures_verify ed_getPublicKey ed_sign ed_verify ->
  constructed ed_getPublicKey x ->
  sign ed_sign x message = Ok signature ->
  AgentIdentity_verify ed_verify signature message (did x) = Ok true.
Proof.
  intros Hlib Hx Hs. apply constructed_derived in Hx as D.
  rewrite (verify_derived x signature message D).
  destruct D as [Hpk _]. unfold sign in Hs.
  destruct (ed_sign message (privateKey x)) as [s|] eqn:E; [|discriminate].
  injection Hs as ->. now rewrite (Hlib _ _ _ _ Hpk E).
Qed.

(** X6. The DID identifies the public key: two identities that the
    constructors have returned have the same DID exactly when they have the
    same public key. *)
Theorem same_DID_same_publicKey (x y : AgentIdentity) :
  constructed ed_getPublicKey x -> constructed ed_getPublicKey y ->
  (did x = did y <-> publicKey x = publicKey y).
Proof.
  intros Hx Hy.
  apply constructed_derived in Hx as [_ Hx]. apply constructed_derived in Hy as [_ Hy].
  rewrite Hx, Hy. split; [|congruence].
  intros H.
  assert (E : Buffer_from_base64url (toString_base64url (publicKey x))
              = Buffer_from_base64url (toString_base64url (publicKey y))).
  { apply (f_equal (String_split ":")) in H.
    rewrite !split_publicKeyToDID in H. congruence. }
  now rewrite !Buffer_from_base64url_toString in E.
Qed.

End MoreIdentityProperties.

Lemma Sample_signatures_verify :
  signatures_verify Sample.getPublicKey Sample.sign Sample.verify.
Proof.
  intros sk pk message signature Hpk Hs.
  unfold Sample.sign in Hs. rewrite Hpk in Hs. injection Hs as <-.
  unfold Sample.getPublicKey in Hpk.
  destruct (Nat.eqb_spec (List.length sk) 32) as [Hlen|]; [|discriminate].
  injection Hpk as <-.
  unfold Sample.verify, Sample.tag.
  rewrite length_app, repeat_length, length_rev, Hlen. cbn [Nat.eqb andb Nat.add].
  f_equal. generalize (rev sk ++ repeat (byte_of_N (Sample.checksum message)) 32).
  induction l as [|b l IH]; [reflexivity|].
  cbn [Sample.Buffer_eqb]. rewrite IH.
  now destruct b.
Qed.

Lemma sample_identity_constructed : constructed Sample.getPublicKey sample_identity.
Proof. left. exists sample_seed, (metadata sample_identity). reflexivity. Qed.

Lemma high_identity_constructed : constructed Sample.getPublicKey high_identity.
Proof. left. exists (repeat xff 32), JUndefined. reflexivity. Qed.

Lemma verify_with_own_DID_witness :
  constructed Sample.getPublicKey sample_identity
  /\ didToPublicKey (did sample_identity) = Ok (publicKey sample_identity)
  /\ AgentIdentity_verify Sample.verify (repeat x00 64) [] (did sample_identity) = Ok false.
Proof.
  split; [exact sample_identity_constructed|].
  destruct (verify_with_own_DID Sample.getPublicKey Sample.verify sample_identity
              (repeat x00 64) [] sample_identity_constructed) as [Hkey Hverify].
  split; [exact Hkey|]. rewrite Hverify. vm_compute. reflexivity.
Defined.

Lemma sign_then_verify_witness :
  signatures_verify Sample.getPublicKey Sample.sign Sample.verify
  /\ sign Sample.sign sample_identity (Buffer_from_utf8 "hello")
     = Ok (Sample.tag (Buffer_from_utf8 "hello") (publicKey sample_identity))
  /\ AgentIdentity_verify Sample.verify
       (Sample.tag (Buffer_from_utf8 "hello") (publicKey sample_identity))
       (Buffer_from_utf8 "hello") (did sample_identity) = Ok true.
Proof.
  split; [exact Sample_signatures_verify|].
  split; [vm_compute; reflexivity|].
  apply (sign_then_verify Sample.getPublicKey Sample.sign Sample.verify sample_identity
           (Buffer_from_utf8 "hello")
           (Sample.tag (Buffer_from_utf8 "hello") (publicKey sample_identity))
           Sample_signatures_verify sample_identity_constructed).
  vm_compute. reflexivity.
Defined.

Lemma same_DID_same_publicKey_witness :
  constructed Sample.getPublicKey sample_identity
  /\ constructed Sample.getPublicKey high_identity
  /\ did sample_identity <> did high_identity.
Proof.
  split; [exact sample_identity_constructed|].
  split; [exact high_identity_constructed|].
  intros H.
  apply (same_DID_same_publicKey Sample.getPublicKey sample_identity high_identity
           sample_identity_constructed high_identity_constructed) in H.
  vm_compute in H. discriminate.
Defined.

(** ** Tokens *)

Lemma every_true {A : Type} (f : A -> result bool) (l : list A) :
  every f l = Ok true -> forall x, In x l -> f x = Ok true.
Proof.
  induction l as [|y l IH]; cbn [every]; intros H x Hx; [destruct Hx|].
  destruct (f y) as [[|]|e] eqn:E; cbn [bind] in H; try discriminate.
  destruct Hx as [<-|Hx]; [exact E | now apply IH].
Qed.

Section MoreTokenProperties.

Variable JSON_stringify : JSValue -> string.
Variable JSON_parse : string -> option JSValue.
Variable ed_sign : Buffer -> Buffer -> option Buffer.
Variable ed_verify : Buffer -> Buffer -> Buffer -> option bool.
Variable StringToNumber : string -> option Z.
Variable ObjectToString : JSValue -> string.

Local Abbreviation create := (AATToken_create JSON_stringify ed_sign).
Local Abbreviation verify := (AATToken_verify JSON_parse ed_verify StringToNumber ObjectToString).
Local Abbreviation signing_input := (signingInput_of JSON_stringify).
Local Abbreviation token_decodes := (decodes JSON_parse ed_verify).
Local Abbreviation checks := (claim_checks StringToNumber ObjectToString).
Local Abbreviation less := (js_lt StringToNumber ObjectToString).

(** X7. The format of a created token: exactly four segments separated by
    dots, no padding; the first three are the base64url of the JSON texts of
    the header, the payload (issuer and actor the identity's DID, [exp] the
    issue time plus the parsed [expiresIn], one hour when none is given) and
    the delegation chain, and the fourth decodes to the signature that the
    library made, with the identity's private key, of the first three joined
    by dots. *)
Theorem create_token_format (options : CreateTokenOptions) (now_ms : Z) (random : Buffer)
    (token : string) :
  create options now_ms random = Ok token ->
  exists seconds signature,
    let h := base64urlEncode (JSON_stringify (created_header options)) in
    let p := base64urlEncode (JSON_stringify (created_payload options now_ms seconds random)) in
    let d := base64urlEncode (JSON_stringify (created_chain options)) in
    parseExpiry (option_default "1h" (expiresIn options)) = Ok seconds
    /\ ed_sign (Buffer_from_utf8 (h ++ "." ++ p ++ "." ++ d)) (privateKey (identity options))
       = Some signature
    /\ String_split "." token = [h; p; d; toString_base64url signature]
    /\ count_char "." token = 3%nat
    /\ occurs "=" token = false
    /\ map Buffer_from_base64url (String_split "." token)
       = [Buffer_from_utf8 (JSON_stringify (created_header options));
          Buffer_from_utf8 (JSON_stringify (created_payload options now_ms seconds random));
          Buffer_from_utf8 (JSON_stringify (created_chain options));
          signature].
Proof.
  rewrite create_signingInput.
  destruct (signing_input options now_ms random) as [signingInput|] eqn:Hsi; [|discriminate].
  cbn [bind]. unfold sign.
  destruct (ed_sign _ _) as [signature|] eqn:Hsig; [|discriminate]. cbn [bind].
  intros [= <-].
  destruct (split_signingInput _ _ _ _ _ signature Hsi) as (h & p & d & Hshape & Hsplit).
  unfold signingInput_of in Hsi.
  destruct (parseExpiry _) as [seconds|] eqn:Hsec; [|discriminate]. cbn [bind] in Hsi.
  injection Hsi as Hsi.
  exists seconds, signature. cbn zeta.
  assert (Hparts : String_split "." (signingInput ++ "." ++ toString_base64url signature)
                   = [base64urlEncode (JSON_stringify (created_header options));
                      base64urlEncode
                        (JSON_stringify (created_payload options now_ms seconds random));
                      base64urlEncode (JSON_stringify (created_chain options));
                      toString_base64url signature]).
  { rewrite <- Hsi.
    repeat (rewrite append_assoc; cbn [String.append]).
    rewrite !split_app by (apply occurs_base64urlEncode; reflexivity).
    now rewrite split_free by (apply occurs_toString_base64url; reflexivity). }
  split; [reflexivity|].
  split; [rewrite <- Hsi in Hsig; exact Hsig|].
  split; [exact Hparts|].
  split.
  { pose proof (split_length "." (signingInput ++ "." ++ toString_base64url signature)) as Hl.
    rewrite Hparts in Hl. cbn [List.length] in Hl.
    injection Hl as Hl. symmetry. exact Hl. }
  split.
  { rewrite <- Hsi.
    repeat (rewrite append_assoc; cbn [String.append]).
    repeat (rewrite occurs_app; cbn [occurs Ascii.eqb Bool.eqb orb]).
    rewrite !occurs_base64urlEncode by reflexivity.
    now rewrite occurs_toString_base64url by reflexivity. }
  match goal with
  | |- map _ ?l = _ =>
      replace l with [base64urlEncode (JSON_stringify (created_header options));
                      base64urlEncode
                        (JSON_stringify (created_payload options now_ms seconds random));
                      base64urlEncode (JSON_stringify (created_chain options));
                      toString_base64url signature]
        by (symmetry; exact Hparts)
  end.
  cbn [map]. unfold base64urlEncode.
  now rewrite !Buffer_from_base64url_toString.
Qed.

(** X8. [AATToken.create] fails in two ways only: with
    [InvalidDurationFormat], exactly when [expiresIn] was given and is not a
    duration ([parseExpiry] rejects it), before anything is signed; and with
    the library's exception when signing throws. Leaving [expiresIn] out never
    fails on the duration. *)
Theorem create_failures (options : CreateTokenOptions) (now_ms : Z) (random : Buffer) :
  (create options now_ms random = Err InvalidDurationFormat
   <-> exists given, expiresIn options = Some given
                     /\ parseExpiry given = Err InvalidDurationFormat)
  /\ (forall e, create options now_ms random = Err e ->
        e = InvalidDurationFormat
        \/ e = CryptoError
           /\ exists signingInput,
                signing_input options now_ms random = Ok signingInput
                /\ ed_sign (Buffer_from_utf8 signingInput) (privateKey (identity options)) = None).
Proof.
  rewrite create_signingInput. unfold signingInput_of.
  destruct (expiresIn options) as [given|]; cbn [option_default].
  - destruct (parseExpiry given) as [seconds|e'] eqn:Hp; cbn [bind].
    + unfold sign. destruct (ed_sign _ _) eqn:Hsig; cbn [bind]; split.
      * split; [discriminate | intros (? & [= <-] & ?); congruence].
      * discriminate.
      * split; [discriminate | intros (? & [= <-] & ?); congruence].
      * intros e [= <-]. right. split; [reflexivity|]. eexists. split; [reflexivity | exact Hsig].
    + assert (e' = InvalidDurationFormat) as ->.
      { unfold parseExpiry in Hp. destruct (expiry_match given) as [[? ?]|]; congruence. }
      split.
      * split; [intros _; now exists given | reflexivity].
      * intros e [= <-]. now left.
  - change (parseExpiry "1h") with (Ok (Finite 3600) : result JSNumber). cbn [bind].
    unfold sign. destruct (ed_sign _ _) eqn:Hsig; cbn [bind]; split.
    * split; [discriminate | intros (? & [=] & _)].
    * discriminate.
    * split; [discriminate | intros (? & [=] & _)].
    * intros e [= <-]. right. split; [reflexivity|]. eexists. split; [reflexivity | exact Hsig].
Qed.

Lemma verify_Ok (token : string) (options : VerifyOptions) (now_ms : Z) (t : AATToken) :
  verify token options now_ms = Ok t ->
  exists h p d s did,
    String_split "." token = [h; p; d; s]
    /\ JSON_parse (base64urlDecode h) = Some (token_header t)
    /\ JSON_parse (base64urlDecode p) = Some (token_payload t)
    /\ JSON_parse (base64urlDecode d) = Some (token_delegationChain t)
    /\ token_signature t = Buffer_from_utf8 (base64urlDecode s)
    /\ get (token_payload t) "iss" = Ok (JStr did)
    /\ AgentIdentity_verify ed_verify (token_signature t)
         (Buffer_from_utf8 (h ++ "." ++ p ++ "." ++ d)) did = Ok true
    /\ checks (token_payload t) options now_ms = Ok tt.
Proof.
  unfold AATToken_verify, parse_json.
  destruct (String_split "." token) as [|h [|p [|d [|s [|? ?]]]]]; try discriminate.
  destruct (JSON_parse (base64urlDecode h)) as [header|] eqn:Hh; cbn [bind]; [|discriminate].
  destruct (JSON_parse (base64urlDecode p)) as [payload|] eqn:Hp; cbn [bind]; [|discriminate].
  destruct (JSON_parse (base64urlDecode d)) as [chain|] eqn:Hd; cbn [bind]; [|discriminate].
  destruct (get payload "iss") as [iss|] eqn:Hiss; cbn [bind]; [|discriminate].
  destruct iss as [| | | |did| |]; cbn [string_receiver bind]; try discriminate.
  destruct (AgentIdentity_verify _ _ _ did) as [[|]|] eqn:Hcheck; cbn [bind negb];
    try discriminate.
  destruct (get payload "exp") as [exp|] eqn:Hexp; cbn [bind]; [|discriminate].
  destruct (js_lt _ _ exp _) eqn:Hlt; [discriminate|].
  destruct (match verify_audience options with Some _ => _ | None => _ end) as [[|]|] eqn:Ha;
    cbn [bind negb]; try discriminate.
  destruct (match requiredScopes options with Some _ => _ | None => _ end) as [[|]|] eqn:Hs;
    cbn [bind negb]; try discriminate.
  intros [= <-]. cbn [token_header token_payload token_delegationChain token_signature].
  exists h, p, d, s, did. repeat split; try assumption.
  unfold claim_checks. rewrite Hexp. cbn [bind]. rewrite Hlt, Ha. cbn [bind negb].
  now rewrite Hs.
Qed.

(** X9. [AATToken.verify] fails with [MalformedToken] exactly on the
    strings that do not hold three dots, whatever else they hold and before
    anything is decoded. *)
Theorem verify_malformed_iff (token : string) (options : VerifyOptions) (now_ms : Z) :
  verify token options now_ms = Err MalformedToken <-> count_char "." token <> 3%nat.
Proof.
  pose proof (split_length "." token) as Hlen.
  split.
  - intros He Hcount. rewrite Hcount in Hlen.
    destruct (decodes_or_not JSON_parse ed_verify token) as [(payload & check & D)|Hno].
    + pose proof (verify_decoded _ _ StringToNumber ObjectToString _ _ _ options now_ms D) as H.
      destruct check as [[|]|e'].
      * destruct (checks payload options now_ms) as [|e'] eqn:Ec.
        -- destruct H as (t & Ht & _). congruence.
        -- rewrite H in He. injection He as ->.
           apply claim_checks_errors in Ec. decompose [or] Ec; discriminate.
      * congruence.
      * rewrite H in He. injection He as ->.
        destruct D as (? & ? & ? & ? & ? & ? & ? & _ & _ & _ & _ & _ & D).
        apply AgentIdentity_verify_errors in D. destruct D; discriminate.
    + unfold AATToken_verify, parse_json in He.
      destruct (String_split "." token) as [|h [|p [|d [|s [|? ?]]]]] eqn:Hsplit;
        try discriminate.
      destruct (JSON_parse (base64urlDecode h)) as [header|] eqn:Hh; cbn [bind] in He;
        [|discriminate].
      destruct (JSON_parse (base64urlDecode p)) as [payload|] eqn:Hp; cbn [bind] in He;
        [|discriminate].
      destruct (JSON_parse (base64urlDecode d)) as [chain|] eqn:Hd; cbn [bind] in He;
        [|discriminate].
      destruct (get payload "iss") as [iss|e] eqn:Hiss; cbn [bind] in He.
      * destruct iss; cbn [string_receiver bind] in He; try discriminate.
        eapply Hno. do 7 eexists. repeat split; eassumption.
      * apply get_error in Hiss. congruence.
  - intros Hcount. unfold AATToken_verify.
    destruct (String_split "." token) as [|h [|p [|d [|s [|? ?]]]]]; try reflexivity.
    cbn [List.length] in Hlen. lia.
Qed.

(** X10. What [AATToken.verify] returns was signed: the token it accepts has
    four segments, the first three parse as the header, the payload and the
    delegation chain of the result, the payload's [iss] is a string, and the
    library has accepted the fourth segment, as decoded, for a signature of
    the first three segments joined by dots under the key that [iss]
    encodes. *)
Theorem verify_accepts_only_signed (token : string) (options : VerifyOptions) (now_ms : Z)
    (t : AATToken) :
  verify token options now_ms = Ok t ->
  exists h p d s did pk,
    String_split "." token = [h; p; d; s]
    /\ JSON_parse (base64urlDecode h) = Some (token_header t)
    /\ JSON_parse (base64urlDecode p) = Some (token_payload t)
    /\ JSON_parse (base64urlDecode d) = Some (token_delegationChain t)
    /\ token_signature t = Buffer_from_utf8 (base64urlDecode s)
    /\ getAgent t = Ok (JStr did)
    /\ didToPublicKey did = Ok pk
    /\ ed_verify (token_signature t) (Buffer_from_utf8 (h ++ "." ++ p ++ "." ++ d)) pk
       = Some true.
Proof.
  intros H. apply verify_Ok in H as (h & p & d & s & did & H1 & H2 & H3 & H4 & H5 & H6 & H7 & _).
  unfold AgentIdentity_verify in H7.
  destruct (didToPublicKey did) as [pk|] eqn:Hpk; cbn [bind] in H7; [|discriminate].
  destruct (ed_verify _ _ pk) as [[|]|] eqn:Hv; try discriminate.
  exists h, p, d, s, did, pk. repeat split; assumption.
Qed.

(** X11. What [AATToken.verify] returns has passed the claim checks: its
    [exp] is not below the clock, in seconds; its [aud] is the audience asked
    for, when one is asked for; and it has every required scope, so that
    [hasScope] answers true for each of them. *)
Theorem verify_accepts_only_valid_claims (token : string) (options : VerifyOptions)
    (now_ms : Z) (t : AATToken) :
  verify token options now_ms = Ok t ->
  (exists exp, get (token_payload t) "exp" = Ok exp /\ less exp (JNum (now_ms / 1000)) = false)
  /\ (forall expected, verify_audience options = Some expected -> expected <> EmptyString ->
        get (token_payload t) "aud" = Ok (JStr expected))
  /\ (forall required scope, requiredScopes options = Some required -> In scope required ->
        hasScope t scope = Ok true).
Proof.
  intros H. apply verify_Ok in H as (h & p & d & s & did & _ & _ & _ & _ & _ & _ & _ & H).
  unfold claim_checks in H.
  destruct (get (token_payload t) "exp") as [exp|]; cbn [bind] in H; [|discriminate].
  destruct (js_lt _ _ exp _) eqn:Hexp; [discriminate|].
  split; [now exists exp|].
  destruct (match verify_audience options with Some _ => _ | None => _ end) as [[|]|] eqn:Ha;
    cbn [bind negb] in H; try discriminate.
  split.
  - intros expected He Hne. rewrite He in Ha.
    destruct expected as [|c expected]; [congruence|]. cbn [truthy String.eqb negb] in Ha.
    destruct (get (token_payload t) "aud") as [aud|]; cbn [bind] in Ha; [|discriminate].
    injection Ha as Ha. apply strict_eq_JStr in Ha. now subst.
  - intros required scope Hr Hin. rewrite Hr in H.
    destruct (every _ required) as [[|]|] eqn:He; cbn [bind negb] in H; try discriminate.
    unfold hasScope. exact (every_true _ _ He scope Hin).
Qed.

(** X12. A token without an expiry never expires: when the payload holds no
    [exp], the comparison of [verify] is with [undefined] and is false, so
    that at no time and under no options the token fails with [TokenExpired];
    if its signature verifies it is accepted, with no options, at every
    time. *)
Theorem no_exp_never_expires (token : string) (payload : JSValue) (check : result bool) :
  token_decodes token payload check ->
  get payload "exp" = Ok JUndefined ->
  (forall options now_ms, verify token options now_ms <> Err TokenExpired)
  /\ (check = Ok true -> forall now_ms, exists t, verify token no_options now_ms = Ok t).
Proof.
  intros D Hexp.
  assert (Hc : forall options now_ms,
             checks payload options now_ms <> Err TokenExpired
             /\ checks payload no_options now_ms = Ok tt).
  { intros options now_ms. unfold claim_checks. rewrite Hexp. cbn [bind].
    unfold js_lt, IsLessThan. cbn [ToPrimitive ToNumber no_options verify_audience
                                    requiredScopes bind negb].
    split; [|reflexivity].
    destruct (match verify_audience options with Some _ => _ | None => _ end) as [[|]|e] eqn:Ha;
      cbn [bind negb]; try discriminate.
    - destruct (match requiredScopes options with Some _ => _ | None => _ end) as [[|]|e] eqn:Hs;
        cbn [bind negb]; try discriminate.
      intros [= ->].
      destruct (requiredScopes options) as [required|]; [|discriminate].
      apply every_error in Hs; [discriminate|].
      intros s e. destruct (get payload "scope") as [scope|] eqn:E; cbn [bind].
      + destruct scope; cbn [includes]; congruence.
      + intros [= <-]. eapply get_error, E.
    - intros [= ->].
      destruct (verify_audience options) as [a|]; [|discriminate].
      destruct (truthy (JStr a)); [|discriminate].
      destruct (get payload "aud") eqn:E; cbn [bind] in Ha; [discriminate|].
      injection Ha as ->. apply get_error in E. discriminate. }
  split.
  - intros options now_ms He.
    pose proof (verify_decoded _ _ StringToNumber ObjectToString _ _ _ options now_ms D) as H.
    destruct check as [[|]|e'].
    + destruct (checks payload options now_ms) as [|e'] eqn:Ec.
      * destruct H as (t & Ht & _). congruence.
      * rewrite H in He. injection He as ->. now apply (Hc options now_ms).
    + congruence.
    + rewrite H in He. injection He as ->.
      destruct D as (? & ? & ? & ? & ? & ? & ? & _ & _ & _ & _ & _ & D).
      apply AgentIdentity_verify_errors in D. destruct D; discriminate.
  - intros -> now_ms.
    pose proof (verify_decoded _ _ StringToNumber ObjectToString _ _ _ no_options now_ms D) as H.
    cbn beta iota in H. rewrite (proj2 (Hc no_options now_ms)) in H.
    destruct H as (t & Ht & _). now exists t.
Qed.

Lemma created_token_decodes (options : CreateTokenOptions) (now_ms : Z) (random : Buffer)
    (seconds : JSNumber) (signingInput : string) (signature : Buffer) :
  parseExpiry (option_default "1h" (expiresIn options)) = Ok seconds ->
  signing_input options now_ms random = Ok signingInput ->
  utf8_decode Boundary signature = signature ->
  did (identity options) = publicKeyToDID (publicKey (identity options)) ->
  ed_verify signature (Buffer_from_utf8 signingInput) (publicKey (identity options)) = Some true ->
  reads_back JSON_stringify JSON_parse (created_header options) ->
  reads_back JSON_stringify JSON_parse (created_payload options now_ms seconds random) ->
  reads_back JSON_stringify JSON_parse (created_chain options) ->
  token_decodes (signingInput ++ "." ++ toString_base64url signature)%string
    (created_payload options now_ms seconds random) (Ok true).
Proof.
  intros Hsec Hsi Hutf Hdid Hlib Hh Hp Hd.
  unfold signingInput_of in Hsi. rewrite Hsec in Hsi. cbn [bind] in Hsi.
  injection Hsi as Hsi.
  do 7 eexists. split; [|split; [exact Hh|split; [exact Hp|split; [exact Hd|split;
                                                                       [reflexivity|]]]]].
  - rewrite <- Hsi.
    repeat (rewrite append_assoc; cbn [String.append]).
    rewrite !split_app by (apply occurs_base64urlEncode; reflexivity).
    now rewrite split_free by (apply occurs_toString_base64url; reflexivity).
  - unfold AgentIdentity_verify, base64urlDecode, didToPublicKey.
    rewrite Buffer_from_utf8_toString, Buffer_from_base64url_toString, Hutf.
    rewrite Hdid, split_publicKeyToDID.
    cbn [String.eqb Ascii.eqb Bool.eqb negb orb bind].
    rewrite Buffer_from_base64url_toString. cbn [String.append].
    rewrite Hsi. now rewrite Hlib.
Qed.

(** X13. [create] followed by [verify], where it works. When the signature
    that the library has made happens to be well-formed UTF-8, so that it
    passes the decoding in [verify] unchanged, the library accepts it, and the
    platform's JSON reads back the header, the payload and the chain that it
    has printed, the created token verifies until its expiry [exp], with the
    audience it was created for and with any required scopes among its own,
    and the result carries the payload that was signed: the identity's DID
    as agent, the delegator, the audience and the scopes given. *)
Theorem create_then_verify_roundtrip (options : CreateTokenOptions) (now_ms : Z)
    (random : Buffer) (seconds : JSNumber) (exp : Z) (signingInput : string)
    (signature : Buffer) (verify_options : VerifyOptions) (now_ms' : Z) :
  parseExpiry (option_default "1h" (expiresIn options)) = Ok seconds ->
  signing_input options now_ms random = Ok signingInput ->
  ed_sign (Buffer_from_utf8 signingInput) (privateKey (identity options)) = Some signature ->
  well_formed_utf8 signature = true ->
  ed_verify signature (Buffer_from_utf8 signingInput) (publicKey (identity options)) = Some true ->
  did (identity options) = publicKeyToDID (publicKey (identity options)) ->
  (forall v, In v [created_header options;
                   created_payload options now_ms seconds random;
                   created_chain options] ->
             well_formed_utf8 (Buffer_from_utf8 (JSON_stringify v)) = true
             /\ JSON_parse (JSON_stringify v) = Some v) ->
  Number_plus (now_ms / 1000) seconds = Finite exp ->
  (now_ms' / 1000 <= exp)%Z ->
  (forall expected, verify_audience verify_options = Some expected ->
                    expected = audience options) ->
  (forall required scope, requiredScopes verify_options = Some required ->
                          In scope required -> In scope (scopes options)) ->
  exists token t,
    create options now_ms random = Ok token
    /\ verify token verify_options now_ms' = Ok t
    /\ token_payload t = created_payload options now_ms seconds random
    /\ getAgent t = Ok (JStr (did (identity options)))
    /\ getDelegator t = Ok (JStr (delegator options))
    /\ get (token_payload t) "aud" = Ok (JStr (audience options))
    /\ getScopes t = Ok (JArr (map JStr (scopes options))).
Proof.
  intros Hsec Hsi Hsig Hwf Hlib Hdid Hjson Hfinite Hexp Haud Hscopes.
  exists (signingInput ++ "." ++ toString_base64url signature)%string.
  assert (Hcreate : create options now_ms random
                    = Ok (signingInput ++ "." ++ toString_base64url signature)%string).
  { rewrite create_signingInput, Hsi. unfold sign. cbn [bind]. now rewrite Hsig. }
  assert (Hrb : forall v, In v [created_header options;
                                created_payload options now_ms seconds random;
                                created_chain options] ->
                          reads_back JSON_stringify JSON_parse v).
  { intros v Hv. destruct (Hjson v Hv). now apply reads_back_well_formed. }
  assert (D : token_decodes (signingInput ++ "." ++ toString_base64url signature)%string
                (created_payload options now_ms seconds random) (Ok true)).
  { apply created_token_decodes; auto using utf8_decode_well_formed;
      apply Hrb; cbn; auto. }
  pose proof (verify_decoded _ _ StringToNumber ObjectToString _ _ _ verify_options now_ms' D)
    as H.
  cbn beta iota in H.
  assert (Hc : checks (created_payload options now_ms seconds random) verify_options now_ms'
               = Ok tt).
  { unfold claim_checks, created_payload.
    cbn [bind get lookup String.eqb Ascii.eqb Bool.eqb].
    rewrite Hfinite. cbn [Number_value].
    rewrite less_numbers.
    replace (exp <? now_ms' / 1000)%Z with false
      by (symmetry; apply Z.ltb_ge; exact Hexp).
    assert (Ha : match verify_audience verify_options with
                 | Some expected =>
                     if truthy (JStr expected)
                     then Ok (strict_eq (JStr (audience options)) (JStr expected))
                     else Ok true
                 | None => Ok true
                 end = Ok true).
    { destruct (verify_audience verify_options) as [expected|] eqn:E; [|reflexivity].
      rewrite (Haud expected eq_refl). cbn [strict_eq]. rewrite String.eqb_refl.
      now destruct (truthy _). }
    rewrite Ha. cbn [bind negb].
    destruct (requiredScopes verify_options) as [required|] eqn:Er; [|reflexivity].
    rewrite (every_total _ (fun s => existsb (fun x => strict_eq x (JStr s))
                                       (map JStr (scopes options))))
      by reflexivity.
    assert (Hall : forallb (fun s => existsb (fun x => strict_eq x (JStr s))
                                       (map JStr (scopes options))) required = true).
    { apply forallb_forall. intros s Hs. apply existsb_strict_eq.
      apply in_map. now apply (Hscopes required). }
    rewrite Hall. reflexivity. }
  rewrite Hc in H. destruct H as (t & Ht & Hpay).
  exists t. split; [exact Hcreate|]. split; [exact Ht|]. split; [exact Hpay|].
  unfold getAgent, getDelegator, getScopes. rewrite Hpay. repeat split.
Qed.

End MoreTokenProperties.

Lemma create_token_format_witness :
  AATToken_create Sample.stringify Sample.sign (sample_options sample_identity)
    created_at sample_random = Ok sample_token
  /\ count_char "." sample_token = 3%nat
  /\ map Buffer_from_base64url (String_split "." sample_token)
     = [Buffer_from_utf8 (Sample.stringify (created_header (sample_options sample_identity)));
        Buffer_from_utf8 (Sample.stringify sample_payload);
        Buffer_from_utf8 (Sample.stringify (JArr []));
        sample_signature].
Proof.
  assert (H : AATToken_create Sample.stringify Sample.sign (sample_options sample_identity)
                created_at sample_random = Ok sample_token) by (vm_compute; reflexivity).
  split; [exact H|].
  destruct (create_token_format Sample.stringify Sample.sign (sample_options sample_identity)
              created_at sample_random sample_token H)
    as (seconds & signature & Hsec & _ & _ & Hcount & _ & Hsegments).
  split; [exact Hcount|].
  vm_compute. reflexivity.
Defined.

Lemma sample_token_verified :
  AATToken_verify Sample.parse Sample.verify Sample.StringToNumber Sample.ObjectToString
    sample_token sample_verify_options minute_later = Ok sample_verified.
Proof. vm_compute. reflexivity. Qed.

Lemma verify_accepts_only_signed_witness :
  sample_verify sample_token sample_verify_options minute_later = Ok sample_verified
  /\ exists h p d s,
       String_split "." sample_token = [h; p; d; s]
       /\ getAgent sample_verified = Ok (JStr (did sample_identity))
       /\ Sample.verify (token_signature sample_verified)
            (Buffer_from_utf8 (h ++ "." ++ p ++ "." ++ d)) (publicKey sample_identity)
          = Some true.
Proof.
  split; [unfold sample_verify; exact sample_token_verified|].
  destruct (verify_accepts_only_signed Sample.parse Sample.verify Sample.StringToNumber
              Sample.ObjectToString sample_token sample_verify_options minute_later
              sample_verified sample_token_verified)
    as (h & p & d & s & issuer & pk & Hsplit & _ & _ & _ & _ & Hagent & Hpk & Hverify).
  exists h, p, d, s.
  assert (Hdid : issuer = did sample_identity).
  { assert (E : getAgent sample_verified = Ok (JStr (did sample_identity)))
      by (vm_compute; reflexivity).
    congruence. }
  subst issuer.
  assert (pk = publicKey sample_identity) as ->.
  { assert (E : didToPublicKey (did sample_identity) = Ok (publicKey sample_identity))
      by (vm_compute; reflexivity).
    congruence. }
  repeat split; assumption.
Defined.

Lemma verify_accepts_only_valid_claims_witness :
  sample_verify sample_token sample_verify_options minute_later = Ok sample_verified
  /\ get (token_payload sample_verified) "aud" = Ok (JStr "https://api.example.com")
  /\ hasScope sample_verified "mail.read" = Ok true.
Proof.
  split; [unfold sample_verify; exact sample_token_verified|].
  destruct (verify_accepts_only_valid_claims Sample.parse Sample.verify Sample.StringToNumber
              Sample.ObjectToString sample_token sample_verify_options minute_later
              sample_verified sample_token_verified)
    as (_ & Haud & Hscope).
  split.
  - apply Haud; [reflexivity | discriminate].
  - apply (Hscope ["mail.read"]); [reflexivity | now left].
Defined.

Lemma eternal_token_decodes : sample_decodes eternal_token eternal_payload (Ok true).
Proof.
  exists (segment 0 eternal_token), (segment 1 eternal_token), (segment 2 eternal_token),
         (segment 3 eternal_token), (parsed (base64urlDecode (segment 0 eternal_token))),
         (parsed (base64urlDecode (segment 2 eternal_token))), (did sample_identity).
  repeat split; vm_compute; reflexivity.
Qed.

Lemma no_exp_never_expires_witness :
  sample_decodes eternal_token eternal_payload (Ok true)
  /\ get eternal_payload "exp" = Ok JUndefined
  /\ forall now_ms, exists t, sample_verify eternal_token no_options now_ms = Ok t.
Proof.
  split; [exact eternal_token_decodes|]. split; [reflexivity|].
  exact (proj2 (no_exp_never_expires Sample.parse Sample.verify Sample.StringToNumber
                  Sample.ObjectToString eternal_token eternal_payload (Ok true)
                  eternal_token_decodes eq_refl) eq_refl).
Defined.

Lemma create_then_verify_roundtrip_witness :
  exists t,
    AATToken_create Sample.stringify Sample.sign (sample_options sample_identity)
      created_at sample_random = Ok sample_token
    /\ sample_verify sample_token sample_verify_options minute_later = Ok t
    /\ token_payload t = sample_payload.
Proof.
  destruct (create_then_verify_roundtrip Sample.stringify Sample.parse Sample.sign
              Sample.verify Sample.StringToNumber Sample.ObjectToString
              (sample_options sample_identity) created_at sample_random (Finite 3600)
              1700003600 sample_signingInput sample_signature sample_verify_options
              minute_later)
    as (token & t & Hcreate & Hverify & Hpayload & _).
  - vm_compute. reflexivity.
  - vm_compute. reflexivity.
  - vm_compute. reflexivity.
  - vm_compute. reflexivity.
  - vm_compute. reflexivity.
  - reflexivity.
  - intros v [<-|[<-|[<-|[]]]]; split; vm_compute; reflexivity.
  - vm_compute. reflexivity.
  - vm_compute. discriminate.
  - intros expected [= <-]. reflexivity.
  - intros required scope [= <-] H. exact H.
  - assert (E : AATToken_create Sample.stringify Sample.sign (sample_options sample_identity)
                  created_at sample_random = Ok sample_token) by (vm_compute; reflexivity).
    assert (token = sample_token) by congruence. subst token.
    exists t. split; [exact E|]. split; [exact Hverify|]. exact Hpayload.
Defined.

(** ** Enforcement *)

Section MoreEnforcementProperties.

Variable JSON_parse : string -> option JSValue.
Variable ed_verify : Buffer -> Buffer -> Buffer -> option bool.
Variable StringToNumber : string -> option Z.
Variable ObjectToString : JSValue -> string.

Local Abbreviation enforce := (enforceConstraints StringToNumber ObjectToString).
Local Abbreviation verify := (AATToken_verify JSON_parse ed_verify StringToNumber ObjectToString).
Local Abbreviation verify_agent :=
  (verifyAgent JSON_parse ed_verify StringToNumber ObjectToString).
Local Abbreviation greater := (js_gt StringToNumber ObjectToString).
Local Abbreviation greater_eq := (js_ge StringToNumber ObjectToString).
Local Abbreviation less_eq := (js_le StringToNumber ObjectToString).

Local Abbreviation window_test currentTime :=
  (fun window : JSValue =>
     start <- get window "start" ;;
     if greater_eq (JStr currentTime) start then
       end_ <- get window "end" ;;
       Ok (less_eq (JStr currentTime) end_)
     else Ok false).

Lemma enforce_errors (delegation : JSValue) (token : AATToken) (now : Z)
    (timeString : string) (e : error) :
  enforce delegation token now timeString = Err e ->
  In e [TypeError; DelegationExpired; DelegationNotYetValid; MFARequired;
        SubdelegationNotAllowed; OutsideTimeWindow].
Proof.
  unfold enforceConstraints.
  destruct (get delegation "constraints") as [c0|e'] eqn:Ec; cbn [bind];
    [|apply get_error in Ec; subst; intros [= <-]; cbn; auto].
  set (c := if truthy c0 then c0 else JObj []).
  destruct (get delegation "expiresAt") as [expiresAt|e'] eqn:Ea; cbn [bind];
    [|apply get_error in Ea; subst; intros [= <-]; cbn; auto].
  destruct (truthy expiresAt && js_lt _ _ expiresAt (JNum now)); [intros [= <-]; cbn; auto|].
  destruct (get delegation "notBefore") as [notBefore|e'] eqn:Eb; cbn [bind];
    [|apply get_error in Eb; subst; intros [= <-]; cbn; auto].
  destruct (truthy notBefore && js_gt _ _ notBefore (JNum now)); [intros [= <-]; cbn; auto|].
  destruct (get c "requireMFA") as [mfa|e'] eqn:Emfa; cbn [bind];
    [|apply get_error in Emfa; subst; intros [= <-]; cbn; auto].
  destruct (truthy mfa); [intros [= <-]; cbn; auto 6|].
  destruct (get c "allowSubdelegation") as [sub|e'] eqn:Esub; cbn [bind];
    [|apply get_error in Esub; subst; intros [= <-]; cbn; auto].
  match goal with
  | |- context [bind ?r _] =>
      assert (Hr : forall e, r = Err e -> e = TypeError);
      [|destruct r as [[|]|e']; cbn [bind];
        [intros [= <-]; cbn; auto 6 | | rewrite (Hr e' eq_refl); intros [= <-]; cbn; auto]]
  end.
  { intros e'. destruct (strict_eq sub (JBool false)); [|discriminate].
    destruct (get (token_delegationChain token) "length") eqn:E; cbn [bind]; [discriminate|].
    intros [= <-]. eapply get_error, E. }
  destruct (get c "timeWindows") as [tw|e'] eqn:Etw; cbn [bind];
    [|apply get_error in Etw; subst; intros [= <-]; cbn; auto].
  match goal with
  | |- context [bind ?r _] =>
      assert (Hw : forall e, r = Err e -> e = TypeError);
      [|destruct r as [[|]|e']; cbn [bind];
        [ | discriminate | rewrite (Hw e' eq_refl); intros [= <-]; cbn; auto]]
  end.
  { intros e'. destruct (truthy tw); [|discriminate].
    destruct (get tw "length") eqn:E; cbn [bind]; [discriminate|].
    intros [= <-]. eapply get_error, E. }
  destruct (array_some _ tw) as [[|]|e'] eqn:E; cbn [bind negb]; try discriminate.
  - intros [= <-]. cbn. auto 7.
  - apply array_some_error in E; [subst; intros [= <-]; cbn; auto|].
    intros x e''. apply window_test_error.
Qed.

(** [enforceConstraints] on a delegation that [createDelegation] has built
    with an object for constraints: the time bounds are absent, and what
    remains reads three of the constraints. *)
Lemma enforce_created (options : CreateDelegationOptions) (fields : list (string * JSValue))
    (uuid created : string) (token : AATToken) (now : Z) (timeString : string) :
  get (createDelegation options uuid created) "constraints" = Ok (JObj fields) ->
  enforce (createDelegation options uuid created) token now timeString
  = (if truthy (lookup "requireMFA" fields) then Err MFARequired else
     subdelegated <-
       (if strict_eq (lookup "allowSubdelegation" fields) (JBool false) then
          len <- get (token_delegationChain token) "length" ;;
          Ok (greater len (JNum 1))
        else Ok false) ;;
     if subdelegated then Err SubdelegationNotAllowed else
     windowed <-
       (if truthy (lookup "timeWindows" fields) then
          len <- get (lookup "timeWindows" fields) "length" ;;
          Ok (greater len (JNum 0))
        else Ok false) ;;
     if windowed then
       isInWindow <-
         array_some (window_test (substring 0 5 timeString)) (lookup "timeWindows" fields) ;;
       if negb isInWindow then Err OutsideTimeWindow else Ok tt
     else Ok tt).
Proof.
  intros Hc. unfold enforceConstraints. rewrite Hc. unfold createDelegation.
  cbn [get lookup String.eqb Ascii.eqb Bool.eqb bind truthy andb].
  reflexivity.
Qed.

(** X14. A delegation that requires MFA cannot be used: on a delegation
    that [createDelegation] has built with a truthy [requireMFA] among its
    constraints, [enforceConstraints] fails with [MFARequired] for every
    token and at every time, no proof of MFA being looked for anywhere. *)
Theorem requireMFA_never_satisfied (options : CreateDelegationOptions)
    (fields : list (string * JSValue)) (uuid created : string)
    (token : AATToken) (now : Z) (timeString : string) :
  get (createDelegation options uuid created) "constraints" = Ok (JObj fields) ->
  truthy (lookup "requireMFA" fields) = true ->
  enforce (createDelegation options uuid created) token now timeString = Err MFARequired.
Proof. intros Hc Hmfa. rewrite (enforce_created _ _ _ _ _ _ _ Hc), Hmfa. reflexivity. Qed.

Lemma greater_numbers (a b : Z) : greater (JNum a) (JNum b) = (b <? a)%Z.
Proof. reflexivity. Qed.

Lemma windows_errors (timeString : string) (timeWindows : JSValue) (e : error) :
  (windowed <-
     (if truthy timeWindows then
        len <- get timeWindows "length" ;;
        Ok (greater len (JNum 0))
      else Ok false) ;;
   if windowed then
     isInWindow <- array_some (window_test (substring 0 5 timeString)) timeWindows ;;
     if negb isInWindow then Err OutsideTimeWindow else Ok tt
   else Ok tt) = Err e ->
  e = TypeError \/ e = OutsideTimeWindow.
Proof.
  destruct (truthy timeWindows); cbn [bind]; [|discriminate].
  destruct (get timeWindows "length") as [len|e'] eqn:E; cbn [bind];
    [|intros [= <-]; left; eapply get_error, E].
  destruct (js_gt _ _ len _); [|discriminate].
  destruct (array_some _ timeWindows) as [[|]|e'] eqn:Es; cbn [bind negb]; try discriminate.
  - intros [= <-]. now right.
  - intros [= <-]. left. eapply array_some_error; [|exact Es].
    intros x e''. apply window_test_error.
Qed.

(** X15. Subdelegation is refused exactly when it is forbidden outright: on
    a created delegation without [requireMFA], [enforceConstraints] fails
    with [SubdelegationNotAllowed] if and only if the constraint
    [allowSubdelegation] is the boolean [false] and the token's chain holds
    more than one delegation. A constraint left out, or any other value,
    allows chains of every length. *)
Theorem subdelegation_refused_iff (options : CreateDelegationOptions)
    (fields : list (string * JSValue)) (uuid created : string)
    (token : AATToken) (chain : list JSValue) (now : Z) (timeString : string) :
  get (createDelegation options uuid created) "constraints" = Ok (JObj fields) ->
  truthy (lookup "requireMFA" fields) = false ->
  token_delegationChain token = JArr chain ->
  (enforce (createDelegation options uuid created) token now timeString
   = Err SubdelegationNotAllowed
   <-> lookup "allowSubdelegation" fields = JBool false /\ (1 < List.length chain)%nat).
Proof.
  intros Hc Hmfa Hchain. rewrite (enforce_created _ _ _ _ _ _ _ Hc), Hmfa, Hchain.
  cbn [get String.eqb Ascii.eqb Bool.eqb bind].
  rewrite greater_numbers.
  destruct (strict_eq (lookup "allowSubdelegation" fields) (JBool false)) eqn:Hs; cbn [bind].
  - apply strict_eq_false in Hs.
    destruct (Z.ltb_spec 1 (Z.of_nat (List.length chain))) as [Hlt|Hge].
    + split; [intros _; split; [assumption | lia] | reflexivity].
    + split; [|intros [_ H]; lia].
      intros H. apply windows_errors in H. destruct H; discriminate.
  - split.
    + intros H. apply windows_errors in H. destruct H; discriminate.
    + intros [H _]. apply strict_eq_false in H. congruence.
Qed.

(** X16. Of a created delegation, [enforceConstraints] enforces three
    constraints and nothing else: two delegations whose constraints agree on
    [requireMFA], [allowSubdelegation] and [timeWindows] have the same
    outcome for every token and time, whatever their [maxUses],
    [maxUsesPerHour], [ipAllowlist], [notBefore] and [notAfter], and whoever
    their delegator, delegate and scopes are. *)
Theorem enforcement_reads_three_constraints
    (options options' : CreateDelegationOptions) (fields fields' : list (string * JSValue))
    (uuid uuid' created created' : string) (token : AATToken) (now : Z) (timeString : string) :
  get (createDelegation options uuid created) "constraints" = Ok (JObj fields) ->
  get (createDelegation options' uuid' created') "constraints" = Ok (JObj fields') ->
  (forall key, In key ["requireMFA"; "allowSubdelegation"; "timeWindows"] ->
               lookup key fields = lookup key fields') ->
  enforce (createDelegation options uuid created) token now timeString
  = enforce (createDelegation options' uuid' created') token now timeString.
Proof.
  intros Hc Hc' Hsame.
  rewrite (enforce_created _ _ _ _ _ _ _ Hc), (enforce_created _ _ _ _ _ _ _ Hc').
  rewrite (Hsame "requireMFA"), (Hsame "allowSubdelegation"), (Hsame "timeWindows")
    by (cbn; auto).
  reflexivity.
Qed.

Lemma get0_error (v : JSValue) (e : error) : get0 v = Err e -> e = TypeError.
Proof. destruct v as [| | | |[|]| |]; cbn; congruence. Qed.

(** The steps of [verifyAgent], one after the other. *)
Lemma verifyAgent_steps (token : string) (options : VerifyAgentOptions)
    (now_ms now : Z) (timeString : string) :
  verify_agent token options now_ms now timeString
  = match verify token {| verify_audience := Some (agent_audience options);
                          requiredScopes := Some (agent_requiredScopes options) |} now_ms with
    | Err e => Err e
    | Ok verified =>
        match get0 (token_delegationChain verified) with
        | Err e => Err e
        | Ok delegation =>
            if truthy delegation then
              match match agent_enforceConstraints options with
                    | Some false => Ok tt
                    | _ => enforce delegation verified now timeString
                    end with
              | Err e => Err e
              | Ok _ =>
                  match getAgent verified, getDelegator verified, getScopes verified with
                  | Ok agentDID, Ok delegatorDID, Ok scopes =>
                      Ok {| verified_agentDID := agentDID;
                            verified_delegatorDID := delegatorDID;
                            verified_scopes := scopes;
                            verified_delegation := delegation;
                            verified_token := verified |}
                  | _, _, _ => Err TypeError
                  end
              end
            else Err NoDelegation
        end
    end.
Proof.
  unfold verifyAgent.
  destruct (AATToken_verify _ _ _ _ token _ now_ms) as [verified|]; cbn [bind]; [|reflexivity].
  destruct (get0 _) as [delegation|]; cbn [bind]; [|reflexivity].
  destruct (truthy delegation); cbn [negb]; [|reflexivity].
  destruct (match agent_enforceConstraints options with Some false => _ | _ => _ end);
    cbn [bind]; [|reflexivity].
  unfold getAgent, getDelegator, getScopes.
  destruct (get _ "iss") eqn:E1; cbn [bind]; [|apply get_error in E1; now subst].
  destruct (get _ "sub") eqn:E2; cbn [bind]; [|apply get_error in E2; now subst].
  destruct (get _ "scope") eqn:E3; cbn [bind]; [|apply get_error in E3; now subst].
  reflexivity.
Qed.

(** X18. [verifyAgent] wants a delegation: it fails with [NoDelegation]
    exactly when the token verifies and the first element of its delegation
    chain is missing or falsy, whether or not constraints are to be enforced.
    So it is with every verified token whose chain is the empty list, the
    chain that [AATToken.create] writes when none is given. *)
Theorem verifyAgent_no_delegation_iff (token : string) (options : VerifyAgentOptions)
    (now_ms now : Z) (timeString : string) :
  (verify_agent token options now_ms now timeString = Err NoDelegation
   <-> exists verified delegation,
         verify token {| verify_audience := Some (agent_audience options);
                         requiredScopes := Some (agent_requiredScopes options) |} now_ms
         = Ok verified
         /\ get0 (token_delegationChain verified) = Ok delegation
         /\ truthy delegation = false)
  /\ (forall verified,
        verify token {| verify_audience := Some (agent_audience options);
                        requiredScopes := Some (agent_requiredScopes options) |} now_ms
        = Ok verified ->
        token_delegationChain verified = JArr [] ->
        verify_agent token options now_ms now timeString = Err NoDelegation).
Proof.
  rewrite verifyAgent_steps.
  destruct (AATToken_verify _ _ _ _ token _ now_ms) as [verified|e] eqn:Ev.
  - destruct (get0 (token_delegationChain verified)) as [delegation|e] eqn:Ed.
    + destruct (truthy delegation) eqn:Et.
      * split.
        -- split.
           ++ destruct (match agent_enforceConstraints options with Some false => _ | _ => _ end)
                as [|e] eqn:Ee.
              ** destruct (getAgent verified), (getDelegator verified), (getScopes verified);
                   discriminate.
              ** intros [= ->].
                 assert (He : enforce delegation verified now timeString = Err NoDelegation)
                   by (destruct (agent_enforceConstraints options) as [[|]|]; congruence).
                 apply enforce_errors in He. cbn in He. decompose [or] He; try discriminate.
                 contradiction.
           ++ intros (v & d & [= <-] & Hd & Hf). congruence.
        -- intros v [= <-] Hchain. rewrite Hchain in Ed. cbn in Ed. injection Ed as <-.
           discriminate.
      * split; [|reflexivity]. split; [|reflexivity].
        intros _. now exists verified, delegation.
    + split.
      * pose proof (get0_error _ _ Ed). subst. split; [discriminate|].
        intros (v & d & [= <-] & Hd & _). congruence.
      * intros v [= <-] Hchain. rewrite Hchain in Ed. discriminate.
  - split; [|discriminate]. split.
    + intros [= ->]. apply verify_error_kinds in Ev. cbn in Ev.
      decompose [or] Ev; try discriminate. contradiction.
    + intros (v & d & [=] & _).
Qed.

(** X19. What [verifyAgent] returns: the verified token, its first
    delegation, and the issuer, subject and scopes of its payload, the issuer
    a string; the constraints of the delegation have passed enforcement
    unless [enforceConstraints: false] was asked. Enforcement only rejects:
    the same result is returned with [enforceConstraints: false], whatever
    the clock. *)
Theorem verifyAgent_returns (token : string) (options : VerifyAgentOptions)
    (now_ms now : Z) (timeString : string) (agent : VerifiedAgent) :
  verify_agent token options now_ms now timeString = Ok agent ->
  verify token {| verify_audience := Some (agent_audience options);
                  requiredScopes := Some (agent_requiredScopes options) |} now_ms
  = Ok (verified_token agent)
  /\ get0 (token_delegationChain (verified_token agent)) = Ok (verified_delegation agent)
  /\ truthy (verified_delegation agent) = true
  /\ (exists did, verified_agentDID agent = JStr did)
  /\ get (token_payload (verified_token agent)) "iss" = Ok (verified_agentDID agent)
  /\ get (token_payload (verified_token agent)) "sub" = Ok (verified_delegatorDID agent)
  /\ get (token_payload (verified_token agent)) "scope" = Ok (verified_scopes agent)
  /\ (agent_enforceConstraints options <> Some false ->
      enforce (verified_delegation agent) (verified_token agent) now timeString = Ok tt)
  /\ (forall now' timeString',
        verify_agent token
          {| agent_audience := agent_audience options;
             agent_requiredScopes := agent_requiredScopes options;
             agent_enforceConstraints := Some false |} now_ms now' timeString'
        = Ok agent).
Proof.
  rewrite verifyAgent_steps.
  destruct (AATToken_verify _ _ _ _ token _ now_ms) as [verified|e] eqn:Ev; [|discriminate].
  destruct (get0 (token_delegationChain verified)) as [delegation|e] eqn:Ed; [|discriminate].
  destruct (truthy delegation) eqn:Et; [|discriminate].
  destruct (match agent_enforceConstraints options with Some false => _ | _ => _ end)
    as [[]|e] eqn:Ee; [|discriminate].
  destruct (getAgent verified) as [agentDID|] eqn:E1; [|discriminate].
  destruct (getDelegator verified) as [delegatorDID|] eqn:E2; [|discriminate].
  destruct (getScopes verified) as [scopes|] eqn:E3; [|discriminate].
  intros [= <-].
  cbn [verified_token verified_delegation verified_agentDID verified_delegatorDID
       verified_scopes].
  repeat split; try assumption.
  - apply verify_Ok in Ev as (h & p & d & s & did & _ & _ & _ & _ & _ & Hiss & _).
    unfold getAgent in E1. rewrite Hiss in E1. injection E1 as <-. now exists did.
  - intros Hon. destruct (agent_enforceConstraints options) as [[|]|]; congruence.
  - intros now' timeString'. rewrite verifyAgent_steps.
    cbn [agent_audience agent_requiredScopes agent_enforceConstraints].
    now rewrite Ev, Ed, Et, E1, E2, E3.
Qed.

(** X20. The ways [verifyAgent] fails: with one of the nine errors of
    [AATToken.verify], with [NoDelegation], or with one of the five errors
    of the constraints; and with [enforceConstraints: false] with none of the
    latter five. *)
Theorem verifyAgent_error_kinds (token : string) (options : VerifyAgentOptions)
    (now_ms now : Z) (timeString : string) (e : error) :
  verify_agent token options now_ms now timeString = Err e ->
  In e [MalformedToken; SyntaxError; TypeError; InvalidDIDFormat; CryptoError;
        InvalidSignature; TokenExpired; AudienceMismatch; InsufficientScope; NoDelegation]
  \/ agent_enforceConstraints options <> Some false
     /\ In e [DelegationExpired; DelegationNotYetValid; MFARequired;
              SubdelegationNotAllowed; OutsideTimeWindow].
Proof.
  rewrite verifyAgent_steps.
  destruct (AATToken_verify _ _ _ _ token _ now_ms) as [verified|e'] eqn:Ev.
  2:{ intros [= <-]. left. apply verify_error_kinds in Ev. cbn in Ev |- *.
      decompose [or] Ev; auto 11. }
  destruct (get0 (token_delegationChain verified)) as [delegation|e'] eqn:Ed.
  2:{ intros [= <-]. apply get0_error in Ed. subst. left. cbn. auto. }
  destruct (truthy delegation); [|intros [= <-]; left; cbn; auto 11].
  destruct (match agent_enforceConstraints options with Some false => _ | _ => _ end)
    as [[]|e'] eqn:Ee.
  - destruct (getAgent verified), (getDelegator verified), (getScopes verified);
      try discriminate; intros [= <-]; left; cbn; auto.
  - intros [= <-].
    destruct (agent_enforceConstraints options) as [[|]|] eqn:Eo; try discriminate;
      apply enforce_errors in Ee; cbn in Ee;
      decompose [or] Ee; subst; try contradiction;
      first [left; cbn; now auto | right; split; [discriminate | cbn; auto 6]].
Qed.

End MoreEnforcementProperties.

Lemma requireMFA_never_satisfied_witness :
  get (createDelegation (constrained_options [("requireMFA", JBool true)])
         sample_uuid sample_created) "constraints"
  = Ok (JObj [("requireMFA", JBool true)])
  /\ sample_enforce
       (createDelegation (constrained_options [("requireMFA", JBool true)])
          sample_uuid sample_created)
       no_token created_at server_time
     = Err MFARequired.
Proof.
  split; [reflexivity|].
  apply (requireMFA_never_satisfied Sample.StringToNumber Sample.ObjectToString
           (constrained_options [("requireMFA", JBool true)])
           [("requireMFA", JBool true)]); reflexivity.
Defined.

Lemma subdelegation_refused_iff_witness :
  sample_enforce
    (createDelegation (constrained_options [("allowSubdelegation", JBool false)])
       sample_uuid sample_created)
    (chained_token 2) created_at server_time
  = Err SubdelegationNotAllowed
  /\ sample_enforce
       (createDelegation (constrained_options [("allowSubdelegation", JBool false)])
          sample_uuid sample_created)
       (chained_token 1) created_at server_time
     <> Err SubdelegationNotAllowed.
Proof.
  split.
  - apply (subdelegation_refused_iff Sample.StringToNumber Sample.ObjectToString
             (constrained_options [("allowSubdelegation", JBool false)])
             [("allowSubdelegation", JBool false)] sample_uuid sample_created
             (chained_token 2) (repeat sample_delegation 2) created_at server_time);
      try reflexivity.
    split; [reflexivity | cbn; lia].
  - intros H.
    apply (subdelegation_refused_iff Sample.StringToNumber Sample.ObjectToString
             (constrained_options [("allowSubdelegation", JBool false)])
             [("allowSubdelegation", JBool false)] sample_uuid sample_created
             (chained_token 1) (repeat sample_delegation 1) created_at server_time) in H;
      try reflexivity.
    destruct H as [_ H]. cbn in H. lia.
Defined.

Lemma enforcement_reads_three_constraints_witness :
  sample_enforce
    (createDelegation
       (constrained_options [("maxUses", JNum 0);
                             ("notAfter", JStr "2001-01-01T00:00:00.000Z");
                             ("ipAllowlist", JArr [JStr "10.0.0.1"])])
       sample_uuid sample_created)
    no_token created_at server_time
  = sample_enforce sample_delegation no_token created_at server_time.
Proof.
  apply (enforcement_reads_three_constraints Sample.StringToNumber Sample.ObjectToString
           (constrained_options [("maxUses", JNum 0);
                                 ("notAfter", JStr "2001-01-01T00:00:00.000Z");
                                 ("ipAllowlist", JArr [JStr "10.0.0.1"])])
           sample_delegation_options
           [("maxUses", JNum 0);
            ("notAfter", JStr "2001-01-01T00:00:00.000Z");
            ("ipAllowlist", JArr [JStr "10.0.0.1"])]
           []); try reflexivity.
  intros key [<-|[<-|[<-|[]]]]; reflexivity.
Defined.

Lemma delegated_token_verified :
  verifyAgent Sample.parse Sample.verify Sample.StringToNumber Sample.ObjectToString
    delegated_token sample_agent_options minute_later minute_later server_time
  = Ok sample_agent.
Proof. vm_compute. reflexivity. Qed.

Lemma verifyAgent_returns_witness :
  sample_verifyAgent delegated_token = Ok sample_agent
  /\ verified_agentDID sample_agent = JStr (did sample_identity)
  /\ sample_enforce (verified_delegation sample_agent) (verified_token sample_agent)
       minute_later server_time = Ok tt.
Proof.
  split; [unfold sample_verifyAgent; exact delegated_token_verified|].
  destruct (verifyAgent_returns Sample.parse Sample.verify Sample.StringToNumber
              Sample.ObjectToString delegated_token sample_agent_options
              minute_later minute_later server_time sample_agent delegated_token_verified)
    as (_ & _ & _ & _ & _ & _ & _ & Henforce & _).
  split; [vm_compute; reflexivity|].
  unfold sample_enforce. apply Henforce. discriminate.
Defined.

Lemma verifyAgent_error_kinds_witness :
  sample_verifyAgent sample_token = Err NoDelegation
  /\ (In NoDelegation
         [MalformedToken; SyntaxError; TypeError; InvalidDIDFormat; CryptoError;
          InvalidSignature; TokenExpired; AudienceMismatch; InsufficientScope; NoDelegation]
      \/ agent_enforceConstraints sample_agent_options <> Some false
         /\ In NoDelegation [DelegationExpired; DelegationNotYetValid; MFARequired;
                             SubdelegationNotAllowed; OutsideTimeWindow]).
Proof.
  assert (H : verifyAgent Sample.parse Sample.verify Sample.StringToNumber
                Sample.ObjectToString sample_token sample_agent_options
                minute_later minute_later server_time = Err NoDelegation)
    by (vm_compute; reflexivity).
  split; [unfold sample_verifyAgent; exact H|].
  exact (verifyAgent_error_kinds Sample.parse Sample.verify Sample.StringToNumber
           Sample.ObjectToString sample_token sample_agent_options
           minute_later minute_later server_time NoDelegation H).
Defined.

(** ** Delegations *)

Lemma created_constraints (options : CreateDelegationOptions) (uuid created : string) :
  get (createDelegation options uuid created) "constraints"
  = Ok (if truthy (constraints options) then constraints options else JObj []).
Proof. reflexivity. Qed.

Section DelegationProperties.

Variable Date_parse : string -> option Z.
Variable StringToNumber : string -> option Z.
Variable ObjectToString : JSValue -> string.

Local Abbreviation verify_delegation := (verifyDelegation Date_parse ObjectToString).
Local Abbreviation enforce := (enforceConstraints StringToNumber ObjectToString).

Lemma bound_passed (bound : option string) (now : Z) :
  truthy (optional_string bound)
  && date_lt (Date_of Date_parse ObjectToString (optional_string bound)) (Some now) = false
  <-> forall t, bound_time Date_parse bound = Some t -> (now <= t)%Z.
Proof.
  destruct bound as [s|]; cbn [optional_string truthy bound_time andb].
  2:{ split; [discriminate | reflexivity]. }
  unfold Date_of. cbn [ToPrimitive].
  destruct (String.eqb s EmptyString); cbn [negb andb]; [split; [discriminate | reflexivity]|].
  destruct (Date_parse s) as [t|]; cbn [date_lt]; [|split; [discriminate | reflexivity]].
  rewrite Z.ltb_ge. split; [intros H t' [= <-]; exact H | intros H; now apply H].
Qed.

Lemma bound_ahead (bound : option string) (now : Z) :
  truthy (optional_string bound)
  && date_lt (Some now) (Date_of Date_parse ObjectToString (optional_string bound)) = false
  <-> forall t, bound_time Date_parse bound = Some t -> (t <= now)%Z.
Proof.
  destruct bound as [s|]; cbn [optional_string truthy bound_time andb].
  2:{ split; [discriminate | reflexivity]. }
  unfold Date_of. cbn [ToPrimitive].
  destruct (String.eqb s EmptyString); cbn [negb andb]; [split; [discriminate | reflexivity]|].
  destruct (Date_parse s) as [t|]; cbn [date_lt]; [|split; [discriminate | reflexivity]].
  rewrite Z.ltb_ge. split; [intros H t' [= <-]; exact H | intros H; now apply H].
Qed.

(** X22. [verifyDelegation] on a created delegation never throws, and it
    answers true exactly when the clock is not past [notAfter] and not before
    [notBefore], both bounds included. A bound that is left out, empty, or
    not a date that [Date.parse] reads is no bound: the comparison with an
    invalid date is false, and the delegation passes. Nothing else of the
    delegation is looked at, its proof and its revocation least of all. *)
Theorem verifyDelegation_created (options : CreateDelegationOptions)
    (fields : list (string * JSValue)) (uuid created : string)
    (notAfter notBefore : option string) (now_expiry now_start : Z) :
  get (createDelegation options uuid created) "constraints" = Ok (JObj fields) ->
  lookup "notAfter" fields = optional_string notAfter ->
  lookup "notBefore" fields = optional_string notBefore ->
  exists valid,
    verify_delegation (createDelegation options uuid created) now_expiry now_start = Ok valid
    /\ (valid = true
        <-> (forall t, bound_time Date_parse notAfter = Some t -> (now_expiry <= t)%Z)
            /\ (forall t, bound_time Date_parse notBefore = Some t -> (t <= now_start)%Z)).
Proof.
  intros Hc Ha Hb. unfold verifyDelegation. rewrite Hc. cbn [bind get]. rewrite Ha, Hb.
  pose proof (bound_passed notAfter now_expiry) as Hpassed.
  pose proof (bound_ahead notBefore now_start) as Hahead.
  destruct (truthy (optional_string notAfter) && _).
  - exists false. split; [reflexivity|]. split; [discriminate|].
    intros [H _]. apply Hpassed in H. discriminate.
  - destruct (truthy (optional_string notBefore) && _).
    + exists false. split; [reflexivity|]. split; [discriminate|].
      intros [_ H]. apply Hahead in H. discriminate.
    + exists true. split; [reflexivity|]. split; [|reflexivity].
      intros _. split; [now apply Hpassed | now apply Hahead].
Qed.

(** X23. The two checks of a delegation's validity do not agree: a
    delegation created with the single constraint [notAfter], a date in the
    past, is rejected by [verifyDelegation] and passes [enforceConstraints],
    the check that [verifyAgent] makes, with every token and at every
    time. *)
Theorem expired_delegation_passes_enforcement (options : CreateDelegationOptions)
    (uuid created notAfter : string) (expiry now_expiry now_start : Z)
    (token : AATToken) (now : Z) (timeString : string) :
  constraints options = JObj [("notAfter", JStr notAfter)] ->
  Date_parse notAfter = Some expiry ->
  notAfter <> EmptyString ->
  (expiry < now_expiry)%Z ->
  verify_delegation (createDelegation options uuid created) now_expiry now_start = Ok false
  /\ enforce (createDelegation options uuid created) token now timeString = Ok tt.
Proof.
  intros Hc Hp Hne Hlt. split.
  - unfold verifyDelegation. rewrite created_constraints, Hc.
    cbn [truthy bind get lookup String.eqb Ascii.eqb Bool.eqb].
    unfold Date_of. cbn [ToPrimitive]. rewrite Hp. cbn [date_lt].
    apply String.eqb_neq in Hne. rewrite Hne.
    apply Z.ltb_lt in Hlt. now rewrite Hlt.
  - rewrite (enforce_created _ _ _ [("notAfter", JStr notAfter)]);
      [reflexivity | now rewrite created_constraints, Hc].
Qed.

End DelegationProperties.

Lemma verifyDelegation_created_witness :
  verifyDelegation SampleDate.parse Sample.ObjectToString
    (createDelegation (constrained_options [("notAfter", JStr "2023-11-14T22:13:20.123Z")])
       sample_uuid sample_created)
    created_at created_at = Ok true
  /\ verifyDelegation SampleDate.parse Sample.ObjectToString
       (createDelegation (constrained_options [("notAfter", JStr "2023-11-14T22:13:20.123Z")])
          sample_uuid sample_created)
       minute_later minute_later = Ok false.
Proof.
  pose proof (fun now =>
    verifyDelegation_created SampleDate.parse Sample.ObjectToString
      (constrained_options [("notAfter", JStr "2023-11-14T22:13:20.123Z")])
      [("notAfter", JStr "2023-11-14T22:13:20.123Z")] sample_uuid sample_created
      (Some "2023-11-14T22:13:20.123Z") None now now eq_refl eq_refl eq_refl) as H.
  split.
  - destruct (H created_at) as (valid & -> & Hvalid). f_equal. apply Hvalid.
    split; [|discriminate]. intros t Ht. vm_compute in Ht. injection Ht as <-. reflexivity.
  - destruct (H minute_later) as ([|] & -> & Hvalid); [|reflexivity].
    destruct (proj1 Hvalid eq_refl) as [Hafter _].
    specialize (Hafter created_at eq_refl). vm_compute in Hafter. now destruct Hafter.
Defined.

Lemma expired_delegation_passes_enforcement_witness :
  verifyDelegation SampleDate.parse Sample.ObjectToString
    (bounded_delegation [("notAfter", JStr "2001-01-01T00:00:00.000Z")])
    created_at created_at = Ok false
  /\ sample_enforce (bounded_delegation [("notAfter", JStr "2001-01-01T00:00:00.000Z")])
       no_token created_at server_time = Ok tt.
Proof.
  apply (expired_delegation_passes_enforcement SampleDate.parse Sample.StringToNumber
           Sample.ObjectToString
           (constrained_options [("notAfter", JStr "2001-01-01T00:00:00.000Z")])
           sample_uuid sample_created "2001-01-01T00:00:00.000Z" 978307200000
           created_at created_at no_token created_at server_time);
    [reflexivity | vm_compute; reflexivity | discriminate | reflexivity].
Defined.

(** ** The middleware *)

Lemma substring_all (s : string) : substring 0 (String.length s) s = s.
Proof. induction s as [|c s IH]; [reflexivity|]. cbn [String.length substring]. now rewrite IH. Qed.

Lemma prefix_slice (header : string) :
  String.prefix "Bearer " header = true ->
  header = ("Bearer " ++ substring 7 (String.length header - 7) header)%string.
Proof.
  intros H. apply prefix_correct in H. cbn [String.length] in H.
  destruct header as [|c1 [|c2 [|c3 [|c4 [|c5 [|c6 [|c7 rest]]]]]]]; try discriminate.
  cbn [substring] in H.
  assert (Hrest : substring 0 0 rest = EmptyString) by now destruct rest.
  rewrite Hrest in H. injection H as -> -> -> -> -> -> ->.
  cbn [String.length Nat.sub substring String.append].
  now rewrite Nat.sub_0_r, substring_all.
Qed.

Lemma slice_prefix (token : string) :
  String.prefix "Bearer " ("Bearer " ++ token) = true
  /\ substring 7 (String.length ("Bearer " ++ token) - 7) ("Bearer " ++ token) = token.
Proof.
  split.
  - apply prefix_correct. cbn [String.length String.append substring].
    now destruct token.
  - cbn [String.length String.append Nat.sub substring].
    rewrite Nat.sub_0_r. apply substring_all.
Qed.

Section MiddlewareProperties.

Variable JSON_parse : string -> option JSValue.
Variable ed_verify : Buffer -> Buffer -> Buffer -> option bool.
Variable StringToNumber : string -> option Z.
Variable ObjectToString : JSValue -> string.

Local Abbreviation verify_agent :=
  (verifyAgent JSON_parse ed_verify StringToNumber ObjectToString).
Local Abbreviation require_agent :=
  (requireAgent JSON_parse ed_verify StringToNumber ObjectToString).
Local Abbreviation with_agent :=
  (withAgent JSON_parse ed_verify StringToNumber ObjectToString).
Local Abbreviation check_constraint := (checkConstraint StringToNumber ObjectToString).

(** X24. What the middleware decides. It answers 401 exactly when the
    request has no [Authorization] header, or an empty one, or one that is a
    string not starting with ['Bearer '], capital B and one space. On a
    header ['Bearer ' + token] it passes the request on with the agent when
    [verifyAgent] accepts the token, and answers 403 with the error of
    [verifyAgent] when it does not: no request is passed on but with a token
    that [verifyAgent] has accepted. A header that is not a string is
    answered 403. The route of [withAgent] decides in the same way. *)
Theorem requireAgent_decision (options : VerifyAgentOptions)
    (req headers authorization : JSValue) (now_ms now : Z) (timeString : string) :
  get req "headers" = Ok headers ->
  get headers "authorization" = Ok authorization ->
  with_agent options req now_ms now timeString
  = require_agent options req now_ms now timeString
  /\ (require_agent options req now_ms now timeString = Unauthorized
      <-> truthy authorization = false
          \/ exists header, authorization = JStr header
                            /\ String.prefix "Bearer " header = false)
  /\ (forall token,
        authorization = JStr ("Bearer " ++ token) ->
        require_agent options req now_ms now timeString
        = match verify_agent token options now_ms now timeString with
          | Ok agent => Granted agent
          | Err e => Forbidden e
          end)
  /\ (forall agent,
        require_agent options req now_ms now timeString = Granted agent
        -> exists token,
             authorization = JStr ("Bearer " ++ token)
             /\ verify_agent token options now_ms now timeString = Ok agent)
  /\ (truthy authorization = true ->
      (forall header, authorization <> JStr header) ->
      require_agent options req now_ms now timeString
      = Forbidden TypeError).
Proof.
  intros Hheaders Hauthorization. split; [reflexivity|]. unfold requireAgent.
  rewrite Hheaders. cbn [bind]. rewrite Hauthorization. cbn [bind].
  destruct (truthy authorization) eqn:Ht; cbn [negb].
  2:{ split; [split; [now left | reflexivity]|].
      split; [intros token ->; discriminate|].
      split; discriminate. }
  destruct authorization as [| | | |header| |]; cbn [string_receiver bind];
    try (split; [split; [discriminate | intros [H|(? & H & _)]; discriminate]|];
         split; [intros token H; discriminate|];
         split; [discriminate | reflexivity]).
  destruct (String.prefix "Bearer " header) eqn:Hp; cbn [negb].
  - pose proof (prefix_slice header Hp) as Hh.
    split; [|split; [|split]].
    + split.
      * destruct (verifyAgent _ _ _ _ _ _ _ _ _); discriminate.
      * intros [H|(h & [= <-] & H)]; congruence.
    + intros token [= H]. clear Hh. subst header.
      cbn [String.length Nat.sub substring]. rewrite Nat.sub_0_r, substring_all.
      now destruct (verifyAgent _ _ _ _ token _ _ _ _).
    + intros agent.
      destruct (verifyAgent _ _ _ _ _ _ _ _ _) as [a|] eqn:Ev; cbn [bind]; [|discriminate].
      intros [= <-]. eexists. split; [now rewrite <- Hh | exact Ev].
    + intros _ H. now destruct (H header).
  - split; [|split; [|split]].
    + split; [intros _; right; now exists header | reflexivity].
    + intros token [= ->]. pose proof (slice_prefix token) as [H _].
      change (String.prefix "Bearer " ("Bearer " ++ token) = false) in Hp. congruence.
    + discriminate.
    + intros _ H. now destruct (H header).
Qed.

(** X25. [checkConstraint] on a created delegation: a constraint that is
    not set allows every value, a current value that is left out is allowed
    by every limit, and a number is allowed by a numeric limit exactly when
    it does not exceed it, the limit itself included; what the limit allows
    it allows of every smaller number. It never throws. *)
Theorem checkConstraint_created (options : CreateDelegationOptions)
    (fields : list (string * JSValue)) (uuid created : string) (constraint : ConstraintName) :
  get (createDelegation options uuid created) "constraints" = Ok (JObj fields) ->
  (lookup (constraint_key constraint) fields = JUndefined ->
   forall currentValue,
     check_constraint (createDelegation options uuid created) constraint currentValue = Ok true)
  /\ (forall limit,
        lookup (constraint_key constraint) fields = JNum limit ->
        check_constraint (createDelegation options uuid created) constraint JUndefined = Ok true
        /\ (forall current,
              check_constraint (createDelegation options uuid created) constraint (JNum current)
              = Ok (current <=? limit)%Z)
        /\ (forall current smaller,
              check_constraint (createDelegation options uuid created) constraint (JNum current)
              = Ok true ->
              (smaller <= current)%Z ->
              check_constraint (createDelegation options uuid created) constraint (JNum smaller)
              = Ok true)).
Proof.
  intros Hc. unfold checkConstraint. rewrite Hc. cbn [bind truthy get].
  split.
  - intros -> currentValue. reflexivity.
  - intros limit ->. cbn [strict_eq].
    assert (Hle : forall current,
               js_le StringToNumber ObjectToString (JNum current) (JNum limit)
               = (current <=? limit)%Z).
    { intros current. unfold js_le, IsLessThan. cbn [ToPrimitive ToNumber].
      destruct (Z.ltb_spec limit current), (Z.leb_spec current limit); cbn; auto; lia. }
    split; [reflexivity|]. split.
    + intros current. now rewrite Hle.
    + intros current smaller. rewrite !Hle. intros [= H] Hs. f_equal.
      apply Z.leb_le. apply Z.leb_le in H. lia.
Qed.

End MiddlewareProperties.

Lemma requireAgent_decision_witness :
  requireAgent Sample.parse Sample.verify Sample.StringToNumber Sample.ObjectToString
    sample_agent_options (request_with (JStr ("Bearer " ++ delegated_token)))
    minute_later minute_later server_time = Granted sample_agent
  /\ requireAgent Sample.parse Sample.verify Sample.StringToNumber Sample.ObjectToString
       sample_agent_options (request_with (JStr ("bearer " ++ delegated_token)))
       minute_later minute_later server_time = Unauthorized
  /\ requireAgent Sample.parse Sample.verify Sample.StringToNumber Sample.ObjectToString
       sample_agent_options (request_with (JStr ("Bearer " ++ sample_token)))
       minute_later minute_later server_time = Forbidden NoDelegation.
Proof.
  split; [|split].
  - destruct (requireAgent_decision Sample.parse Sample.verify Sample.StringToNumber
                Sample.ObjectToString sample_agent_options
                (request_with (JStr ("Bearer " ++ delegated_token)))
                (JObj [("authorization", JStr ("Bearer " ++ delegated_token))])
                (JStr ("Bearer " ++ delegated_token))
                minute_later minute_later server_time eq_refl eq_refl)
      as (_ & _ & Hbearer & _).
    rewrite (Hbearer delegated_token eq_refl).
    now rewrite delegated_token_verified.
  - destruct (requireAgent_decision Sample.parse Sample.verify Sample.StringToNumber
                Sample.ObjectToString sample_agent_options
                (request_with (JStr ("bearer " ++ delegated_token)))
                (JObj [("authorization", JStr ("bearer " ++ delegated_token))])
                (JStr ("bearer " ++ delegated_token))
                minute_later minute_later server_time eq_refl eq_refl)
      as (_ & Hunauthorized & _).
    apply Hunauthorized. right. eexists. split; reflexivity.
  - vm_compute. reflexivity.
Defined.

Lemma checkConstraint_created_witness :
  checkConstraint Sample.StringToNumber Sample.ObjectToString
    (createDelegation (constrained_options [("maxUses", JNum 5)]) sample_uuid sample_created)
    maxUses (JNum 5) = Ok true
  /\ checkConstraint Sample.StringToNumber Sample.ObjectToString
       (createDelegation (constrained_options [("maxUses", JNum 5)]) sample_uuid sample_created)
       maxUses (JNum 6) = Ok false
  /\ checkConstraint Sample.StringToNumber Sample.ObjectToString
       (createDelegation (constrained_options [("maxUses", JNum 5)]) sample_uuid sample_created)
       maxUsesPerHour (JNum 6) = Ok true.
Proof.
  destruct (checkConstraint_created Sample.StringToNumber Sample.ObjectToString
              (constrained_options [("maxUses", JNum 5)]) [("maxUses", JNum 5)]
              sample_uuid sample_created maxUses eq_refl) as [_ Hset].
  destruct (Hset 5%Z eq_refl) as (_ & Hle & _).
  destruct (checkConstraint_created Sample.StringToNumber Sample.ObjectToString
              (constrained_options [("maxUses", JNum 5)]) [("maxUses", JNum 5)]
              sample_uuid sample_created maxUsesPerHour eq_refl) as [Hunset _].
  split; [apply Hle|]. split; [apply Hle | now apply Hunset].
Defined.

(** ** The approval dialog *)

Lemma lookup_set_property (key k : string) (v : JSValue) (fields : list (string * JSValue)) :
  lookup key (set_property k v fields) = if String.eqb key k then v else lookup key fields.
Proof.
  induction fields as [|[k0 w] fields IH]; cbn [set_property lookup]; [reflexivity|].
  destruct (String.eqb_spec k k0) as [->|Hk]; cbn [lookup].
  - now destruct (String.eqb key k0).
  - rewrite IH. destruct (String.eqb_spec key k0) as [->|]; [|reflexivity].
    destruct (String.eqb_spec k0 k); [congruence | reflexivity].
Qed.

Lemma lookup_absent (key : string) (fields : list (string * JSValue)) :
  has_key key fields = false -> lookup key fields = JUndefined.
Proof.
  induction fields as [|[k v] fields IH]; [reflexivity|].
  cbn [has_key existsb fst lookup]. intros H. apply orb_false_iff in H as [Hk H].
  rewrite Hk. now apply IH.
Qed.

(** [{ ...a, ...b }] has the properties of [b] and, besides them, those of
    [a]. *)
Lemma lookup_spread (key : string) (b : list (string * JSValue)) :
  NoDup (map fst b) ->
  forall a, lookup key (spread a b) = if has_key key b then lookup key b else lookup key a.
Proof.
  unfold spread. induction b as [|[k v] b IH]; intros Hnd a; [reflexivity|].
  cbn [map fst] in Hnd. inversion Hnd as [|? ? Hk Hb]; subst.
  cbn [fold_left fst snd]. rewrite (IH Hb), lookup_set_property.
  cbn [has_key existsb fst lookup]. fold (has_key key b).
  destruct (String.eqb_spec key k) as [->|]; cbn [orb]; [|reflexivity].
  assert (Hno : has_key k b = false).
  { destruct (has_key k b) eqn:E; [|reflexivity]. exfalso. apply Hk.
    unfold has_key in E. apply existsb_exists in E as ([k' v'] & Hin & Heq).
    cbn [fst] in Heq. apply String.eqb_eq in Heq. subst.
    apply in_map_iff. now exists (k', v'). }
  now rewrite Hno.
Qed.

Lemma preset_has_no_bounds (preset : DelegationPreset) (key : string) :
  In key ["notAfter"; "notBefore"; "expiresAt"] ->
  has_key key (preset_constraints (PRESET_CONFIG preset)) = false.
Proof.
  intros [<-|[<-|[<-|[]]]]; now destruct preset.
Qed.

(** X26. What the dialog approves: with no signer, [onApprove] receives a
    delegation of the agent by the delegator for the scopes requested, whose
    constraints are the ones shown in the dialog and, where these say
    nothing, the ones of the preset selected. *)
Theorem approved_constraints (props : DelegationRequestProps) (state : DialogState)
    (now : Z) (uuid created : string) :
  props_signerCallback props = None ->
  NoDup (map fst (dialog_constraints state)) ->
  exists delegation fields,
    handleApprove props state now uuid created = Some delegation
    /\ get delegation "delegator" = Ok (JObj [("id", JStr (props_delegatorDID props))])
    /\ (exists delegate, get delegation "delegate" = Ok delegate
                         /\ get delegate "id" = Ok (JStr (props_agentDID props)))
    /\ (exists scope, get delegation "scope" = Ok scope
                      /\ get scope "include" = Ok (JArr (map JStr (props_scopes props))))
    /\ get delegation "constraints" = Ok (JObj fields)
    /\ forall key,
         lookup key fields
         = if has_key key (dialog_constraints state)
           then lookup key (dialog_constraints state)
           else lookup key (preset_constraints (PRESET_CONFIG (selectedPreset state))).
Proof.
  intros Hsigner Hnd. unfold handleApprove. rewrite Hsigner.
  eexists. eexists. split; [reflexivity|].
  split; [reflexivity|].
  split; [eexists; split; reflexivity|].
  split; [eexists; split; reflexivity|].
  split; [reflexivity|].
  intros key. now apply lookup_spread.
Qed.

(** X27. The duration of a preset limits nothing: whatever preset is
    selected, five minutes or thirty days, the delegation approved has no
    [expiresAt], and as long as the constraints shown hold no [notAfter] and
    no [notBefore] (the dialog's constraints have neither) it passes
    [verifyDelegation] at every time, and [enforceConstraints] never finds it
    expired. *)
Theorem approved_delegation_never_expires (props : DelegationRequestProps)
    (state : DialogState) (now : Z) (uuid created : string) :
  props_signerCallback props = None ->
  has_key "notAfter" (dialog_constraints state) = false ->
  has_key "notBefore" (dialog_constraints state) = false ->
  NoDup (map fst (dialog_constraints state)) ->
  exists delegation,
    handleApprove props state now uuid created = Some delegation
    /\ get delegation "expiresAt" = Ok JUndefined
    /\ (forall Date_parse ObjectToString now_expiry now_start,
          verifyDelegation Date_parse ObjectToString delegation now_expiry now_start = Ok true)
    /\ (forall StringToNumber ObjectToString token later timeString,
          enforceConstraints StringToNumber ObjectToString delegation token later timeString
          <> Err DelegationExpired).
Proof.
  intros Hsigner Ha Hb Hnd. unfold handleApprove. rewrite Hsigner.
  eexists. split; [reflexivity|]. split; [reflexivity|]. split.
  - intros Date_parse ObjectToString now_expiry now_start.
    unfold verifyDelegation. rewrite created_constraints.
    cbn [constraints truthy bind get].
    rewrite !lookup_spread, Ha, Hb by assumption.
    rewrite !lookup_absent by (apply preset_has_no_bounds; cbn; auto).
    reflexivity.
  - intros StringToNumber ObjectToString token later timeString H.
    apply (proj1 (time_bound_errors _ _ _ _ _ _)) in H as (v & Hv & Ht & _).
    cbn in Hv. injection Hv as <-. discriminate.
Qed.

(** Selecting a preset discards what was shown before: after the
    selector has changed to a preset, custom constraints given to the dialog
    are gone, and the delegation approved has exactly the constraints of
    that preset. *)
Theorem selected_preset_constraints (props : DelegationRequestProps) (state : DialogState)
    (preset : DelegationPreset) (now : Z) (uuid created : string) :
  props_signerCallback props = None ->
  exists delegation,
    handleApprove props (select_preset preset state) now uuid created = Some delegation
    /\ get delegation "constraints" = Ok (JObj (preset_constraints (PRESET_CONFIG preset))).
Proof.
  intros Hsigner. unfold handleApprove. rewrite Hsigner.
  eexists. split; [reflexivity|]. now destruct preset.
Qed.

(** ** The hook *)

Lemma filter_other_ids_spec (delegationId : string) (prev kept : list JSValue) :
  filter_other_ids delegationId prev = Ok kept ->
  forall d, In d kept
            <-> In d prev /\ exists id, get d "id" = Ok id /\ id <> JStr delegationId.
Proof.
  revert kept. induction prev as [|x prev IH]; cbn [filter_other_ids]; intros kept H d.
  { injection H as <-. split; [intros [] | intros [[] _]]. }
  destruct (get x "id") as [id|] eqn:Eid; cbn [bind] in H; [|discriminate].
  destruct (filter_other_ids delegationId prev) as [kept'|]; cbn [bind] in H; [|discriminate].
  injection H as <-. specialize (IH kept' eq_refl d).
  destruct (strict_eq id (JStr delegationId)) eqn:Es; cbn [negb].
  - apply strict_eq_JStr in Es. subst id. rewrite IH. split.
    + intros [Hin Hid]. split; [now right | exact Hid].
    + intros [[<-|Hin] (id & Hid & Hne)]; [congruence | split; [exact Hin | eauto]].
  - cbn [In]. rewrite IH. split.
    + intros [<-|[Hin Hid]].
      * split; [now left|]. exists id. split; [exact Eid|].
        intros ->. rewrite (proj2 (strict_eq_JStr _ _) eq_refl) in Es. discriminate.
      * split; [now right | exact Hid].
    + intros [[<-|Hin] Hid]; [now left | right; now split].
Qed.

(** X28. Revoking removes the delegations of that id and no other: after
    [revokeDelegation], the active delegations are those that were active
    and whose [id] is not the one revoked, and the pending request is
    untouched. *)
Theorem revokeDelegation_removes (delegationId : string) (state state' : AgentAuthState) :
  revokeDelegation delegationId state = Ok state' ->
  (forall d, In d (activeDelegations state')
             <-> In d (activeDelegations state)
                 /\ exists id, get d "id" = Ok id /\ id <> JStr delegationId)
  /\ isRequestPending state' = isRequestPending state
  /\ currentRequest state' = currentRequest state.
Proof.
  unfold revokeDelegation.
  destruct (filter_other_ids delegationId (activeDelegations state)) as [kept|] eqn:E;
    cbn [bind]; [|discriminate].
  intros [= <-]. cbn [activeDelegations isRequestPending currentRequest].
  split; [now apply filter_other_ids_spec | now split].
Qed.

Lemma auth_run_invariant (actions : list AuthAction) :
  forall state state',
    (isRequestPending state = true <-> currentRequest state <> None) ->
    auth_run actions state = Ok state' ->
    (isRequestPending state' = true <-> currentRequest state' <> None)
    /\ forall d, In d (activeDelegations state') ->
                 In d (activeDelegations state) \/ In (Approve d) actions.
Proof.
  induction actions as [|action actions IH]; intros state state' Hinv; cbn [auth_run].
  { intros [= <-]. split; [exact Hinv | now left]. }
  destruct (auth_step action state) as [next|] eqn:Estep; cbn [bind]; [|discriminate].
  intros Hrun.
  assert (Hnext : (isRequestPending next = true <-> currentRequest next <> None)
                  /\ forall d, In d (activeDelegations next) ->
                               In d (activeDelegations state) \/ action = Approve d).
  { destruct action as [request|delegation| |delegationId]; cbn [auth_step] in Estep.
    - injection Estep as <-. cbn. split; [split; [discriminate | reflexivity] | auto].
    - injection Estep as <-. cbn. split; [split; [discriminate | congruence]|].
      intros d Hd. apply in_app_or in Hd as [Hd|[<-|[]]]; auto.
    - injection Estep as <-. cbn. split; [split; [discriminate | congruence] | auto].
    - unfold revokeDelegation in Estep.
      destruct (filter_other_ids delegationId (activeDelegations state)) as [kept|] eqn:E;
        cbn [bind] in Estep; [|discriminate].
      injection Estep as <-. cbn [activeDelegations isRequestPending currentRequest].
      split; [exact Hinv|].
      intros d Hd. left. now apply (filter_other_ids_spec _ _ _ E). }
  destruct Hnext as [Hinv' Hsub].
  destruct (IH next state' Hinv' Hrun) as [Hfinal Hin].
  split; [exact Hfinal|].
  intros d Hd. destruct (Hin d Hd) as [Hd'|Hd']; [|right; now right].
  destruct (Hsub d Hd') as [H|H]; [now left | subst; right; now left].
Qed.

(** X29. The hook's state keeps together: from the initial state, after
    any sequence of requests, approvals, denials and revocations, a request
    is pending exactly when there is a current request, and every active
    delegation is one that was approved. *)
Theorem useAgentAuth_invariant (actions : list AuthAction) (state : AgentAuthState) :
  auth_run actions initial_auth = Ok state ->
  (isRequestPending state = true <-> currentRequest state <> None)
  /\ forall d, In d (activeDelegations state) -> In (Approve d) actions.
Proof.
  intros Hrun.
  destruct (auth_run_invariant actions initial_auth state) as [Hinv Hin];
    [cbn; split; [discriminate | congruence] | exact Hrun |].
  split; [exact Hinv|].
  intros d Hd. destruct (Hin d Hd) as [[]|H]. exact H.
Qed.

Lemma approved_constraints_witness :
  exists delegation,
    handleApprove sample_props (initial_dialog sample_props) created_at sample_uuid
      sample_created = Some delegation
    /\ get delegation "constraints"
       = Ok (JObj [("maxUses", JNum 1); ("maxUsesPerHour", JNum 5)]).
Proof.
  destruct (approved_constraints sample_props (initial_dialog sample_props) created_at
              sample_uuid sample_created eq_refl)
    as (delegation & fields & Happrove & _);
    [repeat constructor; intros []|].
  exists delegation. split; [exact Happrove|].
  vm_compute in Happrove. injection Happrove as <-. reflexivity.
Defined.

Lemma approved_delegation_never_expires_witness :
  exists delegation,
    handleApprove sample_props (initial_dialog sample_props) created_at sample_uuid
      sample_created = Some delegation
    /\ verifyDelegation SampleDate.parse Sample.ObjectToString delegation
         (created_at + 365 * 86400000) (created_at + 365 * 86400000) = Ok true.
Proof.
  destruct (approved_delegation_never_expires sample_props (initial_dialog sample_props)
              created_at sample_uuid sample_created eq_refl eq_refl eq_refl)
    as (delegation & Happrove & _ & Hverify & _);
    [repeat constructor; intros []|].
  exists delegation. split; [exact Happrove | apply Hverify].
Defined.

Lemma revokeDelegation_removes_witness :
  revokeDelegation "urn:uuid:3f2b8c1e-0d4a-4b7e-9c55-2a6d1e8f9b10"
    (approveDelegation sample_delegation initial_auth) = Ok initial_auth
  /\ ~ In sample_delegation (activeDelegations initial_auth).
Proof.
  assert (H : revokeDelegation "urn:uuid:3f2b8c1e-0d4a-4b7e-9c55-2a6d1e8f9b10"
                (approveDelegation sample_delegation initial_auth) = Ok initial_auth)
    by reflexivity.
  split; [exact H|].
  destruct (revokeDelegation_removes _ _ _ H) as (Hactive & _).
  intros Hin. apply Hactive in Hin as (_ & id & Hid & Hne).
  apply Hne. vm_compute in Hid. now injection Hid as <-.
Defined.

Lemma useAgentAuth_invariant_witness :
  auth_run [Request sample_request; Approve sample_delegation; Request sample_request]
    initial_auth
  = Ok {| isRequestPending := true;
          currentRequest := Some sample_request;
          activeDelegations := [sample_delegation] |}
  /\ In (Approve sample_delegation)
       [Request sample_request; Approve sample_delegation; Request sample_request].
Proof.
  assert (H : auth_run [Request sample_request; Approve sample_delegation;
                        Request sample_request] initial_auth
              = Ok {| isRequestPending := true;
                      currentRequest := Some sample_request;
                      activeDelegations := [sample_delegation] |}) by reflexivity.
  split; [exact H|].
  apply (proj2 (useAgentAuth_invariant _ _ H) sample_delegation). now left.
Defined.
